(** * lczero-training: the training loop of [tf/tfprocess2.py]

    A shallow embedding of the orchestration code of [TFProcess] and of
    the helpers around it ([Metric], [make_value_buckets], [Gating], the
    loss wrappers, the sparsity patterns), followed by the properties the
    specification states about them (C1 to C10) and by further properties
    read off the code (X1 to X27).

    Conventions of the embedding.
    - Python integers and [tf.int64] step counters are [Z].
    - Tensor entries are exact rationals ([Qc]); the arithmetic of
      [update_swa] is written against an interface so that the very same
      definition also runs in IEEE binary32, the type TensorFlow stores
      the weights in.
    - A Python call that may raise returns a [result]; the exception is a
      value of [exn].
    - [self] is a record; a method returns the updated record. *)

From Stdlib Require Import ZArith QArith Qcanon Qcabs Lia List Bool Sorted.
From Stdlib Require Import Floats.SpecFloat.
From stdpp Require Import base numbers list strings pretty gmap.

#[local] Open Scope Z_scope.

(** ** Python exceptions and fallible calls *)

Inductive exn : Type :=
| ValueError (msg : string)
| KeyError (msg : string)
| AttributeError (attr : string)
| AssertionError
| StopIteration
| IndexError
| TypeError
| ZeroDivisionError
| OSError.

Inductive result (A : Type) : Type :=
| Ok (a : A)
| Raise (e : exn).
Arguments Ok {A} a.
Arguments Raise {A} e.

Definition bind {A B} (r : result A) (k : A → result B) : result B :=
  match r with
  | Ok a => k a
  | Raise e => Raise e
  end.

Notation "'let!' x ':=' r 'in' k" := (bind r (λ x, k))
  (at level 10, x pattern, r at level 100, k at level 200).

Definition raises {A} (r : result A) : bool :=
  match r with Ok _ => false | Raise _ => true end.

(** A tensor is kept as its flat list of entries. *)
Definition tensor (F : Type) : Type := list F.

(** ** [class Metric] *)

Module Metric.

Record t : Type := mk {
  short_name : string;
  long_name : string;
  suffix : string;
  value : Qc;
  count : Z
}.

(** [Metric(short_name, long_name, suffix="")] *)
Definition init (short long suff : string) : t :=
  mk short long suff 0%Qc 0.

Definition assign (self : t) (v : Qc) : t :=
  mk (short_name self) (long_name self) (suffix self) v 1.

Definition accumulate (self : t) (v : Qc) : t :=
  if 0 <? count self
  then mk (short_name self) (long_name self) (suffix self)
          (value self + v)%Qc (count self + 1)
  else assign self v.

(** [merge] starts with [assert self.short_name == other.short_name]. *)
Definition merge (self other : t) : result t :=
  if String.eqb (short_name self) (short_name other)
  then Ok (mk (short_name self) (long_name self) (suffix self)
              (value self + value other)%Qc (count self + count other))
  else Raise AssertionError.

Definition get (self : t) : Qc :=
  if count self =? 0 then value self
  else (value self / Qc_of_Z (count self))%Qc.

Definition reset (self : t) : t :=
  mk (short_name self) (long_name self) (suffix self) 0%Qc 0.

(** The metrics a client can build with the public operations. *)
Inductive reachable : t → Prop :=
| reach_init short long suff : reachable (init short long suff)
| reach_assign m v : reachable m → reachable (assign m v)
| reach_accumulate m v : reachable m → reachable (accumulate m v)
| reach_merge m o m' :
    reachable m → reachable o → merge m o = Ok m' → reachable m'
| reach_reset m : reachable m → reachable (reset m).

End Metric.

(** ** [make_value_buckets] *)

(** [tf.einsum("bi, i-> b", value_wdl, tf.constant([1, 0.5, 0]))] on one
    row of the batch. *)
Definition wdl_scalar (row : Qc * Qc * Qc) : Qc :=
  let '(w, d, l) := row in
  (w * 1 + d * Q2Qc (1 # 2) + l * 0)%Qc.

(** [tf.cast(_, tf.int64)] of a float: the fractional part is dropped,
    rounding toward zero. *)
Definition cast_int64 (q : Qc) : Z :=
  Z.quot (Qnum (this q)) (Zpos (Qden (this q))).

(** [tf.clip_by_value(t, lo, hi)] is [maximum(minimum(t, hi), lo)]. *)
Definition clip_by_value (x lo hi : Z) : Z := Z.max (Z.min x hi) lo.

Definition value_bucket (row : Qc * Qc * Qc) (num_buckets : Z) : Z :=
  let value := wdl_scalar row in
  let bucket := cast_int64 (value * Qc_of_Z num_buckets)%Qc in
  clip_by_value bucket 0 (num_buckets - 1).

Definition make_value_buckets (value_wdl : list (Qc * Qc * Qc))
    (num_buckets : Z) : list Z :=
  map (λ row, value_bucket row num_buckets) value_wdl.

(** ** Tensor arithmetic

    The scalar type of the tensors with the operations [update_swa] uses. *)

Class Arith (F : Type) : Type := {
  f_one : F;
  f_add : F → F → F;
  f_mul : F → F → F;
  f_div : F → F → F;
  f_ltb : F → F → bool
}.

Definition Qc_ltb (a b : Qc) : bool :=
  match (a ?= b)%Qc with Lt => true | _ => false end.

(** Exact arithmetic. *)
#[export] Instance Qc_arith : Arith Qc := {|
  f_one := 1%Qc;
  f_add := Qcplus;
  f_mul := Qcmult;
  f_div := Qcdiv;
  f_ltb := Qc_ltb
|}.

(** IEEE 754 binary32 ([tf.float32]): 24 bits of precision, exponents
    below 128, round to nearest even. *)
Definition float32 : Type := spec_float.

Definition f32_of_Z (n : Z) : float32 := binary_normalize 24 128 n 0 false.

#[export] Instance float32_arith : Arith float32 := {|
  f_one := f32_of_Z 1;
  f_add := SFadd 24 128;
  f_mul := SFmul 24 128;
  f_div := SFdiv 24 128;
  f_ltb := SFltb
|}.

(** ** The state of a [TFProcess] *)

(** One entry of [self.model.weights]. *)
Record Weight : Type := mkWeight {
  w_name : string;
  w_shape : list Z;
  w_trainable : bool;
  w_value : tensor Qc
}.

Definition assign (v : tensor Qc) (w : Weight) : Weight :=
  mkWeight (w_name w) (w_shape w) (w_trainable w) v.

(** The keys of [cfg["training"]] and [cfg["model"]] the modelled code
    reads; a key read with [.get] is optional. *)
Record Cfg : Type := mkCfg {
  lr_values : list Qc;
  lr_boundaries : list Z;
  total_steps : Z;
  cfg_warmup_steps : option Z;
  max_grad_norm : option Qc;
  mask_legal_moves : option bool;
  swa_steps : Z;
  test_steps : Z;
  train_avg_report_steps : Z;
  checkpoint_steps : option Z;
  num_batch_splits : option Z
}.

Definition set_lr_boundaries (v : list Z) (c : Cfg) : Cfg :=
  mkCfg (lr_values c) v (total_steps c) (cfg_warmup_steps c)
    (max_grad_norm c) (mask_legal_moves c) (swa_steps c) (test_steps c)
    (train_avg_report_steps c) (checkpoint_steps c) (num_batch_splits c).

(** A training tuple [(x, y, z, q, m)]. *)
Definition batch : Type :=
  (tensor Qc * tensor Qc * tensor Qc * tensor Qc * tensor Qc)%type.

Inductive writer : Type :=
| TrainWriter | TestWriter | SwaWriter.

(** What [tf.summary.scalar] records under a writer at a step. *)
Definition summary : Type := (writer * Z * list Qc)%type.

(** [pb.training_params] *)
Record TrainingParams : Type := mkTrainingParams {
  learning_rate : Qc;
  mse_loss : Qc;
  policy_loss_pb : Qc;
  accuracy : Qc
}.

(** [self.net] after [parse_proto]: the format flags of the file, the
    table [get_weights_v2] answers from, and the training parameters. *)
Record Net : Type := mkNet {
  pb_policy : Z;
  pb_value : Z;
  pb_input : Z;
  get_weights_v2 : list string → gmap string (list Qc);
  training_params : TrainingParams
}.

Definition set_training_params (v : TrainingParams) (n : Net) : Net :=
  mkNet (pb_policy n) (pb_value n) (pb_input n) (get_weights_v2 n) v.

Definition set_learning_rate (v : Qc) (p : TrainingParams) : TrainingParams :=
  mkTrainingParams v (mse_loss p) (policy_loss_pb p) (accuracy p).
Definition set_mse_loss (v : Qc) (p : TrainingParams) : TrainingParams :=
  mkTrainingParams (learning_rate p) v (policy_loss_pb p) (accuracy p).
Definition set_policy_loss_pb (v : Qc) (p : TrainingParams) : TrainingParams :=
  mkTrainingParams (learning_rate p) (mse_loss p) v (accuracy p).
Definition set_accuracy (v : Qc) (p : TrainingParams) : TrainingParams :=
  mkTrainingParams (learning_rate p) (mse_loss p) (policy_loss_pb p) v.

(** The attributes of [self] the modelled methods read or write.
    [strategy] is [Some num_replicas_in_sync] under a distribution
    strategy; [slots] are the slot variables of the optimizer, one per
    trainable weight; the iterators yield one feed per call, a feed being
    one tuple per replica; [summaries], [saved] and [stdout] record what
    was written to the summary writers, to files and to the console. *)
Record TFProcess : Type := mkTFProcess {
  cfg : Cfg;
  swa_enabled : bool;
  swa_max_n : Qc;
  virtual_batch_size : option Z;
  strategy : option Z;
  POLICY_HEAD : Z;
  VALUE_HEAD : Z;
  weights : list Weight;
  swa_weights : option (list (tensor Qc));
  swa_count : Qc;
  slots : list (tensor Qc);
  active_lr : Qc;
  lr : Qc;
  warmup_steps : Z;
  global_step : Z;
  train_metrics : list Metric.t;
  test_metrics : list Metric.t;
  train_iter : list (list batch);
  test_iter : list (list batch);
  test_writer : writer;
  swa_writer : writer;
  summaries : list summary;
  saved : list (string * list (string * tensor Qc));
  stdout : list string;
  net : Net
}.

(** Assignments to single attributes. *)
Definition set_cfg (v : Cfg) (self : TFProcess) : TFProcess :=
  {| cfg := v; swa_enabled := swa_enabled self; swa_max_n := swa_max_n
     self; virtual_batch_size := virtual_batch_size self; strategy :=
     strategy self; POLICY_HEAD := POLICY_HEAD self; VALUE_HEAD := VALUE_HEAD
     self; weights := weights self; swa_weights := swa_weights self;
     swa_count := swa_count self; slots := slots self; active_lr := active_lr
     self; lr := lr self; warmup_steps := warmup_steps self; global_step :=
     global_step self; train_metrics := train_metrics self; test_metrics :=
     test_metrics self; train_iter := train_iter self; test_iter := test_iter
     self; test_writer := test_writer self; swa_writer := swa_writer self;
     summaries := summaries self; saved := saved self; stdout := stdout self;
     net := net self |}.

Definition set_weights (v : list Weight) (self : TFProcess) : TFProcess :=
  {| cfg := cfg self; swa_enabled := swa_enabled self; swa_max_n :=
     swa_max_n self; virtual_batch_size := virtual_batch_size self; strategy
     := strategy self; POLICY_HEAD := POLICY_HEAD self; VALUE_HEAD :=
     VALUE_HEAD self; weights := v; swa_weights := swa_weights self;
     swa_count := swa_count self; slots := slots self; active_lr := active_lr
     self; lr := lr self; warmup_steps := warmup_steps self; global_step :=
     global_step self; train_metrics := train_metrics self; test_metrics :=
     test_metrics self; train_iter := train_iter self; test_iter := test_iter
     self; test_writer := test_writer self; swa_writer := swa_writer self;
     summaries := summaries self; saved := saved self; stdout := stdout self;
     net := net self |}.

Definition set_swa_weights (v : option (list (tensor Qc))) (self : TFProcess) : TFProcess :=
  {| cfg := cfg self; swa_enabled := swa_enabled self; swa_max_n :=
     swa_max_n self; virtual_batch_size := virtual_batch_size self; strategy
     := strategy self; POLICY_HEAD := POLICY_HEAD self; VALUE_HEAD :=
     VALUE_HEAD self; weights := weights self; swa_weights := v; swa_count :=
     swa_count self; slots := slots self; active_lr := active_lr self; lr :=
     lr self; warmup_steps := warmup_steps self; global_step := global_step
     self; train_metrics := train_metrics self; test_metrics := test_metrics
     self; train_iter := train_iter self; test_iter := test_iter self;
     test_writer := test_writer self; swa_writer := swa_writer self;
     summaries := summaries self; saved := saved self; stdout := stdout self;
     net := net self |}.

Definition set_swa_count (v : Qc) (self : TFProcess) : TFProcess :=
  {| cfg := cfg self; swa_enabled := swa_enabled self; swa_max_n :=
     swa_max_n self; virtual_batch_size := virtual_batch_size self; strategy
     := strategy self; POLICY_HEAD := POLICY_HEAD self; VALUE_HEAD :=
     VALUE_HEAD self; weights := weights self; swa_weights := swa_weights
     self; swa_count := v; slots := slots self; active_lr := active_lr self;
     lr := lr self; warmup_steps := warmup_steps self; global_step :=
     global_step self; train_metrics := train_metrics self; test_metrics :=
     test_metrics self; train_iter := train_iter self; test_iter := test_iter
     self; test_writer := test_writer self; swa_writer := swa_writer self;
     summaries := summaries self; saved := saved self; stdout := stdout self;
     net := net self |}.

Definition set_slots (v : list (tensor Qc)) (self : TFProcess) : TFProcess :=
  {| cfg := cfg self; swa_enabled := swa_enabled self; swa_max_n :=
     swa_max_n self; virtual_batch_size := virtual_batch_size self; strategy
     := strategy self; POLICY_HEAD := POLICY_HEAD self; VALUE_HEAD :=
     VALUE_HEAD self; weights := weights self; swa_weights := swa_weights
     self; swa_count := swa_count self; slots := v; active_lr := active_lr
     self; lr := lr self; warmup_steps := warmup_steps self; global_step :=
     global_step self; train_metrics := train_metrics self; test_metrics :=
     test_metrics self; train_iter := train_iter self; test_iter := test_iter
     self; test_writer := test_writer self; swa_writer := swa_writer self;
     summaries := summaries self; saved := saved self; stdout := stdout self;
     net := net self |}.

Definition set_active_lr (v : Qc) (self : TFProcess) : TFProcess :=
  {| cfg := cfg self; swa_enabled := swa_enabled self; swa_max_n :=
     swa_max_n self; virtual_batch_size := virtual_batch_size self; strategy
     := strategy self; POLICY_HEAD := POLICY_HEAD self; VALUE_HEAD :=
     VALUE_HEAD self; weights := weights self; swa_weights := swa_weights
     self; swa_count := swa_count self; slots := slots self; active_lr := v;
     lr := lr self; warmup_steps := warmup_steps self; global_step :=
     global_step self; train_metrics := train_metrics self; test_metrics :=
     test_metrics self; train_iter := train_iter self; test_iter := test_iter
     self; test_writer := test_writer self; swa_writer := swa_writer self;
     summaries := summaries self; saved := saved self; stdout := stdout self;
     net := net self |}.

Definition set_lr (v : Qc) (self : TFProcess) : TFProcess :=
  {| cfg := cfg self; swa_enabled := swa_enabled self; swa_max_n :=
     swa_max_n self; virtual_batch_size := virtual_batch_size self; strategy
     := strategy self; POLICY_HEAD := POLICY_HEAD self; VALUE_HEAD :=
     VALUE_HEAD self; weights := weights self; swa_weights := swa_weights
     self; swa_count := swa_count self; slots := slots self; active_lr :=
     active_lr self; lr := v; warmup_steps := warmup_steps self; global_step
     := global_step self; train_metrics := train_metrics self; test_metrics
     := test_metrics self; train_iter := train_iter self; test_iter :=
     test_iter self; test_writer := test_writer self; swa_writer :=
     swa_writer self; summaries := summaries self; saved := saved self;
     stdout := stdout self; net := net self |}.

Definition set_warmup_steps (v : Z) (self : TFProcess) : TFProcess :=
  {| cfg := cfg self; swa_enabled := swa_enabled self; swa_max_n :=
     swa_max_n self; virtual_batch_size := virtual_batch_size self; strategy
     := strategy self; POLICY_HEAD := POLICY_HEAD self; VALUE_HEAD :=
     VALUE_HEAD self; weights := weights self; swa_weights := swa_weights
     self; swa_count := swa_count self; slots := slots self; active_lr :=
     active_lr self; lr := lr self; warmup_steps := v; global_step :=
     global_step self; train_metrics := train_metrics self; test_metrics :=
     test_metrics self; train_iter := train_iter self; test_iter := test_iter
     self; test_writer := test_writer self; swa_writer := swa_writer self;
     summaries := summaries self; saved := saved self; stdout := stdout self;
     net := net self |}.

Definition set_global_step (v : Z) (self : TFProcess) : TFProcess :=
  {| cfg := cfg self; swa_enabled := swa_enabled self; swa_max_n :=
     swa_max_n self; virtual_batch_size := virtual_batch_size self; strategy
     := strategy self; POLICY_HEAD := POLICY_HEAD self; VALUE_HEAD :=
     VALUE_HEAD self; weights := weights self; swa_weights := swa_weights
     self; swa_count := swa_count self; slots := slots self; active_lr :=
     active_lr self; lr := lr self; warmup_steps := warmup_steps self;
     global_step := v; train_metrics := train_metrics self; test_metrics :=
     test_metrics self; train_iter := train_iter self; test_iter := test_iter
     self; test_writer := test_writer self; swa_writer := swa_writer self;
     summaries := summaries self; saved := saved self; stdout := stdout self;
     net := net self |}.

Definition set_train_metrics (v : list Metric.t) (self : TFProcess) : TFProcess :=
  {| cfg := cfg self; swa_enabled := swa_enabled self; swa_max_n :=
     swa_max_n self; virtual_batch_size := virtual_batch_size self; strategy
     := strategy self; POLICY_HEAD := POLICY_HEAD self; VALUE_HEAD :=
     VALUE_HEAD self; weights := weights self; swa_weights := swa_weights
     self; swa_count := swa_count self; slots := slots self; active_lr :=
     active_lr self; lr := lr self; warmup_steps := warmup_steps self;
     global_step := global_step self; train_metrics := v; test_metrics :=
     test_metrics self; train_iter := train_iter self; test_iter := test_iter
     self; test_writer := test_writer self; swa_writer := swa_writer self;
     summaries := summaries self; saved := saved self; stdout := stdout self;
     net := net self |}.

Definition set_test_metrics (v : list Metric.t) (self : TFProcess) : TFProcess :=
  {| cfg := cfg self; swa_enabled := swa_enabled self; swa_max_n :=
     swa_max_n self; virtual_batch_size := virtual_batch_size self; strategy
     := strategy self; POLICY_HEAD := POLICY_HEAD self; VALUE_HEAD :=
     VALUE_HEAD self; weights := weights self; swa_weights := swa_weights
     self; swa_count := swa_count self; slots := slots self; active_lr :=
     active_lr self; lr := lr self; warmup_steps := warmup_steps self;
     global_step := global_step self; train_metrics := train_metrics self;
     test_metrics := v; train_iter := train_iter self; test_iter := test_iter
     self; test_writer := test_writer self; swa_writer := swa_writer self;
     summaries := summaries self; saved := saved self; stdout := stdout self;
     net := net self |}.

Definition set_train_iter (v : list (list batch)) (self : TFProcess) : TFProcess :=
  {| cfg := cfg self; swa_enabled := swa_enabled self; swa_max_n :=
     swa_max_n self; virtual_batch_size := virtual_batch_size self; strategy
     := strategy self; POLICY_HEAD := POLICY_HEAD self; VALUE_HEAD :=
     VALUE_HEAD self; weights := weights self; swa_weights := swa_weights
     self; swa_count := swa_count self; slots := slots self; active_lr :=
     active_lr self; lr := lr self; warmup_steps := warmup_steps self;
     global_step := global_step self; train_metrics := train_metrics self;
     test_metrics := test_metrics self; train_iter := v; test_iter :=
     test_iter self; test_writer := test_writer self; swa_writer :=
     swa_writer self; summaries := summaries self; saved := saved self;
     stdout := stdout self; net := net self |}.

Definition set_test_iter (v : list (list batch)) (self : TFProcess) : TFProcess :=
  {| cfg := cfg self; swa_enabled := swa_enabled self; swa_max_n :=
     swa_max_n self; virtual_batch_size := virtual_batch_size self; strategy
     := strategy self; POLICY_HEAD := POLICY_HEAD self; VALUE_HEAD :=
     VALUE_HEAD self; weights := weights self; swa_weights := swa_weights
     self; swa_count := swa_count self; slots := slots self; active_lr :=
     active_lr self; lr := lr self; warmup_steps := warmup_steps self;
     global_step := global_step self; train_metrics := train_metrics self;
     test_metrics := test_metrics self; train_iter := train_iter self;
     test_iter := v; test_writer := test_writer self; swa_writer :=
     swa_writer self; summaries := summaries self; saved := saved self;
     stdout := stdout self; net := net self |}.

Definition set_test_writer (v : writer) (self : TFProcess) : TFProcess :=
  {| cfg := cfg self; swa_enabled := swa_enabled self; swa_max_n :=
     swa_max_n self; virtual_batch_size := virtual_batch_size self; strategy
     := strategy self; POLICY_HEAD := POLICY_HEAD self; VALUE_HEAD :=
     VALUE_HEAD self; weights := weights self; swa_weights := swa_weights
     self; swa_count := swa_count self; slots := slots self; active_lr :=
     active_lr self; lr := lr self; warmup_steps := warmup_steps self;
     global_step := global_step self; train_metrics := train_metrics self;
     test_metrics := test_metrics self; train_iter := train_iter self;
     test_iter := test_iter self; test_writer := v; swa_writer := swa_writer
     self; summaries := summaries self; saved := saved self; stdout := stdout
     self; net := net self |}.

Definition set_summaries (v : list summary) (self : TFProcess) : TFProcess :=
  {| cfg := cfg self; swa_enabled := swa_enabled self; swa_max_n :=
     swa_max_n self; virtual_batch_size := virtual_batch_size self; strategy
     := strategy self; POLICY_HEAD := POLICY_HEAD self; VALUE_HEAD :=
     VALUE_HEAD self; weights := weights self; swa_weights := swa_weights
     self; swa_count := swa_count self; slots := slots self; active_lr :=
     active_lr self; lr := lr self; warmup_steps := warmup_steps self;
     global_step := global_step self; train_metrics := train_metrics self;
     test_metrics := test_metrics self; train_iter := train_iter self;
     test_iter := test_iter self; test_writer := test_writer self; swa_writer
     := swa_writer self; summaries := v; saved := saved self; stdout :=
     stdout self; net := net self |}.

Definition set_saved (v : list (string * list (string * tensor Qc))) (self : TFProcess) : TFProcess :=
  {| cfg := cfg self; swa_enabled := swa_enabled self; swa_max_n :=
     swa_max_n self; virtual_batch_size := virtual_batch_size self; strategy
     := strategy self; POLICY_HEAD := POLICY_HEAD self; VALUE_HEAD :=
     VALUE_HEAD self; weights := weights self; swa_weights := swa_weights
     self; swa_count := swa_count self; slots := slots self; active_lr :=
     active_lr self; lr := lr self; warmup_steps := warmup_steps self;
     global_step := global_step self; train_metrics := train_metrics self;
     test_metrics := test_metrics self; train_iter := train_iter self;
     test_iter := test_iter self; test_writer := test_writer self; swa_writer
     := swa_writer self; summaries := summaries self; saved := v; stdout :=
     stdout self; net := net self |}.

Definition set_stdout (v : list string) (self : TFProcess) : TFProcess :=
  {| cfg := cfg self; swa_enabled := swa_enabled self; swa_max_n :=
     swa_max_n self; virtual_batch_size := virtual_batch_size self; strategy
     := strategy self; POLICY_HEAD := POLICY_HEAD self; VALUE_HEAD :=
     VALUE_HEAD self; weights := weights self; swa_weights := swa_weights
     self; swa_count := swa_count self; slots := slots self; active_lr :=
     active_lr self; lr := lr self; warmup_steps := warmup_steps self;
     global_step := global_step self; train_metrics := train_metrics self;
     test_metrics := test_metrics self; train_iter := train_iter self;
     test_iter := test_iter self; test_writer := test_writer self; swa_writer
     := swa_writer self; summaries := summaries self; saved := saved self;
     stdout := v; net := net self |}.

Definition set_net (v : Net) (self : TFProcess) : TFProcess :=
  {| cfg := cfg self; swa_enabled := swa_enabled self; swa_max_n :=
     swa_max_n self; virtual_batch_size := virtual_batch_size self; strategy
     := strategy self; POLICY_HEAD := POLICY_HEAD self; VALUE_HEAD :=
     VALUE_HEAD self; weights := weights self; swa_weights := swa_weights
     self; swa_count := swa_count self; slots := slots self; active_lr :=
     active_lr self; lr := lr self; warmup_steps := warmup_steps self;
     global_step := global_step self; train_metrics := train_metrics self;
     test_metrics := test_metrics self; train_iter := train_iter self;
     test_iter := test_iter self; test_writer := test_writer self; swa_writer
     := swa_writer self; summaries := summaries self; saved := saved self;
     stdout := stdout self; net := v |}.

(** ** Stateful methods: state and exceptions

    A method takes [self] and returns the state it leaves behind together
    with its value or the exception it raised. *)

Definition M (A : Type) : Type := TFProcess → TFProcess * result A.

Definition ret {A} (a : A) : M A := λ s, (s, Ok a).
Definition throw {A} (e : exn) : M A := λ s, (s, Raise e).
Definition mbind {A B} (m : M A) (k : A → M B) : M B :=
  λ s, match m s with
       | (s', Ok a) => k a s'
       | (s', Raise e) => (s', Raise e)
       end.
Definition gets {A} (f : TFProcess → A) : M A := λ s, (s, Ok (f s)).
Definition modify (f : TFProcess → TFProcess) : M unit := λ s, (f s, Ok tt).
Definition lift {A} (r : result A) : M A := λ s, (s, r).

Notation "'do!' x ':=' m 'in' k" := (mbind m (λ x, k))
  (at level 10, x pattern, m at level 100, k at level 200).
Notation "m ';;;' k" := (mbind m (λ _, k))
  (at level 100, k at level 200, right associativity).

(** [for _ in range(n): body] *)
Fixpoint for_range (n : nat) (body : M unit) : M unit :=
  match n with
  | O => ret tt
  | S n' => body ;;; for_range n' body
  end.

(** [for (a, w) in zip(src, dst): w.assign(f a w)]: the entries of [dst]
    beyond the length of [src] are not visited. *)
Fixpoint assign_zip {A B} (f : A → B → B) (src : list A) (dst : list B)
    : list B :=
  match src, dst with
  | a :: src', b :: dst' => f a b :: assign_zip f src' dst'
  | _, _ => dst
  end.

(** [for acc, val in zip(metrics, vals): acc.accumulate(val)] *)
Definition accumulate_all (ms : list Metric.t) (vals : list Qc)
    : list Metric.t :=
  assign_zip (λ v acc, Metric.accumulate acc v) vals ms.

Definition sum_Qc (xs : list Qc) : Qc := foldr Qcplus 0%Qc xs.

(** [tf.reduce_mean], and [strategy.reduce(ReduceOp.MEAN, _)] over the
    values of the replicas. *)
Definition reduce_mean (xs : list Qc) : Qc :=
  (sum_Qc xs / Qc_of_Z (Z.of_nat (length xs)))%Qc.

(** [[strategy.reduce(MEAN, m) for m in metrics]], where each metric has
    one value per replica. *)
Definition reduce_metrics (per_replica : list (list Qc)) : list Qc :=
  match per_replica with
  | [] => []
  | first :: _ =>
      imap (λ i _, reduce_mean (map (λ ms, nth i ms 0%Qc) per_replica)) first
  end.

(** ** The tensor substrate

    What the modelled code obtains from TensorFlow and from the network
    itself: the forward and backward pass of the model on a batch (the
    metrics and the gradients of [process_inner_loop], the metrics of
    [calculate_test_summaries_inner_loop]), the global norm used by
    [tf.clip_by_global_norm], the update rule of [self.optimizer] (learning
    rate, gradients, slot variables and values of the trainable weights),
    whether [save_proto] manages to write a file,
    [tf.nn.softmax_cross_entropy_with_logits] on one row (labels, logits),
    and the value of one constant of the protobuf schema. *)
Class Substrate : Type := {
  process_inner_loop : list Weight → batch → list Qc * list (tensor Qc);
  calculate_test_summaries_inner_loop : list Weight → batch → list Qc;
  global_norm : list (tensor Qc) → Qc;
  apply_gradients :
    Qc → list (tensor Qc) → list (tensor Qc) * list (tensor Qc) →
    list (tensor Qc) * list (tensor Qc);
  save_proto : string → bool;
  softmax_cross_entropy_with_logits : tensor Qc → tensor Qc → Qc;
  INPUT_112_WITH_CANONICALIZATION_HECTOPLIES : Z
}.

(** ** Learning-rate schedule *)

(** [list.sort()] on a list of integers. *)
Fixpoint insert_sorted (x : Z) (l : list Z) : list Z :=
  match l with
  | [] => [x]
  | y :: l' => if x <=? y then x :: l else y :: insert_sorted x l'
  end.

Definition list_sort (l : list Z) : list Z := foldr insert_sorted [] l.

(** [bisect.bisect_right(a, x)]: the loop
    [while lo < hi: mid = (lo + hi) // 2; if x < a[mid]: hi = mid else: lo = mid + 1].
    The interval shrinks at every turn, so [length a] turns are enough. *)
Fixpoint bisect_right_loop (fuel : nat) (a : list Z) (x : Z) (lo hi : nat)
    : nat :=
  match fuel with
  | O => lo
  | S fuel' =>
      if (lo <? hi)%nat then
        let mid := ((lo + hi) / 2)%nat in
        match a !! mid with
        | Some am =>
            if x <? am then bisect_right_loop fuel' a x lo mid
            else bisect_right_loop fuel' a x (mid + 1)%nat hi
        | None => lo
        end
      else lo
  end.

Definition bisect_right (a : list Z) (x : Z) : nat :=
  bisect_right_loop (length a) a x 0%nat (length a).

(** [a % b] on step counters; a zero divisor is an error. *)
Definition py_mod (a b : Z) : result Z :=
  if b =? 0 then Raise ZeroDivisionError else Ok (a mod b).

(** The fourteen training and thirteen test metrics [init_net] builds
    (the thresholded accuracies it appends to both lists are left out). *)
Definition train_metrics_init : list Metric.t :=
  [Metric.init "P" "Policy Loss" ""; Metric.init "V" "Value Loss" "";
   Metric.init "ML" "Moves Left Loss" ""; Metric.init "Reg" "Reg term" "";
   Metric.init "Total" "Total Loss" ""; Metric.init "V MSE" "MSE Loss" "";
   Metric.init "P Acc" "Policy Accuracy" "%";
   Metric.init "V Acc" "Value Accuracy" "%";
   Metric.init "P Entropy" "Policy Entropy" "";
   Metric.init "P UL" "Policy UL" ""; Metric.init "P SL" "Policy SL" "";
   Metric.init "P RL" "Policy RL" ""; Metric.init "V CL" "Value CL" "";
   Metric.init "V C Acc" "Value C Acc" "%"].

Definition test_metrics_init : list Metric.t :=
  [Metric.init "P" "Policy Loss" ""; Metric.init "V" "Value Loss" "";
   Metric.init "ML" "Moves Left Loss" ""; Metric.init "V MSE" "MSE Loss" "";
   Metric.init "P Acc" "Policy Accuracy" "%";
   Metric.init "V Acc" "Value Accuracy" "%";
   Metric.init "ML Mean" "Moves Left Mean Error" "";
   Metric.init "P Entropy" "Policy Entropy" "";
   Metric.init "P UL" "Policy UL" ""; Metric.init "P SL" "Policy SL" "";
   Metric.init "P RL" "Policy RL" ""; Metric.init "V CL" "Value CL" "";
   Metric.init "V C Acc" "Value C Acc" "%"].

(** [init_net], the part that sets up the training state: the SWA
    variables, [active_lr], the metric lists and the schedule (the
    boundaries of the configuration are sorted in place). *)
Definition init_net : M unit :=
  modify (set_swa_count 0%Qc) ;;;
  modify (λ s, set_swa_weights
                 (if swa_enabled s then Some (map w_value (weights s))
                  else None) s) ;;;
  modify (set_active_lr (Q2Qc (1 # 100))) ;;;
  modify (set_train_metrics train_metrics_init) ;;;
  modify (set_test_metrics test_metrics_init) ;;;
  modify (λ s, set_cfg
                 (set_lr_boundaries (list_sort (lr_boundaries (cfg s)))
                    (cfg s)) s) ;;;
  modify (λ s, set_warmup_steps (default 0 (cfg_warmup_steps (cfg s))) s) ;;;
  do! v0 := (λ s, (s, match lr_values (cfg s) !! 0%nat with
                      | Some v => Ok v
                      | None => Raise IndexError
                      end)) in
  modify (set_lr v0).

(** [process], "Determine learning rate": the schedule value for the
    step count [steps] read at the start of [process]. *)
Definition determine_lr (steps : Z) : M unit :=
  do! c := gets cfg in
  do! steps_total := lift (py_mod steps (total_steps c)) in
  do! v := lift (match lr_values c !! bisect_right (lr_boundaries c) steps_total with
                 | Some v => Ok v
                 | None => Raise IndexError
                 end) in
  modify (set_lr v) ;;;
  do! w := gets warmup_steps in
  if (0 <? w) && (steps <? w)
  then modify (λ s, set_lr (lr s * Qc_of_Z (steps + 1) / Qc_of_Z w)%Qc s)
  else ret tt.

(** ** Stochastic weight averaging *)

(** The assignments of [update_swa] on the values: [num] is the count
    read at the start, the result is the new shadow weights and the new
    count [min(num + 1., swa_max_n)]. *)
Definition update_swa_values {F} `{Arith F} (max_n num : F)
    (ws swa : list (tensor F)) : list (tensor F) * F :=
  let keep := f_div num (f_add num f_one) in
  let take := f_div f_one (f_add num f_one) in
  let swa' :=
    assign_zip
      (λ w s, zip_with f_add (map (λ x, f_mul x keep) s)
                             (map (λ x, f_mul x take) w))
      ws swa in
  let n1 := f_add num f_one in
  (swa', if f_ltb max_n n1 then max_n else n1).

(** [zip] over [self.swa_weights] when SWA is off iterates over [None]. *)
Definition the_swa_weights : M (list (tensor Qc)) :=
  λ s, (s, match swa_weights s with
           | Some swa => Ok swa
           | None => Raise TypeError
           end).

Definition update_swa : M unit :=
  do! num := gets swa_count in
  do! swa := the_swa_weights in
  do! max_n := gets swa_max_n in
  do! ws := gets (λ s, map w_value (weights s)) in
  let '(swa', n') := update_swa_values max_n num ws swa in
  modify (set_swa_weights (Some swa')) ;;;
  modify (set_swa_count n').

(** The number of entries of [a] that are at most [x]. *)
Fixpoint count_le (x : Z) (a : list Z) : nat :=
  match a with
  | [] => 0%nat
  | y :: a' => ((if (y <=? x)%Z then 1 else 0) + count_le x a')%nat
  end.

(** Ascending order, by positions. *)
Definition ascending (a : list Z) : Prop :=
  ∀ i j ai aj, (i ≤ j)%nat → a !! i = Some ai → a !! j = Some aj → ai ≤ aj.

(** [k] calls of [update_swa] while the live weights stay [ws]. *)
Fixpoint update_swa_times {F} `{Arith F} (k : nat) (max_n num : F)
    (ws swa : list (tensor F)) : list (tensor F) * F :=
  match k with
  | O => (swa, num)
  | S k' =>
      let '(swa', num') := update_swa_values max_n num ws swa in
      update_swa_times k' max_n num' ws swa'
  end.

(** ** Policy loss *)

Definition Qc_leb (a b : Qc) : bool := negb (Qc_ltb b a).

(** [tf.nn.relu] *)
Definition relu (x : Qc) : Qc := if Qc_ltb x 0%Qc then 0%Qc else x.

(** [tf.zeros_like(output) - 1.0e10] *)
Definition illegal_filler : Qc := Qc_of_Z (-10000000000).

(** [tf.where(tf.greater_equal(target, 0), output, illegal_filler)] on one
    row. *)
Definition mask_row (target output : tensor Qc) : tensor Qc :=
  zip_with (λ t o, if Qc_leb 0%Qc t then o else illegal_filler) target output.

(** [correct_policy], on a batch of rows. *)
Definition correct_policy (c : Cfg) (target output : list (tensor Qc))
    : list (tensor Qc) * list (tensor Qc) :=
  let output :=
    if default false (mask_legal_moves c)
    then zip_with mask_row target output
    else output in
  let target := map (map relu) target in
  (target, output).

Definition policy_loss `{Substrate} (c : Cfg)
    (target output : list (tensor Qc)) : Qc :=
  let '(target, output) := correct_policy c target output in
  let policy_cross_entropy :=
    zip_with softmax_cross_entropy_with_logits target output in
  reduce_mean policy_cross_entropy.

(** Two rows of logits of the same length that carry the same value
    wherever the target marks the move legal. *)
Definition agree_on_legal (target o1 o2 : tensor Qc) : Prop :=
  length o1 = length o2 ∧
  ∀ i t, target !! i = Some t → (0 ≤ t)%Qc → o1 !! i = o2 !! i.

(** ** Gradient pipeline *)

Definition Qc_min (a b : Qc) : Qc := if Qc_ltb b a then b else a.

(** Every entry of every gradient tensor times [k]. *)
Definition scale_grads (k : Qc) (g : list (tensor Qc)) : list (tensor Qc) :=
  map (map (λ x, x * k)%Qc) g.

(** [merge_grads]: [[tf.math.add(a, b) for (a, b) in zip(grads, new_grads)]] *)
Definition merge_grads (grads new_grads : list (tensor Qc))
    : list (tensor Qc) :=
  zip_with (zip_with Qcplus) grads new_grads.

(** [strategy.run(self.merge_grads, ...)]: on every replica. Gradients are
    kept as one list of tensors per replica; without a strategy there is
    one replica. *)
Definition strategy_merge_grads (grads new_grads : list (list (tensor Qc)))
    : list (list (tensor Qc)) :=
  zip_with merge_grads grads new_grads.

(** [self.orig_optimizer.gradient_aggregator]: the optimizer's default
    aggregator sums the gradients of the replicas (all-reduce sum). *)
Definition gradient_aggregator (grads : list (list (tensor Qc)))
    : list (tensor Qc) :=
  match grads with
  | [] => []
  | g :: rest => foldl merge_grads g rest
  end.

(** [tf.clip_by_global_norm(grads, clip_norm)]: every tensor times
    [clip_norm * min(1 / norm, 1 / clip_norm)]; also returns the norm. *)
Definition clip_by_global_norm `{Substrate} (grads : list (tensor Qc))
    (clip_norm : Qc) : list (tensor Qc) * Qc :=
  let norm := global_norm grads in
  let scale := (clip_norm * Qc_min (1 / norm) (1 / clip_norm))%Qc in
  (scale_grads scale grads, norm).

Definition trainable_values (ws : list Weight) : list (tensor Qc) :=
  map w_value (filter (λ w, w_trainable w = true) ws).

(** Write the new values of the trainable weights back, in order. *)
Fixpoint assign_trainable (vals : list (tensor Qc)) (ws : list Weight)
    : list Weight :=
  match ws with
  | [] => []
  | w :: ws' =>
      if w_trainable w then
        match vals with
        | v :: vals' => assign v w :: assign_trainable vals' ws'
        | [] => w :: ws'
        end
      else w :: assign_trainable vals ws'
  end.

(** The optimizer [init_net] builds when no other is configured:
    [tf.keras.optimizers.SGD(learning_rate, momentum=0.9, nesterov=True)].
    For a weight [w] with momentum slot [v] and gradient [g]:
    [v <- 0.9 * v - lr * g] and then [w <- w + 0.9 * v - lr * g]. *)
Definition momentum : Qc := Q2Qc (9 # 10).

Definition sgd_nesterov (lr : Qc) (grads : list (tensor Qc))
    (st : list (tensor Qc) * list (tensor Qc))
    : list (tensor Qc) * list (tensor Qc) :=
  let '(slots, values) := st in
  let slots' :=
    assign_zip (λ g v, zip_with (λ vi gi, momentum * vi - lr * gi)%Qc v g)
      grads slots in
  let steps :=
    zip_with (zip_with (λ vi gi, momentum * vi - lr * gi)%Qc) slots' grads in
  (slots', assign_zip (zip_with (λ d wi, wi + d)%Qc) steps values).

(** [steps % train_avg_report_steps == 0 or steps % total_steps == 0] *)
Definition report_due (steps : Z) (c : Cfg) : result bool :=
  let! r1 := py_mod steps (train_avg_report_steps c) in
  if r1 =? 0 then Ok true
  else let! r2 := py_mod steps (total_steps c) in Ok (r2 =? 0).

Section GradientPipeline.

Context `{Substrate}.

(** [next(self.train_iter)] *)
Definition next_train : M (list batch) :=
  λ s, match train_iter s with
       | [] => (s, Raise StopIteration)
       | feed :: rest => (set_train_iter rest s, Ok feed)
       end.

(** [strategy_process_inner_loop]: the inner loop on the shard of each
    replica, the metrics reduced by mean. *)
Definition strategy_process_inner_loop (ws : list Weight)
    (feed : list batch) : list Qc * list (list (tensor Qc)) :=
  let outs := map (process_inner_loop ws) feed in
  (reduce_metrics (map fst outs), map snd outs).

(** The call of the inner loop in [train_step]; without a strategy the
    iterator yields one tuple. *)
Definition run_inner_loop (feed : list batch)
    : M (list Qc * list (list (tensor Qc))) :=
  λ s, match strategy s with
       | Some _ => (s, Ok (strategy_process_inner_loop (weights s) feed))
       | None =>
           match feed with
           | [b] =>
               let '(metrics, g) := process_inner_loop (weights s) b in
               (s, Ok (metrics, [g]))
           | _ => (s, Raise TypeError)
           end
       end.

(** [not grads]: [None], or no gradient at all. *)
Definition not_grads (grads : option (list (list (tensor Qc)))) : bool :=
  match grads with
  | None => true
  | Some [] => true
  | Some (g :: _) => match g with [] => true | _ => false end
  end.

(** The body of [for batch_id in range(batch_splits)]. *)
Definition train_split (grads : option (list (list (tensor Qc))))
    : M (option (list (list (tensor Qc)))) :=
  do! feed := next_train in
  do! out := run_inner_loop feed in
  let '(metrics, new_grads) := out in
  let grads' :=
    if not_grads grads then new_grads
    else strategy_merge_grads (default [] grads) new_grads in
  modify (λ s, set_train_metrics
                 (accumulate_all (train_metrics s) metrics) s) ;;;
  ret (Some grads').

Fixpoint train_splits (n : nat)
    (grads : option (list (list (tensor Qc))))
    : M (option (list (list (tensor Qc)))) :=
  match n with
  | O => ret grads
  | S n' => do! grads' := train_split grads in train_splits n' grads'
  end.

(** [apply_grads]; [loss_scale] is 1 (single precision), so there is
    no unscaling. *)
Definition apply_grads (grads : option (list (list (tensor Qc))))
    (effective_batch_splits : Z) : M Qc :=
  match grads with
  | None => throw TypeError
  | Some per_replica =>
      let grads := gradient_aggregator per_replica in
      do! c := gets cfg in
      let max_grad_norm :=
        (default (Qc_of_Z 10000) (max_grad_norm c)
         * Qc_of_Z effective_batch_splits)%Qc in
      let '(grads, grad_norm) := clip_by_global_norm grads max_grad_norm in
      modify (λ s,
        let '(slots', values') :=
          apply_gradients (active_lr s) grads
            (slots s, trainable_values (weights s)) in
        set_slots slots' (set_weights (assign_trainable values' (weights s)) s)) ;;;
      ret grad_norm
  end.

(** [train_step]. The progress bar, the console output and
    [compute_update_ratio] are left out; sparse training is off. *)
Definition train_step (steps batch_size batch_splits : Z) : M Z :=
  do! c := gets cfg in
  do! _ := lift (report_due (steps + 1) c) in
  do! grads := train_splits (Z.to_nat batch_splits) None in
  do! strat := gets strategy in
  let effective_batch_splits :=
    match strat with
    | Some num_replicas_in_sync => batch_splits * num_replicas_in_sync
    | None => batch_splits
    end in
  (if effective_batch_splits =? 0 then throw ZeroDivisionError
   else modify (λ s, set_active_lr
                       (lr s / Qc_of_Z effective_batch_splits)%Qc s)) ;;;
  do! grad_norm := apply_grads grads effective_batch_splits in
  modify (λ s, set_global_step (global_step s + 1) s) ;;;
  do! steps := gets global_step in
  do! due := lift (report_due steps c) in
  (if due : bool then
     modify (λ s, set_summaries
                    (summaries s ++
                     [(TrainWriter, steps,
                       map Metric.get (train_metrics s) ++
                       [lr s; (grad_norm / Qc_of_Z effective_batch_splits)%Qc])])
                    s) ;;;
     modify (λ s, set_train_metrics (map Metric.reset (train_metrics s)) s)
   else ret tt) ;;;
  ret steps.

End GradientPipeline.

(** ** Evaluation passes *)

Definition read_weights (s : TFProcess) : list (tensor Qc) :=
  map w_value (weights s).

(** [for (v, w) in zip(values, self.model.weights): w.assign(v)] *)
Definition assign_weights (values : list (tensor Qc)) : M unit :=
  modify (λ s, set_weights (assign_zip assign values (weights s)) s).

Definition print (line : string) : M unit :=
  modify (λ s, set_stdout (stdout s ++ [line]) s).

Section Evaluation.

Context `{Substrate}.

(** [next(self.test_iter)] *)
Definition next_test : M (list batch) :=
  λ s, match test_iter s with
       | [] => (s, Raise StopIteration)
       | feed :: rest => (set_test_iter rest s, Ok feed)
       end.

Definition strategy_calculate_test_summaries_inner_loop (ws : list Weight)
    (feed : list batch) : list Qc :=
  reduce_metrics (map (calculate_test_summaries_inner_loop ws) feed).

Definition run_test_inner_loop (feed : list batch) : M (list Qc) :=
  λ s, match strategy s with
       | Some _ =>
           (s, Ok (strategy_calculate_test_summaries_inner_loop (weights s) feed))
       | None =>
           match feed with
           | [b] => (s, Ok (calculate_test_summaries_inner_loop (weights s) b))
           | _ => (s, Raise TypeError)
           end
       end.

(** The body of [for _ in range(0, test_batches)]. *)
Definition test_batch : M unit :=
  do! feed := next_test in
  do! metrics := run_test_inner_loop feed in
  modify (λ s, set_test_metrics (accumulate_all (test_metrics s) metrics) s).

(** [self.test_metrics[i].get()] *)
Definition test_metric (i : nat) : M Qc :=
  λ s, (s, match test_metrics s !! i with
           | Some m => Ok (Metric.get m)
           | None => Raise IndexError
           end).

(** An assignment to a field of [self.net.pb.training_params]. *)
Definition set_pb (f : TrainingParams → TrainingParams) : M unit :=
  modify (λ s, set_net (set_training_params
                          (f (training_params (net s))) (net s)) s).

(** [calculate_test_summaries]; the histograms of the weights and the
    console line with the metrics are left out. *)
Definition calculate_test_summaries (test_batches steps : Z) : M unit :=
  modify (λ s, set_test_metrics (map Metric.reset (test_metrics s)) s) ;;;
  for_range (Z.to_nat test_batches) test_batch ;;;
  do! rate := gets lr in
  set_pb (set_learning_rate rate) ;;;
  do! mse := test_metric 3 in
  set_pb (set_mse_loss mse) ;;;
  do! pol := test_metric 0 in
  set_pb (set_policy_loss_pb pol) ;;;
  do! acc := test_metric 4 in
  set_pb (set_accuracy acc) ;;;
  modify (λ s, set_summaries
                 (summaries s ++
                  [(test_writer s, steps, map Metric.get (test_metrics s))])
                 s).

Definition calculate_swa_summaries (test_batches steps : Z) : M unit :=
  do! backup := gets read_weights in
  do! swa := the_swa_weights in
  assign_weights swa ;;;
  do! true_test_writer := gets test_writer in
  modify (λ s, set_test_writer (swa_writer s) s) ;;;
  print "swa" ;;;
  calculate_test_summaries test_batches steps ;;;
  modify (set_test_writer true_test_writer) ;;;
  assign_weights backup.

(** [save_leelaz_weights]: the names and values handed to [fill_net_v2],
    written by [save_proto]. *)
Definition save_leelaz_weights (filename : string) : M unit :=
  do! numpy_weights := gets (λ s, map (λ w, (w_name w, w_value w)) (weights s)) in
  if save_proto filename
  then modify (λ s, set_saved (saved s ++ [(filename, numpy_weights)]) s)
  else throw OSError.

Definition save_swa_weights (filename : string) : M unit :=
  do! backup := gets read_weights in
  do! swa := the_swa_weights in
  assign_weights swa ;;;
  save_leelaz_weights filename ;;;
  assign_weights backup.

(** ** The training loop *)

(** [calculate_test_summaries], then [calculate_swa_summaries] if SWA is
    enabled. *)
Definition test_passes (test_batches steps : Z) : M unit :=
  calculate_test_summaries test_batches steps ;;;
  do! swa := gets swa_enabled in
  if swa : bool then calculate_swa_summaries test_batches steps else ret tt.

(** [steps % test_steps == 0 or steps % total_steps == 0] *)
Definition test_due (steps : Z) (c : Cfg) : result bool :=
  let! r1 := py_mod steps (test_steps c) in
  if r1 =? 0 then Ok true
  else let! r2 := py_mod steps (total_steps c) in Ok (r2 =? 0).

(** [steps % total_steps == 0 or ("checkpoint_steps" in cfg and
    steps % checkpoint_steps == 0)] *)
Definition checkpoint_due (steps : Z) (c : Cfg) : result bool :=
  let! r1 := py_mod steps (total_steps c) in
  if r1 =? 0 then Ok true
  else match checkpoint_steps c with
       | Some every => let! r2 := py_mod steps every in Ok (r2 =? 0)
       | None => Ok false
       end.

(** The export of a snapshot of the current weights under a name. *)
Definition export (name : string) : M unit :=
  modify (λ s, set_saved
                 (saved s ++ [(name, map (λ w, (w_name w, w_value w)) (weights s))])
                 s).

(** [process]. Profiling is off, there is no validation set. *)
Definition process (batch_size test_batches batch_splits : Z) : M unit :=
  do! steps := gets global_step in
  do! c := gets cfg in
  do! r := lift (py_mod steps (total_steps c)) in
  (if r =? 0 then test_passes test_batches (steps + 1) else ret tt) ;;;
  determine_lr steps ;;;
  do! steps := train_step steps batch_size batch_splits in
  do! swa := gets swa_enabled in
  (if swa : bool then
     do! r := lift (py_mod steps (swa_steps c)) in
     if r =? 0 then update_swa else ret tt
   else ret tt) ;;;
  do! due := lift (test_due steps c) in
  (if due : bool then test_passes test_batches steps else ret tt) ;;;
  do! due := lift (checkpoint_due steps c) in
  if due : bool then
    export ("-onnx-" +:+ pretty steps) ;;;
    do! backup := gets read_weights in
    do! swa := the_swa_weights in
    assign_weights swa ;;;
    export ("-swa-onnx-" +:+ pretty steps) ;;;
    assign_weights backup
  else ret tt.

(** The names the class ever assigns on [self] (its methods are
    attributes as well, under their own names). *)
Definition attribute_names : list string :=
  ["DEFAULT_ACTIVATION"; "INPUT_MODE"; "MOVES_LEFT_HEAD"; "POLICY_HEAD";
   "POS_ENC"; "VALUE_HEAD"; "accuracy_fn"; "accuracy_thresholds";
   "active_lr"; "arc_encoding"; "beta_1"; "beta_2"; "cfg"; "checkpoint";
   "dropout_rate"; "embedding_size"; "encoder_d_model"; "encoder_dff";
   "encoder_heads"; "encoder_layers"; "encoder_norm"; "epsilon";
   "ffn_activation"; "global_step"; "input_gate"; "l2reg"; "last_steps";
   "lossMix"; "loss_scale"; "lr"; "manager"; "model"; "model_dtype";
   "model_to_save"; "mov_embedding_size"; "moves_left";
   "moves_left_loss_fn"; "moves_left_mean_error"; "mse_loss_fn"; "net";
   "optimizer"; "orig_optimizer"; "pol_embedding_size";
   "policy_accuracy_fn"; "policy_d_model"; "policy_entropy_fn";
   "policy_loss_fn"; "policy_search_loss_fn";
   "policy_thresholded_accuracy_fn"; "policy_uniform_loss_fn";
   "profiling_start_step"; "progressbar"; "progresstask"; "qMix";
   "reducible_policy_loss_fn"; "renorm_enabled"; "renorm_max_d";
   "renorm_max_r"; "renorm_momentum"; "root_dir";
   "smol_weight_gen_dense"; "smolgen_activation"; "smolgen_gen_sz";
   "smolgen_hidden_channels"; "smolgen_hidden_sz"; "sparse";
   "sparsity_patterns"; "strategy"; "swa_count"; "swa_enabled";
   "swa_max_n"; "swa_validation_writer"; "swa_weights"; "swa_writer";
   "test_dataset"; "test_iter"; "test_metrics"; "test_writer";
   "time_start"; "train_dataset"; "train_iter"; "train_metrics";
   "train_writer"; "use_smolgen"; "val_embedding_size";
   "validation_dataset"; "validation_writer"; "value_buckets";
   "value_categorical_accuracy_fn"; "value_categorical_loss_fn";
   "value_loss_fn"; "virtual_batch_size"; "warmup_steps"; "wdl";
   "weight_decay"].

(** [self.<name>] read as an integer operand: an unknown name raises
    [AttributeError]; of the known ones the integer attributes of the
    state answer, [None] or an object is not an operand of [*]. *)
Definition getattr_int (name : string) : M Z :=
  λ s, (s,
    if bool_decide (name ∈ attribute_names) then
      if String.eqb name "virtual_batch_size" then
        match virtual_batch_size s with
        | Some v => Ok v
        | None => Raise TypeError
        end
      else if String.eqb name "global_step" then Ok (global_step s)
      else if String.eqb name "warmup_steps" then Ok (warmup_steps s)
      else if String.eqb name "POLICY_HEAD" then Ok (POLICY_HEAD s)
      else if String.eqb name "VALUE_HEAD" then Ok (VALUE_HEAD s)
      else Raise TypeError
    else Raise (AttributeError name)).

(** The check of [process_loop] that ghost batch norm can be applied. *)
Definition check_virtual_batch_size (batch_size : Z) : M unit :=
  do! vbs := gets virtual_batch_size in
  match vbs with
  | None => ret tt
  | Some v =>
      if v =? 0 then ret tt
      else if negb (batch_size mod v =? 0) then
        do! sizes := getattr_int "virtual_batch_sizes" in
        do! c := gets cfg in
        let required_factor := sizes * default 1 (num_batch_splits c) in
        throw (ValueError ("batch_size must be a multiple of "
                           +:+ pretty required_factor))
      else ret tt
  end.

(** The number of test batches [process_loop] hands to [process]. *)
Definition split_test_batches (s : TFProcess) (test_batches : Z) : Z :=
  if swa_enabled s then test_batches / 2 else test_batches.

(** [process_loop]; the poll of the stop file and the progress bar are
    left out. *)
Definition process_loop (batch_size test_batches batch_splits : Z)
    : M unit :=
  do! test_batches := gets (λ s, split_test_batches s test_batches) in
  check_virtual_batch_size batch_size ;;;
  do! steps := gets global_step in
  do! c := gets cfg in
  do! start := lift (py_mod steps (total_steps c)) in
  for_range (Z.to_nat (total_steps c - start))
    (process batch_size test_batches batch_splits).

End Evaluation.

(** ** Loading weights *)

(** [sub in s] on strings. *)
Definition contains (sub s : string) : bool :=
  match String.index 0 sub s with Some _ => true | None => false end.

(** [reduce(operator.mul, shape, 1)] *)
Definition shape_size (shape : list Z) : Z := foldl Z.mul 1 shape.

(** [str] of a list of integers. *)
Definition str_shape (shape : list Z) : string :=
  "[" +:+ String.concat ", " (map pretty shape) +:+ "]".

(** The rule-50 plane of an old-format input convolution is multiplied
    by 99: entries [i] with [(i % (112 * 9)) // 9 == 109]. *)
Definition rescale_rule50 (new_weight : list Qc) : list Qc :=
  imap (λ i x, if ((i mod (112 * 9)) / 9 =? 109)%nat
               then (x * Qc_of_Z 99)%Qc else x) new_weight.

(** [tf.transpose(tf.constant(new_weight, shape=[s3, s2, s0, s1]),
    perm=[2, 3, 1, 0])], flat: entry [(a, b, c, d)] of the result is
    entry [(d, c, a, b)] of the constant. *)
Definition transpose_conv (shape : list Z) (new_weight : list Qc)
    : list Qc :=
  match map Z.to_nat shape with
  | [s0; s1; s2; s3] =>
      map (λ o, let d := o mod s3 in
                let c := (o / s3) mod s2 in
                let b := (o / (s3 * s2)) mod s1 in
                let a := o / (s3 * s2 * s1) in
                nth (((d * s2 + c) * s0 + a) * s1 + b) new_weight 0%Qc)%nat
          (seq 0 (length new_weight))
  | _ => new_weight
  end.

(** [tf.transpose(tf.constant(new_weight, shape=[s1, s0]), perm=[1, 0])] *)
Definition transpose_dense (shape : list Z) (new_weight : list Qc)
    : list Qc :=
  match map Z.to_nat shape with
  | [s0; s1] =>
      map (λ o, let b := o mod s1 in
                let a := o / s1 in
                nth (b * s0 + a) new_weight 0%Qc)%nat
          (seq 0 (length new_weight))
  | _ => new_weight
  end.

(** The value assigned to a weight from its entry in the protobuf;
    [hectoplies] is [pb.NetworkFormat.INPUT_112_WITH_CANONICALIZATION_HECTOPLIES],
    [input_format] the input format of the file. *)
Definition loaded_value (hectoplies input_format : Z) (w : Weight)
    (new_weight : list Qc) : tensor Qc :=
  if (length (w_shape w) =? 4)%nat then
    let new_weight :=
      if String.eqb (w_name w) "input/conv2d/kernel:0"
         && (input_format <? hectoplies)
      then rescale_rule50 new_weight else new_weight in
    transpose_conv (w_shape w) new_weight
  else if (length (w_shape w) =? 2)%nat then
    transpose_dense (w_shape w) new_weight
  else new_weight.

Definition no_values_error (w : Weight) : string :=
  "No values for tensor " +:+ w_name w +:+ " in protobuf".

Definition wrong_length_error (w : Weight) (new_weight : list Qc) : string :=
  "Tensor " +:+ w_name w +:+ " has wrong length. Tensorflow shape "
  +:+ str_shape (w_shape w) +:+ ", size in protobuf "
  +:+ pretty (length new_weight).

(** One turn of [for weight in self.model.weights]: the weight after the
    turn and the line printed, or the exception. *)
Definition load_weight (ignore_errors : bool) (hectoplies input_format : Z)
    (new_weights : gmap string (list Qc)) (w : Weight)
    : result (Weight * list string) :=
  if contains "renorm" (w_name w) then Ok (w, [])
  else
    match new_weights !! w_name w with
    | None =>
        if ignore_errors then Ok (w, [no_values_error w])
        else Raise (KeyError (no_values_error w))
    | Some new_weight =>
        if negb (shape_size (w_shape w) =? Z.of_nat (length new_weight)) then
          if ignore_errors then Ok (w, [wrong_length_error w new_weight])
          else Raise (KeyError (wrong_length_error w new_weight))
        else Ok (assign (loaded_value hectoplies input_format w new_weight) w, [])
    end.

(** The whole loop: the weights as the loop leaves them, the lines
    printed, and the exception that ended it, if any. *)
Fixpoint load_weights (ignore_errors : bool) (hectoplies input_format : Z)
    (new_weights : gmap string (list Qc)) (ws : list Weight)
    : list Weight * list string * option exn :=
  match ws with
  | [] => ([], [], None)
  | w :: rest =>
      match load_weight ignore_errors hectoplies input_format new_weights w with
      | Raise e => (w :: rest, [], Some e)
      | Ok (w', lines) =>
          let '(rest', lines', e) :=
            load_weights ignore_errors hectoplies input_format new_weights rest in
          (w' :: rest', lines ++ lines', e)
      end
  end.

(** [replace_weights]; [proto] is what [parse_proto] reads from the
    file. *)
Definition replace_weights `{Substrate} (proto : Net) (ignore_errors : bool)
    : M unit :=
  modify (set_net proto) ;;;
  do! policy_head := gets POLICY_HEAD in
  do! value_head := gets VALUE_HEAD in
  (if negb ignore_errors then
     if negb (policy_head =? pb_policy proto)
     then throw (ValueError "Policy head type doesn't match the network")
     else if negb (value_head =? pb_value proto)
     then throw (ValueError "Value head type doesn't match the network")
     else ret tt
   else ret tt) ;;;
  do! names := gets (λ s, map w_name (weights s)) in
  let new_weights := get_weights_v2 proto names in
  do! ws := gets weights in
  let '(ws', lines, e) :=
    load_weights ignore_errors INPUT_112_WITH_CANONICALIZATION_HECTOPLIES
      (pb_input proto) new_weights ws in
  modify (set_weights ws') ;;;
  modify (λ s, set_stdout (stdout s ++ lines) s) ;;;
  match e with
  | Some e => throw e
  | None =>
      do! swa := gets swa_enabled in
      if swa : bool then modify (set_swa_count 0%Qc) ;;; update_swa else ret tt
  end.

(** A tensor of the model that is loaded from the protobuf but cannot
    be: no value under its name, or a value of the wrong size. Tensors
    with "renorm" in their name are not loaded at all. *)
Definition mismatched (new_weights : gmap string (list Qc)) (w : Weight)
    : bool :=
  match new_weights !! w_name w with
  | None => true
  | Some new_weight =>
      negb (shape_size (w_shape w) =? Z.of_nat (length new_weight))
  end.

Definition mismatch_line (new_weights : gmap string (list Qc)) (w : Weight)
    : string :=
  match new_weights !! w_name w with
  | None => no_values_error w
  | Some new_weight => wrong_length_error w new_weight
  end.

(** A mismatch the loop gets to see. *)
Definition fatal (new_weights : gmap string (list Qc)) (w : Weight) : bool :=
  negb (contains "renorm" (w_name w)) && mismatched new_weights w.

(** The weight as a completed loop leaves it. *)
Definition loaded (hectoplies input_format : Z)
    (new_weights : gmap string (list Qc)) (w : Weight) : Weight :=
  if contains "renorm" (w_name w) || mismatched new_weights w then w
  else assign (loaded_value hectoplies input_format w
                 (default [] (new_weights !! w_name w))) w.

(** ** Sample states

    A process right after construction, for a given configuration, with
    empty model and data; the examples below fill in what they need. *)
Definition sample_net : Net :=
  mkNet 0 0 0 (λ _, ∅) (mkTrainingParams 0%Qc 0%Qc 0%Qc 0%Qc).

Definition sample_process (c : Cfg) : TFProcess :=
  {| cfg := c; swa_enabled := false; swa_max_n := 0%Qc;
     virtual_batch_size := None; strategy := None;
     POLICY_HEAD := 0; VALUE_HEAD := 0; weights := [];
     swa_weights := None; swa_count := 0%Qc; slots := [];
     active_lr := Q2Qc (1 # 100); lr := 0%Qc; warmup_steps := 0;
     global_step := 0; train_metrics := train_metrics_init;
     test_metrics := test_metrics_init; train_iter := []; test_iter := [];
     test_writer := TestWriter; swa_writer := SwaWriter; summaries := [];
     saved := []; stdout := []; net := sample_net |}.

(** Boundaries given out of order, three rates, 250 steps of warmup. *)
Definition sample_cfg : Cfg :=
  {| lr_values := [Q2Qc (1 # 10); Q2Qc (1 # 100); Q2Qc (1 # 1000)];
     lr_boundaries := [80000; 40000]; total_steps := 100000;
     cfg_warmup_steps := Some 250; max_grad_norm := None;
     mask_legal_moves := Some true; swa_steps := 20; test_steps := 2000;
     train_avg_report_steps := 200; checkpoint_steps := Some 10000;
     num_batch_splits := None |}.

(** A feed (one shard per replica, a single tuple without a strategy)
    on which every replica computes the gradient [g]. *)
Definition same_gradient_feed `{Substrate} (g : list (tensor Qc))
    (replicas : nat) (s : TFProcess) (feed : list batch) : Prop :=
  Forall (λ b, (process_inner_loop (weights s) b).2 = g) feed ∧
  length feed = replicas ∧
  (strategy s = None → replicas = 1%nat).

(** What [grads] holds in [train_step] after [j] splits that all yield
    [g] on each of [replicas] replicas. *)
Definition accumulated (g : list (tensor Qc)) (replicas : nat) (j : nat)
    : option (list (list (tensor Qc))) :=
  match j with
  | O => None
  | S _ => Some (replicate replicas (scale_grads (Qc_of_Z (Z.of_nat j)) g))
  end.

Definition sample_weight (name : string) (v : tensor Qc) : Weight :=
  mkWeight name [Z.of_nat (length v)] true v.

(** ** A small substrate for the examples

    A stand-in for the network and for TensorFlow, small enough to run:
    every trainable weight is pulled toward the input planes of the batch
    (the gradient of half the squared distance), the metrics are the
    sums of the entries of each gradient, the norm is the sum of the
    absolute values, the optimizer is the default one, writing a file
    fails only for the empty file name, and the cross entropy is replaced
    by the squared distance between labels and logits. *)
Definition batch_input (b : batch) : tensor Qc := b.1.1.1.1.

Definition toy_gradients (ws : list Weight) (b : batch) : list (tensor Qc) :=
  map (λ t, zip_with Qcminus t (batch_input b)) (trainable_values ws).

Definition l1_norm (g : list (tensor Qc)) : Qc :=
  sum_Qc (map (λ t, sum_Qc (map Qcabs t)) g).

Definition squared_distance (labels logits : tensor Qc) : Qc :=
  sum_Qc (zip_with (λ l o, (o - l) * (o - l))%Qc labels logits).

Definition toy_substrate : Substrate := {|
  process_inner_loop ws b :=
    (map sum_Qc (toy_gradients ws b), toy_gradients ws b);
  calculate_test_summaries_inner_loop ws b :=
    map sum_Qc (map (λ w, zip_with Qcminus (w_value w) (batch_input b)) ws);
  global_norm := l1_norm;
  apply_gradients := sgd_nesterov;
  save_proto filename := negb (String.eqb filename "");
  softmax_cross_entropy_with_logits := squared_distance;
  INPUT_112_WITH_CANONICALIZATION_HECTOPLIES := 4
|}.

Definition sample_batch : batch :=
  ([0%Qc; 1%Qc], [], [], [], []).

(** Two replicas, one weight [[1; 2]] with an empty momentum slot, a base
    rate of 1/10, and two feeds of two shards each. *)
Definition sample_training : TFProcess :=
  {| cfg := sample_cfg; swa_enabled := false; swa_max_n := 0%Qc;
     virtual_batch_size := None; strategy := Some 2;
     POLICY_HEAD := 0; VALUE_HEAD := 0;
     weights := [sample_weight "w" [1%Qc; Qc_of_Z 2]];
     swa_weights := None; swa_count := 0%Qc; slots := [[0%Qc; 0%Qc]];
     active_lr := Q2Qc (1 # 100); lr := Q2Qc (1 # 10); warmup_steps := 0;
     global_step := 0; train_metrics := train_metrics_init;
     test_metrics := test_metrics_init;
     train_iter := [[sample_batch; sample_batch]; [sample_batch; sample_batch]];
     test_iter := [];
     test_writer := TestWriter; swa_writer := SwaWriter; summaries := [];
     saved := []; stdout := []; net := sample_net |}.

(** What an evaluation pass must leave alone: the live weights, the
    shadow weights, the writers and the strategy. *)
Definition frame (s : TFProcess)
    : list Weight * option (list (tensor Qc)) * writer * writer * option Z :=
  (weights s, swa_weights s, test_writer s, swa_writer s, strategy s).

(** Without a strategy the test iterator yields single tuples. *)
Definition single_tuples (s : TFProcess) (feeds : list (list batch)) : Prop :=
  strategy s = None → Forall (λ feed, length feed = 1%nat) feeds.

(** SWA on, live weight [[1; 2]], shadow weight [[3; 4]], one test batch
    left in the iterator. *)
Definition sample_swa : TFProcess :=
  {| cfg := sample_cfg; swa_enabled := true; swa_max_n := Qc_of_Z 10;
     virtual_batch_size := None; strategy := None;
     POLICY_HEAD := 0; VALUE_HEAD := 0;
     weights := [sample_weight "w" [1%Qc; Qc_of_Z 2]];
     swa_weights := Some [[Qc_of_Z 3; Qc_of_Z 4]]; swa_count := 1%Qc;
     slots := [[0%Qc; 0%Qc]];
     active_lr := Q2Qc (1 # 100); lr := Q2Qc (1 # 10); warmup_steps := 0;
     global_step := 0; train_metrics := train_metrics_init;
     test_metrics := test_metrics_init;
     train_iter := []; test_iter := [[sample_batch]];
     test_writer := TestWriter; swa_writer := SwaWriter; summaries := [];
     saved := []; stdout := []; net := sample_net |}.

(** A model with a batch-renormalisation variable and a dense kernel,
    and a file that has values for the kernel only. *)
Definition sample_loading : TFProcess :=
  set_weights
    [mkWeight "bn/renorm_mean:0" [2] false [0%Qc; 0%Qc];
     mkWeight "dense/kernel:0" [2; 1] true [0%Qc; 0%Qc]]
    (sample_process sample_cfg).

Definition sample_proto : Net :=
  mkNet 0 0 5 (λ _, {["dense/kernel:0" := [Qc_of_Z 5; Qc_of_Z 6]]})
    (mkTrainingParams 0%Qc 0%Qc 0%Qc 0%Qc).

(** ** Observations of the state *)

(** What a training step leaves alone, however it ends. *)
Definition untouched_by_training (s : TFProcess) :=
  (cfg s, strategy s, swa_enabled s, swa_weights s, swa_count s, lr s,
   test_iter s, test_metrics s, test_writer s, saved s, stdout s, net s).

(** An observation of the state that the evaluation passes, the
    schedule and the exports cannot change: it is blind to the test
    metrics and iterator, the protobuf parameters, the summaries, the
    live weights, the test writer, the console, the learning rate and the
    saved files. *)
Definition blind_to_evaluation {X} (f : TFProcess → X) : Prop :=
  (∀ v s, f (set_test_metrics v s) = f s) ∧
  (∀ v s, f (set_test_iter v s) = f s) ∧
  (∀ v s, f (set_net v s) = f s) ∧
  (∀ v s, f (set_summaries v s) = f s) ∧
  (∀ v s, f (set_weights v s) = f s) ∧
  (∀ v s, f (set_test_writer v s) = f s) ∧
  (∀ v s, f (set_stdout v s) = f s) ∧
  (∀ v s, f (set_lr v s) = f s) ∧
  (∀ v s, f (set_saved v s) = f s).

(** Whether there are no shadow weights ([self.swa_weights is None]). *)
Definition swa_off (s : TFProcess) : bool :=
  match swa_weights s with None => true | Some _ => false end.

(** What one call of [process] can be asked afterwards: the configuration,
    whether shadow weights exist, whether SWA is enabled, the replica
    count and the step counter. *)
Definition process_view (s : TFProcess) :=
  (cfg s, swa_off s, swa_enabled s, strategy s, global_step s).

(** A cycle of two steps with SWA on: one weight with its shadow copy,
    two training feeds, no test batches asked for. *)
Definition short_cfg : Cfg :=
  {| lr_values := [Q2Qc (1 # 10)]; lr_boundaries := []; total_steps := 2;
     cfg_warmup_steps := None; max_grad_norm := None;
     mask_legal_moves := Some true; swa_steps := 1; test_steps := 2;
     train_avg_report_steps := 2; checkpoint_steps := None;
     num_batch_splits := None |}.

Definition sample_cycle : TFProcess :=
  {| cfg := short_cfg; swa_enabled := true; swa_max_n := Qc_of_Z 10;
     virtual_batch_size := None; strategy := None;
     POLICY_HEAD := 0; VALUE_HEAD := 0;
     weights := [sample_weight "w" [1%Qc; Qc_of_Z 2]];
     swa_weights := Some [[1%Qc; Qc_of_Z 2]]; swa_count := 0%Qc;
     slots := [[0%Qc; 0%Qc]];
     active_lr := Q2Qc (1 # 100); lr := Q2Qc (1 # 10); warmup_steps := 0;
     global_step := 0; train_metrics := train_metrics_init;
     test_metrics := test_metrics_init;
     train_iter := [[sample_batch]; [sample_batch]]; test_iter := [];
     test_writer := TestWriter; swa_writer := SwaWriter; summaries := [];
     saved := []; stdout := []; net := sample_net |}.

(** ** Shapes

    A TensorFlow variable keeps its shape. In the model a weight carries
    its shape and its values side by side, so the properties that depend
    on shapes say what they need: the shadow tensors are as long as the
    values they shadow, or values and shadow tensors both fill the shape
    of the weight. *)
Definition same_sizes (ws : list Weight) (swa : list (tensor Qc)) : Prop :=
  Forall2 (λ w t, length (w_value w) = length t) ws swa.

Definition fills_shape (w : Weight) (t : tensor Qc) : Prop :=
  Z.of_nat (length (w_value w)) = shape_size (w_shape w) ∧
  Z.of_nat (length t) = shape_size (w_shape w).

(** ** The metric objects

    [init_net] builds one list of thresholded accuracy metrics and
    extends both [self.train_metrics] and [self.test_metrics] with it, so
    the two lists end in the same objects. Here the objects live in a
    store, in the order of their creation, and the two lists hold
    addresses. *)
Definition thresholded_metric (threshold : Z) : Metric.t :=
  Metric.init ("P@" +:+ pretty threshold +:+ "%")
              ("Thresholded Policy Accuracy @ " +:+ pretty threshold) "".

Record MetricLists : Type := mkMetricLists {
  store : list Metric.t;
  train_refs : list nat;
  test_refs : list nat
}.

Definition init_metric_lists (accuracy_thresholds : list Z) : MetricLists :=
  let accuracy_thresholded_metrics :=
    map thresholded_metric accuracy_thresholds in
  let n := length accuracy_thresholded_metrics in
  let k := length train_metrics_init in
  {| store := accuracy_thresholded_metrics ++ train_metrics_init
              ++ test_metrics_init;
     train_refs := seq n k ++ seq 0 n;
     test_refs := seq (n + k) (length test_metrics_init) ++ seq 0 n |}.

(** [for acc, val in zip(metrics, vals): acc.accumulate(val)] *)
Fixpoint accumulate_refs (refs : list nat) (vals : list Qc)
    (st : list Metric.t) : list Metric.t :=
  match refs, vals with
  | r :: refs', v :: vals' =>
      accumulate_refs refs' vals' (alter (λ m, Metric.accumulate m v) r st)
  | _, _ => st
  end.

(** [for metric in metrics: metric.reset()] *)
Fixpoint reset_refs (refs : list nat) (st : list Metric.t)
    : list Metric.t :=
  match refs with
  | [] => st
  | r :: refs' => reset_refs refs' (alter Metric.reset r st)
  end.

(** [metrics[k]] *)
Definition metric_at (st : list Metric.t) (refs : list nat) (k : nat)
    : option Metric.t :=
  r ← refs !! k; st !! r.

(** ** Sparse training: [set_sparsity_patterns] and [apply_sparsity]

    A kernel is kept flat, in row-major order, so the two reshapes of
    [set_sparsity_patterns] only group its entries by four and ungroup
    them. A size that is not a multiple of four makes the first reshape
    fail. *)
Fixpoint reshape_4 (l : list Qc) : option (list (list Qc)) :=
  match l with
  | [] => Some []
  | a :: b :: c :: d :: rest =>
      rows ← reshape_4 rest; Some ([a; b; c; d] :: rows)
  | _ => None
  end.

Fixpoint insert_desc (x : Qc) (l : list Qc) : list Qc :=
  match l with
  | [] => [x]
  | y :: l' => if Qc_leb y x then x :: y :: l' else y :: insert_desc x l'
  end.

Definition sort_desc (l : list Qc) : list Qc := foldr insert_desc [] l.

(** [tf.math.top_k(row, k=2, sorted=True).values[1:2]]: the second of
    the entries in descending order. *)
Definition second_largest (row : list Qc) : Qc := nth 1 (sort_desc row) 0%Qc.

(** [tf.math.greater_equal(kernel_abs, second_largest)] on one row. *)
Definition comparison (row : list Qc) : list bool :=
  map (λ x, Qc_leb (second_largest row) x) row.

(** [tf.cast(_, tf.float32)] of a boolean. *)
Definition cast_float32 (b : bool) : Qc := if b then 1%Qc else 0%Qc.

(** The pattern of one kernel. *)
Definition sparsity_pattern (kernel : list Qc) : option (list Qc) :=
  let kernel_abs := map Qcabs kernel in
  rows ← reshape_4 kernel_abs;
  Some (map cast_float32 (concat (map comparison rows))).

(** A layer of [self.model.layers]: its name, whether it is a
    [tf.keras.layers.Dense], and its kernel. *)
Record Layer : Type := mkLayer {
  layer_name : string;
  is_dense : bool;
  kernel : list Qc
}.

Definition sparsified (l : Layer) : bool :=
  is_dense l && contains "encoder" (layer_name l)
  && negb (contains "smolgen" (layer_name l)).

(** [set_sparsity_patterns]: the dictionary from layer names to
    patterns. *)
Fixpoint set_sparsity_patterns (layers : list Layer)
    (sparsity_patterns : gmap string (list Qc))
    : option (gmap string (list Qc)) :=
  match layers with
  | [] => Some sparsity_patterns
  | layer :: rest =>
      if sparsified layer then
        pattern ← sparsity_pattern (kernel layer);
        set_sparsity_patterns rest
          (<[layer_name layer := pattern]> sparsity_patterns)
      else set_sparsity_patterns rest sparsity_patterns
  end.

(** [apply_sparsity] *)
Definition apply_sparsity (sparsity_patterns : gmap string (list Qc))
    (layers : list Layer) : list Layer :=
  map (λ layer,
         match sparsity_patterns !! layer_name layer with
         | Some pattern =>
             mkLayer (layer_name layer) (is_dense layer)
                     (zip_with Qcmult (kernel layer) pattern)
         | None => layer
         end) layers.

(** The first entry of a list in descending order bounds the second. *)
Definition heads_descend (l : list Qc) : Prop :=
  match l with a :: b :: _ => (b ≤ a)%Qc | _ => True end.

(** The number of entries a row of the comparison keeps. *)
Definition kept (mask : list bool) : nat :=
  length (filter (λ b : bool, b = true) mask).

(** The [g]-th group of four consecutive entries, and the number of ones
    in a list. *)
Definition group {A} (g : nat) (l : list A) : list A :=
  take 4 (drop (4 * g) l).

Definition ones (l : list Qc) : nat := length (filter (λ x, x = 1%Qc) l).

(** ** [policy_thresholded_accuracy]

    The rate at which the policy gives the best move of the target more
    than a threshold, in percent. [tf.nn.softmax] on one row is a
    parameter. *)

(** [tf.argmax] on one row: the first index of the largest entry. *)
Fixpoint argmax_from (best : Qc) (best_i i : nat) (row : tensor Qc) : nat :=
  match row with
  | [] => best_i
  | x :: row' =>
      if Qc_ltb best x then argmax_from x i (S i) row'
      else argmax_from best best_i (S i) row'
  end.

Definition argmax (row : tensor Qc) : nat :=
  match row with
  | [] => 0%nat
  | x :: row' => argmax_from x 0 1 row'
  end.

(** The [thresholds] argument: absent, one float, or a list. *)
Inductive thresholds_arg : Type :=
| NoThresholds
| OneThreshold (threshold : Qc)
| Thresholds (thresholds : list Qc).

Section PolicyMetrics.

Variable softmax : tensor Qc → tensor Qc.

(** [output_at_best_moves]: the policy at the best move of each row. *)
Definition output_at_best_moves (c : Cfg) (target output : list (tensor Qc))
    : list Qc :=
  let '(target, output) := correct_policy c target output in
  let softmaxed := map softmax output in
  let best_moves := map argmax target in
  zip_with (λ row best, nth best row 0%Qc) softmaxed best_moves.

Definition policy_thresholded_accuracy (c : Cfg)
    (accuracy_thresholds : list Qc) (target output : list (tensor Qc))
    (thresholds : thresholds_arg) : list Qc :=
  let thresholds :=
    match thresholds with
    | NoThresholds => accuracy_thresholds
    | OneThreshold threshold => [threshold]
    | Thresholds thresholds => thresholds
    end in
  match thresholds with
  | [] => []
  | _ =>
      let thresholds :=
        map (λ threshold, threshold / Qc_of_Z 100)%Qc thresholds in
      let at_best := output_at_best_moves c target output in
      map (λ threshold,
             reduce_mean
               (map (λ p, if Qc_ltb threshold p then 1%Qc else 0%Qc) at_best))
          thresholds
  end.

End PolicyMetrics.

(** ** [class Gating] and [ma_gating]

    A gate is a trainable tensor of the shape of one row of the input,
    added to every row or multiplied into it. *)
Module Gating.

Record t : Type := mk {
  additive : bool;
  init_value : Qc
}.

(** [Gating(name, additive=True, init_value=None)] *)
Definition init (additive : bool) (init_value : option Qc) : t :=
  mk additive
     (match init_value with
      | None => if additive then 0%Qc else 1%Qc
      | Some v => v
      end).

(** [build(input_shape)]: the weight [gate], of the shape
    [input_shape[1:]] (here the number of entries of one row), filled
    with [init_value]. *)
Definition build (self : t) (row_size : nat) : tensor Qc :=
  replicate row_size (init_value self).

(** [call(inputs)] with the current value of [gate], which is broadcast
    over the batch. *)
Definition call (self : t) (gate : tensor Qc) (inputs : list (tensor Qc))
    : list (tensor Qc) :=
  map (λ row, zip_with (if additive self then Qcplus else Qcmult) row gate)
      inputs.

End Gating.

(** [ma_gating(inputs, name)] when the model is built: two new layers,
    each built for the shape of its input and called with the gate it
    starts with. *)
Definition ma_gating (row_size : nat) (inputs : list (tensor Qc))
    : list (tensor Qc) :=
  let mult_gate := Gating.init false None in
  let out := Gating.call mult_gate (Gating.build mult_gate row_size) inputs in
  let add_gate := Gating.init true None in
  Gating.call add_gate (Gating.build add_gate row_size) out.

(** What only the reports, the evaluations and the checkpoint write:
    the summaries, the saved files, the console, the test data and
    metrics, and [self.net]. *)
Definition logs (s : TFProcess) :=
  (summaries s, saved s, stdout s, test_iter s, test_metrics s, net s).

(* ===================================================================== *)
(** * Properties *)
(* ===================================================================== *)

(** ** Metric *)

Lemma Metric_reachable_inv (m : Metric.t) :
  Metric.reachable m →
  0 ≤ Metric.count m ∧ (Metric.count m = 0 → Metric.value m = 0%Qc).
Proof.
  induction 1 as [s l x | m v _ _ | m v _ [Hc Hv] | m o m' _ [Hc Hv] _ [Hc' Hv'] E
                 | m _ _]; simpl.
  - split; [lia | done].
  - split; [lia | intros; lia].
  - unfold Metric.accumulate. destruct (Z.ltb_spec 0 (Metric.count m)); simpl.
    + split; intros; lia.
    + split; intros; lia.
  - unfold Metric.merge in E.
    destruct (String.eqb _ _); [|discriminate].
    injection E as <-. simpl. split; [lia|].
    intros H0. rewrite Hv, Hv' by lia. apply Qcplus_0_l.
  - split; [lia | done].
Qed.

(** C9. Every metric built by construction, [assign], [accumulate],
    [merge] with another such metric and [reset] has value 0 whenever its
    count is 0; so [get] is the mean [value / count] when the count is
    positive and 0 when the count is 0. *)
Theorem Metric_count_zero_value_zero (m : Metric.t) :
  Metric.reachable m →
  (Metric.count m = 0 → Metric.value m = 0%Qc) ∧
  (0 < Metric.count m →
     Metric.get m = (Metric.value m / Qc_of_Z (Metric.count m))%Qc) ∧
  (Metric.count m = 0 → Metric.get m = 0%Qc).
Proof.
  intros Hr. destruct (Metric_reachable_inv m Hr) as [Hc Hv].
  split; [exact Hv|]. unfold Metric.get. split.
  - intros Hpos. destruct (Z.eqb_spec (Metric.count m) 0); [lia | done].
  - intros H0. rewrite H0. simpl. auto.
Qed.

Lemma Metric_count_zero_value_zero_witness :
  let m := Metric.accumulate
             (Metric.accumulate (Metric.init "P" "Policy Loss" "")
                (Q2Qc (3 # 2))) (Q2Qc (1 # 2)) in
  Metric.reachable m ∧
  (0 < Metric.count m →
     Metric.get m = (Metric.value m / Qc_of_Z (Metric.count m))%Qc).
Proof.
  intros m.
  assert (Hr : Metric.reachable m) by (repeat constructor).
  split; [exact Hr|].
  exact (proj1 (proj2 (Metric_count_zero_value_zero m Hr))).
Defined.

(** The running sum: a metric reset and then fed [v :: vs] holds their
    sum and their number, so [get] is their mean. *)
Lemma Metric_accumulate_running_mean (m : Metric.t) (v : Qc) (vs : list Qc) :
  let m' := foldl Metric.accumulate (Metric.reset m) (v :: vs) in
  Metric.value m' = sum_Qc (v :: vs) ∧
  Metric.count m' = Z.of_nat (length (v :: vs)) ∧
  Metric.get m' = reduce_mean (v :: vs).
Proof.
  assert (Hfold : ∀ vs m0, 0 < Metric.count m0 →
    Metric.value (foldl Metric.accumulate m0 vs)
      = (Metric.value m0 + sum_Qc vs)%Qc ∧
    Metric.count (foldl Metric.accumulate m0 vs)
      = Metric.count m0 + Z.of_nat (length vs)).
  { clear. induction vs as [|x vs IH]; intros m0 Hpos; simpl.
    - split; [by rewrite Qcplus_0_r | lia].
    - destruct (IH (Metric.accumulate m0 x)) as [Hv Hc].
      + unfold Metric.accumulate. destruct (Z.ltb_spec 0 (Metric.count m0)); simpl; lia.
      + rewrite Hv, Hc. unfold Metric.accumulate.
        destruct (Z.ltb_spec 0 (Metric.count m0)); [|lia]. simpl.
        split; [by rewrite Qcplus_assoc | lia]. }
  intros m'. subst m'. cbn [foldl].
  destruct (Hfold vs (Metric.accumulate (Metric.reset m) v)) as [Hv Hc];
    [simpl; lia|].
  simpl in Hv, Hc. split; [exact Hv|]. split.
  - rewrite Hc. cbn [length]. lia.
  - unfold Metric.get, reduce_mean. rewrite Hc, Hv.
    destruct (Z.eqb_spec (1 + Z.of_nat (length vs)) 0); [lia|].
    cbn [length sum_Qc foldr]. do 2 f_equal. lia.
Qed.

(** ** make_value_buckets *)

Lemma clip_by_value_range (x lo hi : Z) :
  lo ≤ hi → lo ≤ clip_by_value x lo hi ≤ hi.
Proof. unfold clip_by_value. lia. Qed.

(** C5. For every batch of WDL rows and every [num_buckets ≥ 1], each
    index returned by [make_value_buckets] lies in [0, num_buckets). *)
Theorem make_value_buckets_in_range (value_wdl : list (Qc * Qc * Qc))
    (num_buckets : Z) :
  1 ≤ num_buckets →
  Forall (λ b, 0 ≤ b < num_buckets) (make_value_buckets value_wdl num_buckets).
Proof.
  intros Hn. unfold make_value_buckets. apply Forall_map, Forall_true.
  intros row. unfold value_bucket. simpl.
  pose proof (clip_by_value_range
    (cast_int64 (wdl_scalar row * Qc_of_Z num_buckets)%Qc) 0 (num_buckets - 1)).
  lia.
Qed.

Lemma make_value_buckets_in_range_witness :
  1 ≤ 32 ∧
  Forall (λ b, 0 ≤ b < 32)
    (make_value_buckets [(1%Qc, 0%Qc, 0%Qc); (0%Qc, 0%Qc, 1%Qc)] 32).
Proof.
  split; [lia|]. apply make_value_buckets_in_range. lia.
Defined.

(** The buckets at the two ends of the range and in the middle: a sure
    win (scalar 1.0) falls in the last bucket, a sure loss (0.0) in the
    first. *)
Example make_value_buckets_at_ends :
  make_value_buckets
    [(1%Qc, 0%Qc, 0%Qc); (0%Qc, 0%Qc, 1%Qc); (0%Qc, 1%Qc, 0%Qc)] 32
  = [31; 0; 16].
Proof. reflexivity. Qed.

(** ** Learning-rate schedule *)

Section Bisect.

Variables (a : list Z) (x : Z).
Hypothesis a_ascending : ascending a.

Lemma bisect_right_loop_partition (fuel lo hi : nat) :
  (lo ≤ hi ≤ length a)%nat → (hi - lo ≤ fuel)%nat →
  (∀ i ai, (i < lo)%nat → a !! i = Some ai → ai ≤ x) →
  (∀ i ai, (hi ≤ i)%nat → a !! i = Some ai → x < ai) →
  (bisect_right_loop fuel a x lo hi ≤ length a)%nat ∧
  (∀ i ai, (i < bisect_right_loop fuel a x lo hi)%nat →
           a !! i = Some ai → ai ≤ x) ∧
  (∀ i ai, (bisect_right_loop fuel a x lo hi ≤ i)%nat →
           a !! i = Some ai → x < ai).
Proof.
  revert lo hi. induction fuel as [|fuel IH]; intros lo hi Hb Hf Hlo Hhi;
    cbn [bisect_right_loop].
  - assert (lo = hi) by lia. subst hi. repeat split; [lia | exact Hlo | exact Hhi].
  - destruct (Nat.ltb_spec lo hi) as [Hlt|Hge].
    + assert (Hmid : (lo ≤ (lo + hi) / 2 < hi)%nat).
      { split.
        - apply Nat.div_le_lower_bound; lia.
        - apply Nat.Div0.div_lt_upper_bound; lia. }
      destruct (a !! ((lo + hi) / 2)%nat) as [am|] eqn:Eam.
      2: { apply lookup_ge_None in Eam. lia. }
      destruct (Z.ltb_spec x am) as [Hx|Hx].
      * apply IH; [lia | lia | exact Hlo |].
        intros i ai Hi Ei. destruct (decide (hi ≤ i)%nat) as [Hh|Hh].
        -- eauto.
        -- pose proof (a_ascending _ i am ai Hi Eam Ei). lia.
      * apply IH; [lia | lia | | exact Hhi].
        intros i ai Hi Ei.
        assert (Him : (i ≤ (lo + hi) / 2)%nat) by lia.
        pose proof (a_ascending i _ ai am Him Ei Eam). lia.
    + assert (lo = hi) by lia. subst hi.
      repeat split; [lia | exact Hlo | exact Hhi].
Qed.

End Bisect.

Lemma count_le_partition (a : list Z) (x : Z) (r : nat) :
  (r ≤ length a)%nat →
  (∀ i ai, (i < r)%nat → a !! i = Some ai → ai ≤ x) →
  (∀ i ai, (r ≤ i)%nat → a !! i = Some ai → x < ai) →
  count_le x a = r.
Proof.
  revert r. induction a as [|y a IH]; intros r Hr Hlo Hhi; simpl in *.
  - lia.
  - destruct r as [|r].
    + pose proof (Hhi 0%nat y ltac:(lia) eq_refl).
      destruct (Z.leb_spec y x); [lia|].
      rewrite (IH 0%nat); [done | lia | intros; lia |].
      intros i ai _ Ei. apply (Hhi (S i)); [lia | done].
    + pose proof (Hlo 0%nat y ltac:(lia) eq_refl).
      destruct (Z.leb_spec y x); [|lia].
      rewrite (IH r); [done | lia | |].
      * intros i ai Hi Ei. apply (Hlo (S i)); [lia | done].
      * intros i ai Hi Ei. apply (Hhi (S i)); [lia | done].
Qed.

(** On an ascending list [bisect_right] counts the entries at most [x]. *)
Lemma bisect_right_count (a : list Z) (x : Z) :
  ascending a → bisect_right a x = count_le x a.
Proof.
  intros Ha. unfold bisect_right.
  destruct (bisect_right_loop_partition a x Ha (length a) 0 (length a))
    as (H1 & H2 & H3); [lia | lia | intros; lia | |].
  - intros i ai Hi Ei. apply lookup_lt_Some in Ei. lia.
  - symmetry. by apply count_le_partition.
Qed.

Lemma insert_sorted_Forall (P : Z → Prop) (x : Z) (l : list Z) :
  P x → Forall P l → Forall P (insert_sorted x l).
Proof.
  intros Hx. induction 1 as [|y l Hy Hl IH]; simpl.
  - by constructor.
  - destruct (x <=? y); repeat constructor; auto.
Qed.

Lemma insert_sorted_sorted (x : Z) (l : list Z) :
  StronglySorted Z.le l → StronglySorted Z.le (insert_sorted x l).
Proof.
  induction 1 as [|y l Hs IH Hy]; simpl.
  - repeat constructor.
  - destruct (Z.leb_spec x y).
    + constructor; [by constructor|].
      constructor; [done|]. eapply Forall_impl; [exact Hy|]. simpl. lia.
    + constructor; [exact IH|].
      apply insert_sorted_Forall; [lia | exact Hy].
Qed.

Lemma list_sort_sorted (l : list Z) : StronglySorted Z.le (list_sort l).
Proof.
  induction l; simpl; [constructor | by apply insert_sorted_sorted].
Qed.

Lemma StronglySorted_ascending (l : list Z) :
  StronglySorted Z.le l → ascending l.
Proof.
  induction 1 as [|y l Hs IH Hy]; intros i j ai aj Hij Ei Ej.
  - done.
  - destruct i as [|i], j as [|j]; simpl in *; try lia.
    + injection Ei as <-. injection Ej as <-. lia.
    + injection Ei as <-. rewrite Forall_forall in Hy.
      apply Hy. eapply list_elem_of_lookup_2. exact Ej.
    + apply (IH i j); [lia | done | done].
Qed.

Lemma count_le_insert_sorted (x y : Z) (l : list Z) :
  count_le x (insert_sorted y l) = count_le x (y :: l).
Proof.
  induction l as [|z l IH]; simpl; [done|].
  destruct (y <=? z); simpl; [done|]. rewrite IH. simpl. lia.
Qed.

Lemma count_le_list_sort (x : Z) (l : list Z) :
  count_le x (list_sort l) = count_le x l.
Proof.
  induction l as [|y l IH]; simpl; [done|].
  rewrite count_le_insert_sorted. simpl. by rewrite IH.
Qed.

(** [init_net] leaves the boundaries of the configuration in ascending
    order, with the same entries. *)
Lemma init_net_sorts_boundaries (s s' : TFProcess) :
  init_net s = (s', Ok tt) →
  lr_boundaries (cfg s') = list_sort (lr_boundaries (cfg s)) ∧
  lr_values (cfg s') = lr_values (cfg s) ∧
  warmup_steps s' = default 0 (cfg_warmup_steps (cfg s)).
Proof.
  unfold init_net, mbind, modify, set_lr. simpl.
  destruct (lr_values (cfg s) !! 0%nat); [|discriminate].
  injection 1 as <-. done.
Qed.

Lemma ascending_pair (b1 b2 : Z) : b1 ≤ b2 → ascending [b1; b2].
Proof.
  intros H. apply StronglySorted_ascending.
  repeat constructor. exact H.
Qed.

(** For any ascending list of boundaries the schedule picks the value
    whose index is the number of boundaries at most
    [step mod total_steps]. *)
Lemma determine_lr_counts_boundaries (s : TFProcess) (step : Z) (v : Qc) :
  ascending (lr_boundaries (cfg s)) →
  total_steps (cfg s) ≠ 0 →
  lr_values (cfg s)
    !! count_le (step mod total_steps (cfg s)) (lr_boundaries (cfg s))
  = Some v →
  determine_lr step s
  = (set_lr (if (0 <? warmup_steps s) && (step <? warmup_steps s)
             then (v * Qc_of_Z (step + 1) / Qc_of_Z (warmup_steps s))%Qc
             else v) s, Ok tt).
Proof.
  intros Hasc Ht Hv.
  unfold determine_lr, mbind, gets, lift, modify, py_mod, ret.
  destruct (Z.eqb_spec (total_steps (cfg s)) 0) as [|_]; [done|].
  rewrite (bisect_right_count _ _ Hasc), Hv. simpl.
  by destruct ((0 <? warmup_steps s) && (step <? warmup_steps s)).
Qed.

(** C2. With ascending boundaries [[b1; b2]] and values [[v0; v1; v2]],
    [process] selects, for every step count, [v0], [v1] or [v2] according
    to where [step mod total_steps] falls, that is the value whose index is
    the number of boundaries at most [step mod total_steps]; when
    [warmup_steps] is positive and the step count is below it, the value
    is multiplied by [(step + 1) / warmup_steps]. *)
Theorem determine_lr_piecewise (s : TFProcess) (b1 b2 : Z) (v0 v1 v2 : Qc)
    (step : Z) :
  lr_boundaries (cfg s) = [b1; b2] → b1 ≤ b2 →
  lr_values (cfg s) = [v0; v1; v2] →
  total_steps (cfg s) ≠ 0 →
  let t := step mod total_steps (cfg s) in
  let W := warmup_steps s in
  let base := if t <? b1 then v0 else if t <? b2 then v1 else v2 in
  lr_values (cfg s) !! count_le t [b1; b2] = Some base ∧
  determine_lr step s =
    (set_lr (if (0 <? W) && (step <? W)
             then (base * (Qc_of_Z (step + 1) / Qc_of_Z W))%Qc
             else base) s, Ok tt).
Proof.
  intros Hb H12 Hv Ht t W base.
  assert (Hsel : lr_values (cfg s) !! count_le t [b1; b2] = Some base).
  { rewrite Hv. unfold base. simpl.
    destruct (Z.leb_spec b1 t), (Z.leb_spec b2 t),
             (Z.ltb_spec t b1), (Z.ltb_spec t b2); simpl; try lia; done. }
  split; [exact Hsel|].
  unfold determine_lr, mbind, gets, lift, modify, py_mod, ret.
  destruct (Z.eqb_spec (total_steps (cfg s)) 0) as [|_]; [done|].
  rewrite Hb at 1. rewrite (bisect_right_count _ _ (ascending_pair b1 b2 H12)).
  fold t. rewrite Hsel. simpl. fold W.
  destruct ((0 <? W) && (step <? W)); simpl; [|done].
  unfold set_lr. simpl. do 2 f_equal.
  unfold Qcdiv. by rewrite Qcmult_assoc.
Qed.

Lemma determine_lr_piecewise_witness :
  let s := (init_net (sample_process sample_cfg)).1 in
  lr_boundaries (cfg s) = [40000; 80000] ∧
  lr (determine_lr 99 s).1 = Q2Qc (1 # 25) ∧
  lr (determine_lr 140300 s).1 = Q2Qc (1 # 100).
Proof.
  intros s. split; [reflexivity|]. split.
  - rewrite (proj2 (determine_lr_piecewise s 40000 80000
               (Q2Qc (1 # 10)) (Q2Qc (1 # 100)) (Q2Qc (1 # 1000)) 99
               eq_refl ltac:(lia) eq_refl ltac:(simpl; lia))).
    apply Qc_is_canon. reflexivity.
  - rewrite (proj2 (determine_lr_piecewise s 40000 80000
               (Q2Qc (1 # 10)) (Q2Qc (1 # 100)) (Q2Qc (1 # 1000)) 140300
               eq_refl ltac:(lia) eq_refl ltac:(simpl; lia))).
    apply Qc_is_canon. reflexivity.
Defined.

(** ** Stochastic weight averaging *)

Lemma Qc_succ_nonzero (n : Qc) : (0 ≤ n)%Qc → (n + 1)%Qc ≠ 0%Qc.
Proof.
  intros Hn E.
  assert (H : (0 < n + 1)%Qc) by (by apply Qcplus_nonneg_pos).
  rewrite E in H. by apply Qclt_not_eq in H.
Qed.

Lemma average_same (t : tensor Qc) (keep take : Qc) :
  (keep + take)%Qc = 1%Qc →
  zip_with Qcplus (map (λ x, x * keep)%Qc t) (map (λ x, x * take)%Qc t) = t.
Proof.
  intros E. induction t as [|x t IH]; simpl; [done|].
  rewrite IH. f_equal.
  rewrite <- Qcmult_plus_distr_r, E. apply Qcmult_1_r.
Qed.

Lemma assign_zip_same {A} (f : A → A → A) (l : list A) :
  (∀ a, f a a = a) → assign_zip f l l = l.
Proof. intros Hf. induction l; simpl; [done|]. by rewrite Hf, IHl. Qed.

Lemma update_swa_values_fixed (max_n n : Qc) (ws : list (tensor Qc)) :
  (0 ≤ n)%Qc → (0 ≤ max_n)%Qc →
  ∃ n', update_swa_values max_n n ws ws = (ws, n') ∧ (0 ≤ n')%Qc.
Proof.
  intros Hn Hmax. unfold update_swa_values. simpl.
  eexists. split.
  - f_equal. apply assign_zip_same. intros t. apply average_same.
    pose proof (Qc_succ_nonzero n Hn). field. exact H.
  - destruct (Qc_ltb max_n (n + 1)); [done|].
    by apply Qcplus_nonneg_nonneg.
Qed.

(** In exact arithmetic constant weights are a fixed point of the
    average, whatever the count and the number of updates. *)
Lemma update_swa_times_fixed (k : nat) (max_n n : Qc)
    (ws : list (tensor Qc)) :
  (0 ≤ n)%Qc → (0 ≤ max_n)%Qc →
  (update_swa_times k max_n n ws ws).1 = ws.
Proof.
  revert n. induction k as [|k IH]; intros n Hn Hmax;
    cbn [update_swa_times]; [done|].
  destruct (update_swa_values_fixed max_n n ws Hn Hmax) as (n' & -> & Hn').
  by apply IH.
Qed.

Lemma update_swa_step (s : TFProcess) :
  swa_weights s = Some (map w_value (weights s)) →
  (0 ≤ swa_count s)%Qc → (0 ≤ swa_max_n s)%Qc →
  ∃ n', update_swa s =
          (set_swa_count n'
             (set_swa_weights (Some (map w_value (weights s))) s), Ok tt) ∧
        (0 ≤ n')%Qc.
Proof.
  intros Hswa Hn Hmax.
  destruct (update_swa_values_fixed (swa_max_n s) (swa_count s)
              (map w_value (weights s)) Hn Hmax) as (n' & E & Hn').
  exists n'. split; [|exact Hn'].
  unfold update_swa, mbind, gets, the_swa_weights, modify.
  rewrite Hswa. cbv beta iota. rewrite E. reflexivity.
Qed.

(** C4 (amended). In exact arithmetic, with [swa_max_n ≥ 0]: if the shadow
    weights equal the live weights and the live weights do not change,
    then after any number of calls of [update_swa], from any count
    [n ≥ 0], the shadow weights still equal them, and the live weights
    are untouched. *)
Theorem update_swa_constant_fixed_point (k : nat) (s : TFProcess) :
  swa_weights s = Some (map w_value (weights s)) →
  (0 ≤ swa_count s)%Qc → (0 ≤ swa_max_n s)%Qc →
  ∃ s', for_range k update_swa s = (s', Ok tt) ∧
        swa_weights s' = Some (map w_value (weights s)) ∧
        weights s' = weights s.
Proof.
  revert s. induction k as [|k IH]; intros s Hswa Hn Hmax.
  - exists s. done.
  - destruct (update_swa_step s Hswa Hn Hmax) as (n' & E & Hn').
    cbn [for_range]. unfold mbind at 1. rewrite E.
    destruct (IH (set_swa_count n'
                    (set_swa_weights (Some (map w_value (weights s))) s)))
      as (s' & E' & H1 & H2); [done | done | done |].
    exists s'. split; [exact E'|]. split; [exact H1 | exact H2].
Qed.

Lemma update_swa_constant_fixed_point_witness :
  let c := [Qc_of_Z 7; Q2Qc (1 # 10)] in
  let s := set_swa_count (Qc_of_Z 2)
             (set_swa_weights (Some [c])
                (set_weights [sample_weight "w" c]
                   (sample_process sample_cfg))) in
  swa_weights (for_range 3 update_swa s).1 = Some [c].
Proof.
  intros c s.
  destruct (update_swa_constant_fixed_point 3 s eq_refl) as (s' & E & H & _).
  - discriminate.
  - discriminate.
  - rewrite E. exact H.
Defined.

(** C4, as stated, in the arithmetic of the code. Three updates of the
    constant weight 7.0 from a fresh count, with [swa_max_n = 10], in
    binary32: the third one computes [7 * (2/3) + 7 * (1/3)] and returns
    the next float above 7. *)
Lemma update_swa_float32_not_fixed :
  (update_swa_times 3 (f32_of_Z 10) (f32_of_Z 0)
     [[f32_of_Z 7]] [[f32_of_Z 7]]).1
  = [[S754_finite false 14680065 (-21)]] ∧
  f32_of_Z 7 = S754_finite false 14680064 (-21) ∧
  (update_swa_times 3 (f32_of_Z 10) (f32_of_Z 0)
     [[f32_of_Z 7]] [[f32_of_Z 7]]).1
  ≠ [[f32_of_Z 7]].
Proof.
  split; [vm_compute; reflexivity|].
  split; [vm_compute; reflexivity|].
  vm_compute. discriminate.
Qed.

(** ** Policy loss *)

Lemma Qc_leb_le (a b : Qc) : Qc_leb a b = true ↔ (a ≤ b)%Qc.
Proof.
  unfold Qc_leb, Qc_ltb. rewrite Qcle_ngt. unfold Qclt.
  rewrite Qlt_alt. unfold Qccompare.
  destruct (b ?= a)%Q; simpl; split; intros E; done.
Qed.

Lemma mask_row_agree (target o1 o2 : tensor Qc) :
  agree_on_legal target o1 o2 → mask_row target o1 = mask_row target o2.
Proof.
  revert o1 o2. induction target as [|t target IH]; intros o1 o2 [Hlen Hag].
  - done.
  - destruct o1 as [|x1 o1], o2 as [|x2 o2]; simpl in Hlen; try done.
    unfold mask_row. simpl. f_equal.
    + destruct (Qc_leb 0 t) eqn:E; [|done].
      apply Qc_leb_le in E.
      pose proof (Hag 0%nat t eq_refl E) as H0. simpl in H0. congruence.
    + apply IH. split; [congruence|].
      intros i ti Ei Hti. exact (Hag (S i) ti Ei Hti).
Qed.

(** C3. With [mask_legal_moves] set, two batches of logits that agree on
    every coordinate where the target is non-negative, and differ only
    where it is negative, have the same [policy_loss]. *)
Theorem policy_loss_ignores_illegal_logits `{Substrate} (c : Cfg)
    (target o1 o2 : list (tensor Qc)) :
  mask_legal_moves c = Some true →
  Forall3 agree_on_legal target o1 o2 →
  policy_loss c target o1 = policy_loss c target o2.
Proof.
  intros Hmask Hag. unfold policy_loss, correct_policy. rewrite Hmask. simpl.
  do 2 f_equal.
  induction Hag as [|t r1 r2 ts rs1 rs2 Hrow _ IH]; simpl; [done|].
  by rewrite (mask_row_agree t r1 r2 Hrow), IH.
Qed.

(** ** Gradient accumulation *)

Lemma scale_grads_1 (g : list (tensor Qc)) : scale_grads 1 g = g.
Proof.
  unfold scale_grads. induction g as [|t g IH]; simpl; [done|].
  rewrite IH. f_equal. induction t as [|x t IHt]; simpl; [done|].
  by rewrite IHt, Qcmult_1_r.
Qed.

Lemma scale_grads_scale (a b : Qc) (g : list (tensor Qc)) :
  scale_grads a (scale_grads b g) = scale_grads (b * a) g.
Proof.
  unfold scale_grads. rewrite map_map. apply map_ext. intros t.
  rewrite map_map. apply map_ext. intros x. by rewrite Qcmult_assoc.
Qed.

Lemma merge_grads_scale (a b : Qc) (g : list (tensor Qc)) :
  merge_grads (scale_grads a g) (scale_grads b g) = scale_grads (a + b) g.
Proof.
  unfold merge_grads, scale_grads.
  induction g as [|t g IH]; simpl; [done|]. rewrite IH. f_equal.
  induction t as [|x t IHt]; simpl; [done|].
  by rewrite IHt, Qcmult_plus_distr_r.
Qed.

Lemma strategy_merge_grads_replicate (r : nat) (a b : Qc)
    (g : list (tensor Qc)) :
  strategy_merge_grads (replicate r (scale_grads a g))
                       (replicate r (scale_grads b g))
  = replicate r (scale_grads (a + b) g).
Proof.
  unfold strategy_merge_grads. induction r as [|r IH]; simpl; [done|].
  by rewrite IH, merge_grads_scale.
Qed.

(** Summing over [r] replicas that all hold [b * g]. *)
Lemma gradient_aggregator_replicate (r : nat) (b : Qc)
    (g : list (tensor Qc)) :
  (0 < r)%nat →
  gradient_aggregator (replicate r (scale_grads b g))
  = scale_grads (b * Qc_of_Z (Z.of_nat r)) g.
Proof.
  destruct r as [|r]; [lia|]. intros _. simpl replicate. unfold gradient_aggregator.
  assert (Hfold : ∀ a, foldl merge_grads (scale_grads a g)
                         (replicate r (scale_grads b g))
                       = scale_grads (a + b * Qc_of_Z (Z.of_nat r)) g).
  { induction r as [|r IH]; intros a; cbn [replicate foldl].
    - change (Z.of_nat 0) with 0.
      by rewrite Z2Qc_inj_0, Qcmult_0_r, Qcplus_0_r.
    - rewrite merge_grads_scale, IH. f_equal.
      rewrite Nat2Z.inj_succ, <- Z.add_1_r, Z2Qc_inj_add, Z2Qc_inj_1. ring. }
  rewrite Hfold. f_equal.
  rewrite Nat2Z.inj_succ, <- Z.add_1_r, Z2Qc_inj_add, Z2Qc_inj_1. ring.
Qed.

Section Accumulation.

Context `{Substrate}.

Variables (g : list (tensor Qc)) (replicas : nat).
Hypothesis replicas_pos : (0 < replicas)%nat.

#[local] Abbreviation same_gradient_feed := (same_gradient_feed g replicas).
#[local] Abbreviation accumulated := (accumulated g replicas).

Lemma gradients_same (ws : list Weight) (feed : list batch) :
  Forall (λ b, (process_inner_loop ws b).2 = g) feed →
  map snd (map (process_inner_loop ws) feed) = replicate (length feed) g.
Proof.
  induction 1 as [|b feed Hb _ IH]; simpl; [done|]. by rewrite Hb, IH.
Qed.

Lemma run_inner_loop_same_gradient (s : TFProcess) (feed : list batch) :
  same_gradient_feed s feed →
  ∃ metrics, run_inner_loop feed s = (s, Ok (metrics, replicate replicas g)).
Proof.
  intros (Hg & Hlen & Hplain). unfold run_inner_loop.
  destruct (strategy s) as [n|].
  - eexists. unfold strategy_process_inner_loop.
    by rewrite (gradients_same _ _ Hg), Hlen.
  - rewrite (Hplain eq_refl) in Hlen.
    destruct feed as [|b [|? ?]]; simpl in Hlen; try lia.
    apply Forall_cons in Hg as [Hb _].
    destruct (process_inner_loop (weights s) b) as [metrics g'] eqn:E.
    simpl in Hb. subst g'. exists metrics. by rewrite (Hplain eq_refl).
Qed.

Lemma train_split_same_gradient (s : TFProcess) (feed : list batch)
    (rest : list (list batch)) (j : nat) :
  train_iter s = feed :: rest → same_gradient_feed s feed →
  ∃ ms, train_split (accumulated j) s
        = (set_train_metrics ms (set_train_iter rest s),
           Ok (accumulated (S j))).
Proof.
  intros Hiter Hfeed.
  assert (Hfeed' : same_gradient_feed (set_train_iter rest s) feed) by done.
  destruct (run_inner_loop_same_gradient _ feed Hfeed') as [metrics Hrun].
  unfold train_split, mbind at 1, next_train. rewrite Hiter.
  unfold mbind at 1. rewrite Hrun.
  eexists. unfold mbind, modify, ret. cbn beta iota. f_equal.
  do 2 f_equal. unfold accumulated.
  destruct j as [|j].
  - cbn [not_grads]. change (Z.of_nat 1) with 1.
    by rewrite Z2Qc_inj_1, scale_grads_1.
  - set (a := Qc_of_Z (Z.of_nat (S j))).
    replace (Qc_of_Z (Z.of_nat (S (S j)))) with (a + 1)%Qc.
    2: { unfold a. rewrite (Nat2Z.inj_succ (S j)), <- Z.add_1_r.
         by rewrite Z2Qc_inj_add, Z2Qc_inj_1. }
    pose proof (strategy_merge_grads_replicate replicas a 1 g) as Hmerge.
    rewrite scale_grads_1 in Hmerge.
    destruct replicas as [|r]; [lia|].
    destruct g as [|t g']; [done|].
    cbn [not_grads replicate scale_grads map default from_option id].
    f_equal. exact Hmerge.
Qed.

Lemma train_splits_same_gradient (n : nat) :
  ∀ (s : TFProcess) (feeds rest : list (list batch)) (j : nat),
    train_iter s = feeds ++ rest → length feeds = n →
    Forall (same_gradient_feed s) feeds →
    ∃ ms, train_splits n (accumulated j) s
          = (set_train_metrics ms (set_train_iter rest s),
             Ok (accumulated (j + n))).
Proof.
  induction n as [|n IH]; intros s feeds rest j Hiter Hlen Hfeeds.
  - destruct feeds; [|done]. simpl in Hiter.
    exists (train_metrics s). rewrite Nat.add_0_r. simpl. unfold ret.
    f_equal. destruct s; simpl in *; by subst.
  - destruct feeds as [|feed feeds]; [done|].
    apply Forall_cons in Hfeeds as [Hfeed Hfeeds].
    destruct (train_split_same_gradient s feed (feeds ++ rest) j Hiter Hfeed)
      as [ms Hsplit].
    cbn [train_splits]. unfold mbind at 1. rewrite Hsplit.
    destruct (IH (set_train_metrics ms (set_train_iter (feeds ++ rest) s))
                 feeds rest (S j)) as [ms' Hrest].
    + done.
    + simpl in Hlen. lia.
    + exact Hfeeds.
    + exists ms'. rewrite Hrest. by rewrite Nat.add_succ_r.
Qed.

End Accumulation.

Lemma Qc_ltb_lt (a b : Qc) : Qc_ltb a b = true ↔ (a < b)%Qc.
Proof.
  unfold Qc_ltb, Qclt. rewrite Qlt_alt. unfold Qccompare.
  destruct (a ?= b)%Q; split; intros E; done.
Qed.

Lemma Qc_min_mult_pos (a b z : Qc) :
  (0 < z)%Qc → Qc_min (a * z) (b * z) = (Qc_min a b * z)%Qc.
Proof.
  intros Hz. unfold Qc_min.
  destruct (Qc_ltb b a) eqn:E.
  - apply Qc_ltb_lt in E.
    apply (Qcmult_lt_mono_pos_r _ _ z Hz), Qc_ltb_lt in E. by rewrite E.
  - destruct (Qc_ltb (b * z) (a * z)) eqn:E'; [|done].
    apply Qc_ltb_lt, (Qcmult_lt_mono_pos_r _ _ z Hz), Qc_ltb_lt in E'.
    congruence.
Qed.

(** The clipping factor does not change when the norm and the bound are
    both multiplied by [k > 0]. *)
Lemma clip_scale_invariant (clip norm k : Qc) :
  (0 < k)%Qc →
  ((clip * k) * Qc_min (1 / (norm * k)) (1 / (clip * k)))%Qc
  = (clip * Qc_min (1 / norm) (1 / clip))%Qc.
Proof.
  intros Hk.
  assert (Hk0 : k ≠ 0%Qc) by (intros ->; by apply Qclt_not_eq in Hk).
  assert (Hinv : (0 < 1 / k)%Qc).
  { unfold Qcdiv. rewrite Qcmult_1_l. by apply Qcinv_pos. }
  replace (1 / (norm * k))%Qc with (1 / norm * (1 / k))%Qc.
  2: { unfold Qcdiv. rewrite Qcinv_mult_distr. ring. }
  replace (1 / (clip * k))%Qc with (1 / clip * (1 / k))%Qc.
  2: { unfold Qcdiv. rewrite Qcinv_mult_distr. ring. }
  rewrite Qc_min_mult_pos by done. field. exact Hk0.
Qed.

Lemma sgd_step_covariant (lr k : Qc) (v t : tensor Qc) :
  k ≠ 0%Qc →
  zip_with (λ vi gi, momentum * vi - lr / k * gi)%Qc v
           (map (λ x, x * k)%Qc t)
  = zip_with (λ vi gi, momentum * vi - lr * gi)%Qc v t.
Proof.
  intros Hk. revert t. induction v as [|vi v IH]; intros [|gi t]; simpl; try done.
  rewrite IH. f_equal. field. exact Hk.
Qed.

(** The default optimizer sees the gradient only through [lr * g]. *)
Lemma sgd_nesterov_covariant (lr k : Qc) (grads : list (tensor Qc))
    (st : list (tensor Qc) * list (tensor Qc)) :
  k ≠ 0%Qc →
  sgd_nesterov (lr / k) (scale_grads k grads) st = sgd_nesterov lr grads st.
Proof.
  intros Hk. destruct st as [slots values]. unfold sgd_nesterov.
  assert (Hslots :
    assign_zip (λ g v, zip_with (λ vi gi, momentum * vi - lr / k * gi)%Qc v g)
      (scale_grads k grads) slots
    = assign_zip (λ g v, zip_with (λ vi gi, momentum * vi - lr * gi)%Qc v g)
        grads slots).
  { revert slots. induction grads as [|t grads IH]; intros [|v slots];
      simpl; try done.
    by rewrite IH, sgd_step_covariant. }
  rewrite Hslots. clear Hslots. f_equal. f_equal.
  generalize (assign_zip
    (λ g v, zip_with (λ vi gi, momentum * vi - lr * gi)%Qc v g) grads slots).
  intros slots'. revert slots'. unfold scale_grads.
  induction grads as [|t grads IH]; intros [|v slots']; simpl; try done.
  by rewrite IH, sgd_step_covariant.
Qed.

Lemma report_due_ok (steps : Z) (c : Cfg) :
  train_avg_report_steps c ≠ 0 → total_steps c ≠ 0 →
  ∃ b, report_due steps c = Ok b.
Proof.
  intros H1 H2. unfold report_due, py_mod, bind.
  destruct (Z.eqb_spec (train_avg_report_steps c) 0); [done|].
  destruct (_ =? 0); [by eexists|].
  destruct (Z.eqb_spec (total_steps c) 0); [done|]. by eexists.
Qed.

Section ApplyScaled.

Context `{Substrate}.
Hypothesis global_norm_scale : ∀ (k : Qc) (gr : list (tensor Qc)),
  (0 < k)%Qc → global_norm (scale_grads k gr) = (global_norm gr * k)%Qc.
Hypothesis default_optimizer : ∀ lr gr st,
  apply_gradients lr gr st = sgd_nesterov lr gr st.

(** Applying [replicas] copies of [n * g] at [lr0 / (n * replicas)],
    clipped at [effective] times the bound, is applying [g] at [lr0],
    clipped at the bound. *)
Lemma apply_grads_accumulated (s : TFProcess) (g : list (tensor Qc))
    (lr0 : Qc) (n : Z) (replicas : nat) :
  0 < n → (0 < replicas)%nat →
  active_lr s = (lr0 / Qc_of_Z (n * Z.of_nat replicas))%Qc →
  let bound := default (Qc_of_Z 10000) (max_grad_norm (cfg s)) in
  let after := sgd_nesterov lr0 (clip_by_global_norm g bound).1
                 (slots s, trainable_values (weights s)) in
  ∃ norm,
    apply_grads (Some (replicate replicas (scale_grads (Qc_of_Z n) g)))
                (n * Z.of_nat replicas) s
    = (set_slots after.1
         (set_weights (assign_trainable after.2 (weights s)) s), Ok norm).
Proof.
  intros Hn Hr Hlr bound after.
  set (k := Qc_of_Z (n * Z.of_nat replicas)).
  assert (Hk : (0 < k)%Qc).
  { unfold k. rewrite <- Z2Qc_inj_0. apply (proj1 (Z2Qc_inj_lt 0 _)).
    apply Z.mul_pos_pos; lia. }
  assert (Hk0 : k ≠ 0%Qc) by (intros E; rewrite E in Hk; by apply Qclt_not_eq in Hk).
  unfold apply_grads, mbind, gets, modify, ret.
  rewrite gradient_aggregator_replicate by done.
  rewrite <- Z2Qc_inj_mul. fold k. fold bound.
  unfold clip_by_global_norm. rewrite global_norm_scale by done.
  rewrite clip_scale_invariant by done.
  set (c := (bound * Qc_min (1 / global_norm g) (1 / bound))%Qc).
  eexists.
  rewrite default_optimizer, Hlr. fold k.
  rewrite scale_grads_scale.
  rewrite (Qcmult_comm k c), <- (scale_grads_scale k c).
  rewrite sgd_nesterov_covariant by done.
  subst after. unfold clip_by_global_norm. cbn [fst]. fold c.
  by destruct (sgd_nesterov lr0 (scale_grads c g)
                 (slots s, trainable_values (weights s))).
Qed.

End ApplyScaled.


Lemma l1_norm_scale (k : Qc) (g : list (tensor Qc)) :
  (0 < k)%Qc → l1_norm (scale_grads k g) = (l1_norm g * k)%Qc.
Proof.
  intros Hk. unfold l1_norm, scale_grads.
  induction g as [|t g IH]; simpl.
  - by rewrite Qcmult_0_l.
  - rewrite IH, Qcmult_plus_distr_l. f_equal.
    clear IH. induction t as [|x t IHt]; simpl.
    + by rewrite Qcmult_0_l.
    + rewrite IHt, Qcmult_plus_distr_l. f_equal.
      rewrite Qcabs_Qcmult. f_equal. apply Qcabs_pos. by apply Qclt_le_weak.
Qed.


Lemma policy_loss_ignores_illegal_logits_witness :
  @policy_loss toy_substrate sample_cfg
    [[1%Qc; (-1)%Qc; 0%Qc]] [[Qc_of_Z 2; Qc_of_Z 5; Qc_of_Z 3]]
  = @policy_loss toy_substrate sample_cfg
    [[1%Qc; (-1)%Qc; 0%Qc]] [[Qc_of_Z 2; Qc_of_Z 7; Qc_of_Z 3]].
Proof.
  apply (@policy_loss_ignores_illegal_logits toy_substrate).
  - reflexivity.
  - apply Forall3_cons; [|apply Forall3_nil].
    split; [reflexivity|].
    intros i t Hi Ht.
    destruct i as [|[|[|i]]]; simpl in Hi; try discriminate; try reflexivity.
    injection Hi as <-. exfalso. revert Ht. vm_compute. intros Ht. by apply Ht.
Defined.

(** ** Evaluation passes *)

Lemma mbind_keeps {A B X} (f : TFProcess → X) (m : M A) (k : A → M B) :
  (∀ s, f (m s).1 = f s) → (∀ a s, f (k a s).1 = f s) →
  ∀ s, f (mbind m k s).1 = f s.
Proof.
  intros Hm Hk s. unfold mbind. specialize (Hm s).
  destruct (m s) as [s' [a|e]]; simpl in *; [|done].
  by rewrite Hk.
Qed.

Lemma for_range_keeps {X} (f : TFProcess → X) (body : M unit) (n : nat) :
  (∀ s, f (body s).1 = f s) → ∀ s, f (for_range n body s).1 = f s.
Proof.
  intros Hbody. induction n as [|n IH]; intros s; simpl; [done|].
  apply mbind_keeps; [exact Hbody | intros _; exact IH].
Qed.

Section EvaluationFacts.

Context `{Substrate}.

Lemma test_batch_frame (s : TFProcess) : frame (test_batch s).1 = frame s.
Proof.
  unfold test_batch. apply mbind_keeps.
  - intros s0. unfold next_test. by destruct (test_iter s0).
  - intros feed s0. apply mbind_keeps; [|done].
    intros s1. unfold run_test_inner_loop.
    destruct (strategy s1); [done|]. by destruct feed as [|? [|? ?]].
Qed.

(** A test pass, however it ends, leaves the weights, the shadow
    weights, the writers and the strategy as they were. *)
Lemma calculate_test_summaries_frame (test_batches steps : Z)
    (s : TFProcess) :
  frame (calculate_test_summaries test_batches steps s).1 = frame s.
Proof.
  unfold calculate_test_summaries.
  repeat (apply mbind_keeps; [|intros ?]);
    try done; try (intros ?; done).
  - apply for_range_keeps, test_batch_frame.
Qed.

End EvaluationFacts.

Lemma assign_zip_restore (vals : list (tensor Qc)) (ws : list Weight) :
  assign_zip assign (map w_value ws) (assign_zip assign vals ws) = ws.
Proof.
  revert vals. induction ws as [|w ws IH]; intros [|v vals]; simpl; try done.
  - f_equal; [by destruct w|]. apply (IH []).
  - f_equal; [by destruct w|]. apply IH.
Qed.

Section SwapRestore.

Context `{Substrate}.

Lemma calculate_swa_summaries_outcome (test_batches steps : Z)
    (s s' : TFProcess) (r : result unit) :
  calculate_swa_summaries test_batches steps s = (s', r) →
  swa_weights s' = swa_weights s ∧
  (r = Ok tt → weights s' = weights s ∧ test_writer s' = test_writer s).
Proof.
  unfold calculate_swa_summaries.
  unfold mbind at 1. unfold gets at 1.
  unfold mbind at 1. unfold the_swa_weights.
  destruct (swa_weights s) as [swa|] eqn:Eswa.
  2: { injection 1 as <- <-. done. }
  unfold mbind at 1. unfold assign_weights at 1, modify at 1.
  unfold mbind at 1. unfold gets at 1.
  unfold mbind at 1. unfold modify at 1.
  unfold mbind at 1. unfold print at 1, modify at 1.
  set (s2 := set_stdout _ _).
  pose proof (calculate_test_summaries_frame test_batches steps s2) as Hfr.
  unfold mbind at 1.
  destruct (calculate_test_summaries test_batches steps s2) as [s3 [[]|e]];
    unfold frame in Hfr; simpl in Hfr;
    injection Hfr as Hw Hswa Htw Hsw Hstr.
  - unfold mbind, modify, assign_weights, modify. cbn beta iota.
    injection 1 as <- <-. simpl.
    split; [by rewrite Hswa|]. intros _. split; [|done].
    rewrite Hw. apply assign_zip_restore.
  - injection 1 as <- <-. split; [by rewrite Hswa | done].
Qed.

Lemma save_swa_weights_outcome (filename : string) (s s' : TFProcess)
    (r : result unit) :
  save_swa_weights filename s = (s', r) →
  swa_weights s' = swa_weights s ∧ (r = Ok tt → weights s' = weights s).
Proof.
  unfold save_swa_weights.
  unfold mbind at 1. unfold gets at 1.
  unfold mbind at 1. unfold the_swa_weights.
  destruct (swa_weights s) as [swa|] eqn:Eswa.
  2: { injection 1 as <- <-. done. }
  unfold mbind at 1. unfold assign_weights at 1, modify at 1.
  unfold mbind at 1. unfold save_leelaz_weights, mbind at 1, gets.
  destruct (save_proto filename); simpl.
  - injection 1 as <- <-. simpl. split; [done|]. intros _.
    apply assign_zip_restore.
  - injection 1 as <- <-. done.
Qed.

(** C6 (amended). [calculate_swa_summaries] and [save_swa_weights] never
    modify the SWA shadow weights, and when they complete without an
    exception every live weight has the value it had before the call
    (and the test writer is back in place). *)
Theorem swa_evaluation_restores_on_completion (test_batches steps : Z)
    (filename : string) (s : TFProcess) :
  let summaries_run := calculate_swa_summaries test_batches steps s in
  let save_run := save_swa_weights filename s in
  swa_weights summaries_run.1 = swa_weights s ∧
  swa_weights save_run.1 = swa_weights s ∧
  (summaries_run.2 = Ok tt →
     weights summaries_run.1 = weights s ∧
     test_writer summaries_run.1 = test_writer s) ∧
  (save_run.2 = Ok tt → weights save_run.1 = weights s).
Proof.
  intros summaries_run save_run.
  destruct summaries_run as [s1 r1] eqn:E1, save_run as [s2 r2] eqn:E2.
  apply calculate_swa_summaries_outcome in E1 as [H1 H2].
  apply save_swa_weights_outcome in E2 as [H3 H4]. done.
Qed.

End SwapRestore.

(** C6, as stated. With one test batch left and two requested, the test
    pass raises [StopIteration] and [calculate_swa_summaries] ends with
    the SWA values still in the live weights; [save_swa_weights] does the
    same when the file cannot be written. *)
Lemma swa_evaluation_exception_leaves_swa_weights :
  let summaries_run := @calculate_swa_summaries toy_substrate 2 0 sample_swa in
  let save_run := @save_swa_weights toy_substrate "" sample_swa in
  read_weights sample_swa = [[1%Qc; Qc_of_Z 2]] ∧
  summaries_run.2 = Raise StopIteration ∧
  read_weights summaries_run.1 = [[Qc_of_Z 3; Qc_of_Z 4]] ∧
  test_writer summaries_run.1 = SwaWriter ∧
  save_run.2 = Raise OSError ∧
  read_weights save_run.1 = [[Qc_of_Z 3; Qc_of_Z 4]] ∧
  weights summaries_run.1 ≠ weights sample_swa ∧
  weights save_run.1 ≠ weights sample_swa.
Proof.
  repeat split; try reflexivity; vm_compute; discriminate.
Qed.

Lemma swa_evaluation_restores_on_completion_witness :
  let summaries_run := @calculate_swa_summaries toy_substrate 1 0 sample_swa in
  let save_run := @save_swa_weights toy_substrate "swa.pb.gz" sample_swa in
  summaries_run.2 = Ok tt ∧ save_run.2 = Ok tt ∧
  weights summaries_run.1 = weights sample_swa ∧
  weights save_run.1 = weights sample_swa.
Proof.
  intros summaries_run save_run.
  assert (E1 : summaries_run.2 = Ok tt) by reflexivity.
  assert (E2 : save_run.2 = Ok tt) by reflexivity.
  destruct (@swa_evaluation_restores_on_completion toy_substrate 1 0
              "swa.pb.gz" sample_swa) as (_ & _ & H1 & H2).
  split; [exact E1|]. split; [exact E2|].
  split; [exact (proj1 (H1 E1)) | exact (H2 E2)].
Defined.

(** ** Test batches *)

Lemma assign_zip_length {A B} (f : A → B → B) (src : list A) (dst : list B) :
  length (assign_zip f src dst) = length dst.
Proof.
  revert dst. induction src as [|a src IH]; intros [|b dst]; simpl; try done.
  by rewrite IH.
Qed.

Section TestBatches.

Context `{Substrate}.

Lemma test_batch_consumes (s : TFProcess) (feed : list batch)
    (rest : list (list batch)) :
  test_iter s = feed :: rest → (strategy s = None → length feed = 1%nat) →
  ∃ ms, test_batch s = (set_test_metrics ms (set_test_iter rest s), Ok tt) ∧
        length ms = length (test_metrics s).
Proof.
  intros Hiter Hfeed. unfold test_batch, mbind at 1, next_test. rewrite Hiter.
  unfold mbind at 1, run_test_inner_loop.
  change (strategy (set_test_iter rest s)) with (strategy s).
  destruct (strategy s) as [n|].
  - eexists. split; [reflexivity|]. apply assign_zip_length.
  - destruct feed as [|b [|? ?]]; try (specialize (Hfeed eq_refl); done).
    eexists. split; [reflexivity|]. apply assign_zip_length.
Qed.

Lemma for_range_test_batch_consumes (n : nat) :
  ∀ (s : TFProcess) (feeds rest : list (list batch)),
    test_iter s = feeds ++ rest → length feeds = n → single_tuples s feeds →
    ∃ ms, for_range n test_batch s
          = (set_test_metrics ms (set_test_iter rest s), Ok tt) ∧
          length ms = length (test_metrics s).
Proof.
  induction n as [|n IH]; intros s feeds rest Hiter Hlen Hone.
  - destruct feeds; [|done]. simpl in Hiter.
    exists (test_metrics s). split; [|done]. simpl. unfold ret.
    f_equal. destruct s; simpl in *; by subst.
  - destruct feeds as [|feed feeds]; [done|].
    destruct (test_batch_consumes s feed (feeds ++ rest) Hiter)
      as (ms & Hstep & Hms).
    { intros E. specialize (Hone E). by apply Forall_cons in Hone as [? _]. }
    cbn [for_range]. unfold mbind at 1. rewrite Hstep.
    destruct (IH (set_test_metrics ms (set_test_iter (feeds ++ rest) s))
                 feeds rest) as (ms' & Hrest & Hms').
    + done.
    + simpl in Hlen. lia.
    + intros E. specialize (Hone E). by apply Forall_cons in Hone as [_ ?].
    + exists ms'. split; [exact Hrest|]. simpl in Hms'. congruence.
Qed.

(** A test pass with enough batches at hand completes and takes exactly
    [test_batches] of them from the iterator. *)
Lemma calculate_test_summaries_consumes (test_batches steps : Z)
    (s : TFProcess) (feeds rest : list (list batch)) :
  (5 ≤ length (test_metrics s))%nat →
  test_iter s = feeds ++ rest → length feeds = Z.to_nat test_batches →
  single_tuples s feeds →
  ∃ s', calculate_test_summaries test_batches steps s = (s', Ok tt) ∧
        test_iter s' = rest ∧
        length (test_metrics s') = length (test_metrics s).
Proof.
  intros Hm Hiter Hlen Hone.
  unfold calculate_test_summaries. unfold mbind at 1, modify at 1.
  set (s0 := set_test_metrics _ s).
  destruct (for_range_test_batch_consumes (Z.to_nat test_batches) s0 feeds rest)
    as (ms & Hloop & Hms); [done | done | done |].
  unfold mbind at 1. rewrite Hloop.
  assert (Hms5 : (5 ≤ length ms)%nat).
  { rewrite Hms. unfold s0. simpl. by rewrite length_map. }
  destruct (lookup_lt_is_Some_2 ms 3%nat ltac:(lia)) as [m3 E3].
  destruct (lookup_lt_is_Some_2 ms 0%nat ltac:(lia)) as [m0 E0].
  destruct (lookup_lt_is_Some_2 ms 4%nat ltac:(lia)) as [m4 E4].
  unfold mbind, gets, set_pb, modify, test_metric. cbn beta iota. simpl.
  rewrite E3, E0, E4. eexists. split; [reflexivity|]. simpl.
  split; [done|]. rewrite Hms. unfold s0. simpl. by rewrite length_map.
Qed.

Lemma calculate_swa_summaries_consumes (test_batches steps : Z)
    (s : TFProcess) (swa : list (tensor Qc)) (feeds rest : list (list batch)) :
  swa_weights s = Some swa →
  (5 ≤ length (test_metrics s))%nat →
  test_iter s = feeds ++ rest → length feeds = Z.to_nat test_batches →
  single_tuples s feeds →
  ∃ s', calculate_swa_summaries test_batches steps s = (s', Ok tt) ∧
        test_iter s' = rest.
Proof.
  intros Hswa Hm Hiter Hlen Hone.
  unfold calculate_swa_summaries.
  unfold mbind at 1. unfold gets at 1.
  unfold mbind at 1. unfold the_swa_weights. rewrite Hswa.
  unfold mbind at 1. unfold assign_weights at 1, modify at 1.
  unfold mbind at 1. unfold gets at 1.
  unfold mbind at 1. unfold modify at 1.
  unfold mbind at 1. unfold print at 1, modify at 1.
  set (s2 := set_stdout _ _).
  destruct (calculate_test_summaries_consumes test_batches steps s2 feeds rest)
    as (s3 & Hrun & Hrest & _); [done | done | done | done |].
  unfold mbind at 1. rewrite Hrun.
  eexists. split; [reflexivity|]. exact Hrest.
Qed.

End TestBatches.



(** ** The batch size check *)

(** C8, on the code. With a virtual batch size configured and a batch
    size that is not a multiple of it, [process_loop] stops before any
    step, but on the read of [self.virtual_batch_sizes], an attribute no
    statement assigns: the exception is an [AttributeError], and no
    [ValueError] with the required multiple is raised. A conforming
    batch size passes the check. *)
Theorem process_loop_nonconforming_batch_size `{Substrate} (s : TFProcess)
    (v batch_size test_batches batch_splits : Z) :
  virtual_batch_size s = Some v → v ≠ 0 →
  (batch_size mod v ≠ 0 →
   process_loop batch_size test_batches batch_splits s
   = (s, Raise (AttributeError "virtual_batch_sizes"))) ∧
  (batch_size mod v = 0 → check_virtual_batch_size batch_size s = (s, Ok tt)).
Proof.
  intros Hv Hv0. split; intros Hmod.
  - unfold process_loop, mbind at 1, gets at 1.
    unfold mbind at 1, check_virtual_batch_size, mbind at 1, gets at 1.
    rewrite Hv.
    destruct (Z.eqb_spec v 0) as [|_]; [done|].
    destruct (Z.eqb_spec (batch_size mod v) 0) as [|_]; [done|].
    reflexivity.
  - unfold check_virtual_batch_size, mbind at 1, gets at 1. rewrite Hv.
    destruct (Z.eqb_spec v 0) as [|_]; [done|].
    destruct (Z.eqb_spec (batch_size mod v) 0) as [_|]; [|done].
    reflexivity.
Qed.

Lemma process_loop_nonconforming_batch_size_witness :
  let s := {| cfg := sample_cfg; swa_enabled := false; swa_max_n := 0%Qc;
              virtual_batch_size := Some 64; strategy := None;
              POLICY_HEAD := 0; VALUE_HEAD := 0; weights := [];
              swa_weights := None; swa_count := 0%Qc; slots := [];
              active_lr := Q2Qc (1 # 100); lr := 0%Qc; warmup_steps := 0;
              global_step := 0; train_metrics := train_metrics_init;
              test_metrics := test_metrics_init; train_iter := [];
              test_iter := []; test_writer := TestWriter;
              swa_writer := SwaWriter; summaries := []; saved := [];
              stdout := []; net := sample_net |} in
  @process_loop toy_substrate 100 4 1 s
  = (s, Raise (AttributeError "virtual_batch_sizes")).
Proof.
  intros s.
  apply (@process_loop_nonconforming_batch_size toy_substrate s 64 100 4 1).
  - reflexivity.
  - lia.
  - vm_compute. discriminate.
Defined.

(** ** Loading weights *)

Lemma load_weight_strict (h f : Z) (nw : gmap string (list Qc)) (w : Weight) :
  (fatal nw w = true ∧
   ∃ msg, load_weight false h f nw w = Raise (KeyError msg)) ∨
  (fatal nw w = false ∧ load_weight false h f nw w = Ok (loaded h f nw w, [])).
Proof.
  unfold load_weight, fatal, loaded, mismatched.
  destruct (contains "renorm" (w_name w)); simpl; [by right|].
  destruct (nw !! w_name w) as [v|]; simpl.
  - destruct (shape_size (w_shape w) =? Z.of_nat (length v)); simpl.
    + by right.
    + left. split; [done|]. by eexists.
  - left. split; [done|]. by eexists.
Qed.

Lemma load_weight_lenient (h f : Z) (nw : gmap string (list Qc)) (w : Weight) :
  load_weight true h f nw w
  = Ok (loaded h f nw w, if fatal nw w then [mismatch_line nw w] else []).
Proof.
  unfold load_weight, fatal, loaded, mismatched, mismatch_line.
  destruct (contains "renorm" (w_name w)); simpl; [done|].
  destruct (nw !! w_name w) as [v|]; simpl; [|done].
  by destruct (shape_size (w_shape w) =? Z.of_nat (length v)).
Qed.

Lemma load_weights_strict (h f : Z) (nw : gmap string (list Qc))
    (ws : list Weight) :
  ((load_weights false h f nw ws).2 = None ∧
   (load_weights false h f nw ws).1.1 = map (loaded h f nw) ws ∧
   ∀ w, w ∈ ws → fatal nw w = false) ∨
  ((∃ msg, (load_weights false h f nw ws).2 = Some (KeyError msg)) ∧
   ∃ w, w ∈ ws ∧ fatal nw w = true).
Proof.
  induction ws as [|w ws IH]; cbn [load_weights].
  - left. split; [done|]. split; [done|]. intros w Hw. by apply elem_of_nil in Hw.
  - destruct (load_weight_strict h f nw w) as [(Hf & msg & ->)|(Hf & ->)].
    + right. split; [by exists msg|]. exists w. split; [apply list_elem_of_here | done].
    + destruct (load_weights false h f nw ws) as [[ws' lines] e].
      simpl in IH. simpl.
      destruct IH as [(-> & -> & Hall)|((msg & ->) & w' & Hw' & Hf')].
      * left. split; [done|]. split; [done|].
        intros w0 [->|Hw0]%elem_of_cons; [done | by apply Hall].
      * right. split; [by exists msg|]. exists w'.
        split; [by apply list_elem_of_further | done].
Qed.

Lemma load_weights_lenient (h f : Z) (nw : gmap string (list Qc))
    (ws : list Weight) :
  load_weights true h f nw ws
  = (map (loaded h f nw) ws,
     concat (map (λ w, if fatal nw w then [mismatch_line nw w] else []) ws),
     None).
Proof.
  induction ws as [|w ws IH]; cbn [load_weights]; [done|].
  by rewrite load_weight_lenient, IH.
Qed.

Lemma update_swa_completes (s : TFProcess) :
  is_Some (swa_weights s) →
  ∃ s', update_swa s = (s', Ok tt) ∧ weights s' = weights s ∧
        stdout s' = stdout s.
Proof.
  intros [swa Hswa]. unfold update_swa, mbind, gets, the_swa_weights, modify.
  rewrite Hswa. cbn beta iota.
  destruct (update_swa_values _ _ _ _) as [swa' n']. by eexists.
Qed.

Section ReplaceWeights.

Context `{Substrate}.
Variables (s : TFProcess) (proto : Net).
Hypothesis swa_ready : swa_enabled s = true → is_Some (swa_weights s).

#[local] Abbreviation new_weights :=
  (get_weights_v2 proto (map w_name (weights s))).
#[local] Abbreviation hectoplies := INPUT_112_WITH_CANONICALIZATION_HECTOPLIES.

Lemma replace_weights_strict_outcome (s' : TFProcess) (r : result unit) :
  POLICY_HEAD s = pb_policy proto → VALUE_HEAD s = pb_value proto →
  replace_weights proto false s = (s', r) →
  (r = Ok tt ∧
   weights s' = map (loaded hectoplies (pb_input proto) new_weights) (weights s) ∧
   ∀ w, w ∈ weights s → fatal new_weights w = false) ∨
  ((∃ msg, r = Raise (KeyError msg)) ∧
   ∃ w, w ∈ weights s ∧ fatal new_weights w = true).
Proof.
  intros Hpol Hval. unfold replace_weights.
  unfold mbind at 1, modify at 1.
  unfold mbind at 1, gets at 1. unfold mbind at 1, gets at 1.
  cbn [negb POLICY_HEAD VALUE_HEAD set_net].
  rewrite Hpol, Hval, !Z.eqb_refl. cbn [negb].
  unfold mbind at 1, ret at 1.
  unfold mbind at 1, gets at 1. unfold mbind at 1, gets at 1.
  cbn [weights set_net].
  destruct (load_weights_strict hectoplies (pb_input proto) new_weights
              (weights s)) as [(He & Hws & Hall)|((msg & He) & w & Hw & Hf)].
  - destruct (load_weights false _ _ _ _) as [[ws' lines] e].
    simpl in He, Hws. subst e ws'.
    unfold mbind at 1, modify at 1. unfold mbind at 1, modify at 1.
    unfold mbind at 1, gets at 1.
    cbn [swa_enabled set_stdout set_weights set_net].
    destruct (swa_enabled s) eqn:Eswa.
    + unfold mbind at 1, modify at 1.
      match goal with |- context [update_swa ?st] =>
        destruct (update_swa_completes st) as (s1 & -> & Hw' & _) end.
      { exact (swa_ready eq_refl). }
      injection 1 as <- <-. left. split; [done|]. split; [|done].
      by rewrite Hw'.
    + unfold ret. injection 1 as <- <-. left. done.
  - destruct (load_weights false _ _ _ _) as [[ws' lines] e].
    simpl in He. subst e.
    unfold mbind, modify, throw. cbn beta iota.
    injection 1 as <- <-. right. split; [by exists msg | by exists w].
Qed.

Lemma replace_weights_lenient_outcome :
  ∃ s', replace_weights proto true s = (s', Ok tt) ∧
        weights s'
        = map (loaded hectoplies (pb_input proto) new_weights) (weights s) ∧
        stdout s'
        = stdout s ++
          concat (map (λ w, if fatal new_weights w
                            then [mismatch_line new_weights w] else [])
                    (weights s)).
Proof.
  unfold replace_weights.
  unfold mbind at 1, modify at 1.
  unfold mbind at 1, gets at 1. unfold mbind at 1, gets at 1.
  cbn [negb]. unfold mbind at 1, ret at 1.
  unfold mbind at 1, gets at 1. unfold mbind at 1, gets at 1.
  cbn [weights set_net].
  rewrite load_weights_lenient.
  unfold mbind at 1, modify at 1. unfold mbind at 1, modify at 1.
  unfold mbind at 1, gets at 1.
  cbn [swa_enabled set_stdout set_weights set_net].
  destruct (swa_enabled s) eqn:Eswa.
  - unfold mbind at 1, modify at 1.
    match goal with |- context [update_swa ?st] =>
      destruct (update_swa_completes st) as (s1 & -> & Hw' & Hout) end.
    { exact (swa_ready eq_refl). }
    exists s1. split; [done|]. by rewrite Hw', Hout.
  - eexists. split; [reflexivity|]. done.
Qed.

End ReplaceWeights.

(** C7 (amended). Among the tensors whose name does not contain
    "renorm" (those are never loaded), [replace_weights] with
    [ignore_errors] false raises, with a [KeyError], exactly when some
    tensor has no value in the protobuf or a value of the wrong size;
    with [ignore_errors] true it does not raise, prints one line for each
    such tensor and leaves it at its prior value, and assigns every other
    tensor its (transposed) value from the protobuf. *)
Theorem replace_weights_mismatch `{Substrate} (s : TFProcess) (proto : Net) :
  (swa_enabled s = true → is_Some (swa_weights s)) →
  let new_weights := get_weights_v2 proto (map w_name (weights s)) in
  let hectoplies := INPUT_112_WITH_CANONICALIZATION_HECTOPLIES in
  let strict := replace_weights proto false s in
  let lenient := replace_weights proto true s in
  (POLICY_HEAD s = pb_policy proto → VALUE_HEAD s = pb_value proto →
   (raises strict.2 = true ↔ ∃ w, w ∈ weights s ∧ fatal new_weights w = true) ∧
   (∀ e, strict.2 = Raise e → ∃ msg, e = KeyError msg) ∧
   (strict.2 = Ok tt →
    weights strict.1
    = map (loaded hectoplies (pb_input proto) new_weights) (weights s))) ∧
  lenient.2 = Ok tt ∧
  weights lenient.1
  = map (loaded hectoplies (pb_input proto) new_weights) (weights s) ∧
  stdout lenient.1
  = stdout s ++
    concat (map (λ w, if fatal new_weights w
                      then [mismatch_line new_weights w] else [])
              (weights s)).
Proof.
  intros Hswa new_weights hectoplies strict lenient. split.
  - intros Hpol Hval. destruct strict as [s1 r1] eqn:E.
    destruct (replace_weights_strict_outcome s proto Hswa s1 r1 Hpol Hval E)
      as [(-> & Hws & Hall)|((msg & ->) & w & Hw & Hf)]; simpl.
    + split; [|split; [intros e He; discriminate He | done]].
      split; [done|]. intros (w & Hw & Hf). rewrite Hall in Hf; done.
    + split; [|split; [|done]].
      * split; [|done]. intros _. by exists w.
      * intros e [= <-]. by exists msg.
  - destruct (replace_weights_lenient_outcome s proto Hswa) as (s2 & E & Hw & Hout).
    subst lenient. rewrite E. done.
Qed.

(** C7, as stated. The model has a tensor named [bn/renorm_mean:0] that
    has no value in the protobuf: with [ignore_errors] false nothing is
    raised, and the tensor is not assigned either way. *)
Lemma replace_weights_renorm_not_fatal :
  let new_weights :=
    get_weights_v2 sample_proto (map w_name (weights sample_loading)) in
  let strict := @replace_weights toy_substrate sample_proto false sample_loading in
  (∃ w, w ∈ weights sample_loading ∧ mismatched new_weights w = true) ∧
  strict.2 = Ok tt ∧
  read_weights strict.1 = [[0%Qc; 0%Qc]; [Qc_of_Z 5; Qc_of_Z 6]].
Proof.
  split; [|split; reflexivity].
  eexists. split; [apply list_elem_of_here | reflexivity].
Qed.

Lemma replace_weights_mismatch_witness :
  let s := set_weights
             [mkWeight "dense/kernel:0" [2; 1] true [0%Qc; 0%Qc];
              mkWeight "dense/bias:0" [3] true [0%Qc; 0%Qc; 0%Qc]]
             sample_swa in
  let strict := @replace_weights toy_substrate sample_proto false s in
  let lenient := @replace_weights toy_substrate sample_proto true s in
  raises strict.2 = true ∧ lenient.2 = Ok tt ∧
  read_weights lenient.1 = [[Qc_of_Z 5; Qc_of_Z 6]; [0%Qc; 0%Qc; 0%Qc]] ∧
  stdout lenient.1 = ["No values for tensor dense/bias:0 in protobuf"].
Proof.
  intros s strict lenient.
  destruct (@replace_weights_mismatch toy_substrate s sample_proto)
    as (Hstrict & Hok & Hws & Hout).
  - intros _. by eexists.
  - destruct (Hstrict eq_refl eq_refl) as (Hraise & _ & _).
    split.
    + apply Hraise. eexists. split; [apply list_elem_of_further, list_elem_of_here|].
      reflexivity.
    + split; [exact Hok|]. split.
      * unfold read_weights. fold lenient in Hws. rewrite Hws. reflexivity.
      * fold lenient in Hout. rewrite Hout. reflexivity.
Defined.

(** ** The global step *)

Lemma mbind_inv {A B} (m : M A) (k : A → M B) (s s' : TFProcess)
    (r : result B) :
  mbind m k s = (s', r) →
  (∃ s1 a, m s = (s1, Ok a) ∧ k a s1 = (s', r)) ∨
  (∃ e, m s = (s', Raise e) ∧ r = Raise e).
Proof.
  unfold mbind. destruct (m s) as [s1 [a|e]]; intros E.
  - left. by exists s1, a.
  - right. injection E as <- <-. by exists e.
Qed.

Section StepFacts.

Context `{Substrate}.

Lemma train_split_keeps {X} (f : TFProcess → X) grads :
  (∀ v s, f (set_train_iter v s) = f s) →
  (∀ v s, f (set_train_metrics v s) = f s) →
  ∀ s, f (train_split grads s).1 = f s.
Proof.
  intros Hi Hm. unfold train_split. apply mbind_keeps.
  - intros s. unfold next_train. destruct (train_iter s); [done|]. apply Hi.
  - intros feed s. apply mbind_keeps.
    + intros s0. unfold run_inner_loop. destruct (strategy s0); [done|].
      destruct feed as [|b [|? ?]]; try done.
      by destruct (process_inner_loop (weights s0) b).
    + intros [metrics new_grads] s0. apply mbind_keeps; [|done].
      intros s1. apply Hm.
Qed.

Lemma train_splits_keeps {X} (f : TFProcess → X) (n : nat) :
  (∀ v s, f (set_train_iter v s) = f s) →
  (∀ v s, f (set_train_metrics v s) = f s) →
  ∀ grads s, f (train_splits n grads s).1 = f s.
Proof.
  intros Hi Hm. induction n as [|n IH]; intros grads s; simpl; [done|].
  apply mbind_keeps; [by apply train_split_keeps | intros; apply IH].
Qed.

Lemma apply_grads_keeps {X} (f : TFProcess → X) grads eff :
  (∀ v s, f (set_weights v s) = f s) →
  (∀ v s, f (set_slots v s) = f s) →
  ∀ s, f (apply_grads grads eff s).1 = f s.
Proof.
  intros Hw Hs s. unfold apply_grads. destruct grads as [per_replica|]; [|done].
  unfold mbind, gets, modify, ret. cbn beta iota.
  destruct (clip_by_global_norm _ _) as [g n]. cbn beta iota.
  destruct (apply_gradients _ _ _) as [slots' values']. simpl.
  by rewrite Hs, Hw.
Qed.

Lemma apply_grads_raise (grads : option (list (list (tensor Qc)))) eff
    (s s' : TFProcess) (e : exn) :
  apply_grads grads eff s = (s', Raise e) → s' = s.
Proof.
  unfold apply_grads. destruct grads as [per_replica|].
  - unfold mbind, gets, modify, ret. cbn beta iota.
    destruct (clip_by_global_norm _ _) as [g n]. cbn beta iota.
    destruct (apply_gradients _ _ _) as [slots' values']. discriminate.
  - by injection 1 as <- _.
Qed.

Lemma train_step_outcome (steps batch_size batch_splits : Z)
    (s s' : TFProcess) (r : result Z) :
  train_step steps batch_size batch_splits s = (s', r) →
  untouched_by_training s' = untouched_by_training s ∧
  match r with
  | Ok n => n = global_step s + 1 ∧ global_step s' = global_step s + 1
  | Raise e =>
      (global_step s' = global_step s ∧ weights s' = weights s ∧
       slots s' = slots s) ∨
      (global_step s' = global_step s + 1 ∧
       report_due (global_step s + 1) (cfg s) = Raise e ∧
       ∃ b, report_due (steps + 1) (cfg s) = Ok b)
  end.
Proof.
  unfold train_step.
  unfold mbind at 1, gets at 1.
  unfold mbind at 1, lift at 1.
  destruct (report_due (steps + 1) (cfg s)) as [b1|e1] eqn:Eb1.
  2: { injection 1 as <- <-. split; [done|]. by left. }
  unfold mbind at 1.
  pose proof (train_splits_keeps untouched_by_training
    (Z.to_nat batch_splits) ltac:(done) ltac:(done) None s) as Hu.
  pose proof (train_splits_keeps global_step
    (Z.to_nat batch_splits) ltac:(done) ltac:(done) None s) as Hg.
  pose proof (train_splits_keeps weights
    (Z.to_nat batch_splits) ltac:(done) ltac:(done) None s) as Hw.
  pose proof (train_splits_keeps slots
    (Z.to_nat batch_splits) ltac:(done) ltac:(done) None s) as Hs.
  destruct (train_splits (Z.to_nat batch_splits) None s) as [s1 [grads|e]];
    cbn [fst] in Hu, Hg, Hw, Hs.
  2: { injection 1 as <- <-. split; [done|]. by left. }
  unfold mbind at 1, gets at 1.
  set (eff := match strategy s1 with
              | Some r0 => batch_splits * r0
              | None => batch_splits
              end).
  unfold mbind at 1.
  destruct (eff =? 0).
  { unfold throw. injection 1 as <- <-. split; [done|]. by left. }
  unfold modify at 1.
  set (s2 := set_active_lr _ s1).
  unfold mbind at 1.
  pose proof (apply_grads_keeps untouched_by_training grads eff
    ltac:(done) ltac:(done) s2) as Hu3.
  pose proof (apply_grads_keeps global_step grads eff
    ltac:(done) ltac:(done) s2) as Hg3.
  destruct (apply_grads grads eff s2) as [s3 [norm|e]] eqn:Eapp;
    cbn [fst] in Hu3, Hg3.
  2: { apply apply_grads_raise in Eapp. subst s3.
       injection 1 as <- <-. split; [done|]. by left. }
  unfold mbind at 1, modify at 1.
  set (s4 := set_global_step (global_step s3 + 1) s3).
  unfold mbind at 1, gets at 1.
  unfold mbind at 1, lift at 1.
  assert (Hg4 : global_step s4 = global_step s + 1).
  { unfold s4. simpl. rewrite Hg3. unfold s2. simpl. by rewrite Hg. }
  assert (Hu4 : untouched_by_training s4 = untouched_by_training s).
  { transitivity (untouched_by_training s3); [done|].
    rewrite Hu3. transitivity (untouched_by_training s1); [done|]. done. }
  rewrite Hg4.
  destruct (report_due (global_step s + 1) (cfg s)) as [b2|e2] eqn:Eb2.
  2: { injection 1 as <- <-. split; [done|]. right.
       split; [done|]. split; [done|]. by exists b1. }
  destruct b2; unfold mbind, modify, ret; cbn beta iota;
    injection 1 as <- <-; (split; [|done]).
  - rewrite <- Hu4. reflexivity.
  - done.
Qed.

End StepFacts.

Section EvaluationKeeps.

Context `{Substrate} {X : Type} (f : TFProcess → X).
Hypothesis f_blind : blind_to_evaluation f.

Lemma test_batch_keeps (s : TFProcess) : f (test_batch s).1 = f s.
Proof.
  destruct f_blind as (Hm & Hi & _).
  unfold test_batch. apply mbind_keeps.
  - intros s1. unfold next_test. destruct (test_iter s1); [done | apply Hi].
  - intros feed s1. apply mbind_keeps.
    + intros s2. unfold run_test_inner_loop.
      destruct (strategy s2); [done|]. by destruct feed as [|? [|? ?]].
    + intros metrics s2. apply Hm.
Qed.

Lemma set_pb_keeps (g : TrainingParams → TrainingParams) (s : TFProcess) :
  f (set_pb g s).1 = f s.
Proof. destruct f_blind as (_ & _ & Hn & _). apply Hn. Qed.

Lemma calculate_test_summaries_keeps (test_batches steps : Z) (s : TFProcess) :
  f (calculate_test_summaries test_batches steps s).1 = f s.
Proof.
  destruct f_blind as (Hm & Hi & Hn & Hsum & _).
  unfold calculate_test_summaries.
  apply mbind_keeps; [intros s0; apply Hm | intros _].
  apply mbind_keeps; [apply for_range_keeps, test_batch_keeps | intros _].
  apply mbind_keeps; [done | intros rate].
  apply mbind_keeps; [apply set_pb_keeps | intros _].
  apply mbind_keeps; [done | intros mse].
  apply mbind_keeps; [apply set_pb_keeps | intros _].
  apply mbind_keeps; [done | intros pol].
  apply mbind_keeps; [apply set_pb_keeps | intros _].
  apply mbind_keeps; [done | intros acc].
  apply mbind_keeps; [apply set_pb_keeps | intros _].
  intros s0. apply Hsum.
Qed.

Lemma calculate_swa_summaries_keeps (test_batches steps : Z) (s : TFProcess) :
  f (calculate_swa_summaries test_batches steps s).1 = f s.
Proof.
  pose proof f_blind as (Hm & Hi & Hn & Hsum & Hw & Htw & Hout & _).
  unfold calculate_swa_summaries.
  apply mbind_keeps; [done | intros backup].
  apply mbind_keeps; [intros s0; unfold the_swa_weights; by destruct (swa_weights s0) | intros swa].
  apply mbind_keeps; [intros s0; apply Hw | intros _].
  apply mbind_keeps; [done | intros w].
  apply mbind_keeps; [intros s0; apply Htw | intros _].
  apply mbind_keeps; [intros s0; apply Hout | intros _].
  apply mbind_keeps; [apply calculate_test_summaries_keeps | intros _].
  apply mbind_keeps; [intros s0; apply Htw | intros _].
  intros s0. apply Hw.
Qed.

Lemma test_passes_keeps (test_batches steps : Z) (s : TFProcess) :
  f (test_passes test_batches steps s).1 = f s.
Proof.
  unfold test_passes.
  apply mbind_keeps; [apply calculate_test_summaries_keeps | intros _].
  apply mbind_keeps; [done | intros [|]]; [|done].
  apply calculate_swa_summaries_keeps.
Qed.

Lemma determine_lr_keeps (steps : Z) (s : TFProcess) :
  f (determine_lr steps s).1 = f s.
Proof.
  pose proof f_blind as (_ & _ & _ & _ & _ & _ & _ & Hlr & _).
  unfold determine_lr.
  apply mbind_keeps; [done | intros c].
  apply mbind_keeps; [intros s0; unfold lift; done | intros t].
  apply mbind_keeps; [intros s0; unfold lift; done | intros v].
  apply mbind_keeps; [intros s0; apply Hlr | intros _].
  apply mbind_keeps; [done | intros w].
  intros s0. destruct (_ && _); [apply Hlr | done].
Qed.

End EvaluationKeeps.

Lemma process_view_blind : blind_to_evaluation process_view.
Proof. by repeat split. Qed.

Lemma update_swa_view (s : TFProcess) :
  process_view (update_swa s).1 = process_view s.
Proof.
  unfold update_swa, mbind, gets, the_swa_weights, modify, process_view, swa_off.
  destruct (swa_weights s) as [swa|] eqn:E; cbn beta iota.
  - destruct (update_swa_values _ _ _ _) as [swa' n']. done.
  - cbn [fst]. by rewrite E.
Qed.

Section ProcessFacts.

Context `{Substrate}.

Lemma process_outcome (batch_size test_batches batch_splits : Z)
    (s s' : TFProcess) (r : result unit) :
  process batch_size test_batches batch_splits s = (s', r) →
  cfg s' = cfg s ∧ swa_off s' = swa_off s ∧ swa_enabled s' = swa_enabled s ∧
  strategy s' = strategy s ∧
  global_step s ≤ global_step s' ≤ global_step s + 1 ∧
  (r = Ok tt →
   global_step s' = global_step s + 1 ∧
   (swa_off s = true →
    checkpoint_due (global_step s + 1) (cfg s) = Ok false)).
Proof.
  assert (Hview : ∀ a b : TFProcess, process_view b = process_view a →
            cfg b = cfg a ∧ swa_off b = swa_off a ∧
            swa_enabled b = swa_enabled a ∧ strategy b = strategy a ∧
            global_step b = global_step a).
  { intros a b E. unfold process_view in E. by simplify_eq. }
  unfold process.
  unfold mbind at 1, gets at 1. unfold mbind at 1, gets at 1.
  unfold mbind at 1, lift at 1.
  destruct (py_mod (global_step s) (total_steps (cfg s))) as [r0|e0].
  2: { injection 1 as <- <-. repeat split; (done || lia). }
  (* the evaluation before the first step of a cycle *)
  unfold mbind at 1.
  set (before := if r0 =? 0 then _ else _).
  assert (V1 : process_view (before s).1 = process_view s).
  { unfold before. destruct (r0 =? 0); [|done].
    apply test_passes_keeps, process_view_blind. }
  destruct (before s) as [s1 [[]|e1]]; cbn [fst] in V1;
    apply Hview in V1 as (C1 & O1 & En1 & St1 & G1).
  2: { injection 1 as <- <-. repeat split; (done || lia). }
  (* the learning rate *)
  unfold mbind at 1.
  pose proof (determine_lr_keeps process_view process_view_blind
                (global_step s) s1) as V2.
  destruct (determine_lr (global_step s) s1) as [s2 [[]|e2]]; cbn [fst] in V2;
    apply Hview in V2 as (C2 & O2 & En2 & St2 & G2).
  2: { injection 1 as <- <-. repeat split; (congruence || lia). }
  (* the step *)
  unfold mbind at 1.
  destruct (train_step (global_step s) batch_size batch_splits s2)
    as [s3 [n|e3]] eqn:Estep.
  all: apply train_step_outcome in Estep as [U3 Hstep].
  all: assert (C3 : cfg s3 = cfg s2) by (unfold untouched_by_training in U3; by simplify_eq).
  all: assert (W3 : swa_weights s3 = swa_weights s2) by (unfold untouched_by_training in U3; by simplify_eq).
  all: assert (En3 : swa_enabled s3 = swa_enabled s2) by (unfold untouched_by_training in U3; by simplify_eq).
  all: assert (St3 : strategy s3 = strategy s2) by (unfold untouched_by_training in U3; by simplify_eq).
  all: assert (O3 : swa_off s3 = swa_off s2) by (unfold swa_off; by rewrite W3).
  all: clear U3 W3.
  2: { injection 1 as <- <-. repeat split; try congruence; try done.
       all: destruct Hstep as [(G3 & _)|(G3 & _)]; lia. }
  destruct Hstep as [-> G3].
  (* the shadow weights *)
  unfold mbind at 1, gets at 1. unfold mbind at 1.
  set (averaging := if swa_enabled s3 then _ else _).
  assert (V4 : process_view (averaging s3).1 = process_view s3).
  { unfold averaging. destruct (swa_enabled s3); [|done].
    unfold mbind, lift. destruct (py_mod _ _) as [r4|e4]; [|done].
    destruct (r4 =? 0); [apply update_swa_view | done]. }
  destruct (averaging s3) as [s4 [[]|e4]]; cbn [fst] in V4;
    apply Hview in V4 as (C4 & O4 & En4 & St4 & G4).
  2: { injection 1 as <- <-. repeat split; (congruence || lia). }
  (* the evaluation after the step *)
  unfold mbind at 1, lift at 1.
  destruct (test_due (global_step s2 + 1) (cfg s)) as [due|e5].
  2: { injection 1 as <- <-. repeat split; (congruence || lia). }
  unfold mbind at 1.
  set (after := if due then _ else _).
  assert (V5 : process_view (after s4).1 = process_view s4).
  { unfold after. destruct due; [|done].
    apply test_passes_keeps, process_view_blind. }
  destruct (after s4) as [s5 [[]|e5]]; cbn [fst] in V5;
    apply Hview in V5 as (C5 & O5 & En5 & St5 & G5).
  2: { injection 1 as <- <-. repeat split; (congruence || lia). }
  (* the checkpoint *)
  unfold mbind at 1, lift at 1.
  rewrite G2, G1.
  destruct (checkpoint_due (global_step s + 1) (cfg s)) as [[|]|e6].
  3: { injection 1 as <- <-. repeat split; (congruence || lia). }
  2: { unfold ret. injection 1 as <- <-. repeat split; (congruence || lia). }
  unfold export, assign_weights. unfold mbind, modify, gets, the_swa_weights.
  cbn beta iota. cbn [swa_weights set_saved].
  assert (Hoff : swa_off s5 = swa_off s) by congruence.
  unfold swa_off in Hoff at 1.
  destruct (swa_weights s5) as [swa|] eqn:E5; cbn beta iota.
  - injection 1 as <- <-. unfold swa_off at 1. cbn. rewrite E5.
    repeat split; (congruence || lia).
  - injection 1 as <- <-. unfold swa_off at 1. cbn. rewrite E5.
    repeat split; try (congruence || lia); done.
Qed.

End ProcessFacts.

Section LoopFacts.

Context `{Substrate}.

Lemma for_range_process_outcome (n : nat)
    (batch_size test_batches batch_splits : Z) (s s' : TFProcess)
    (r : result unit) :
  for_range n (process batch_size test_batches batch_splits) s = (s', r) →
  cfg s' = cfg s ∧ swa_off s' = swa_off s ∧ swa_enabled s' = swa_enabled s ∧
  strategy s' = strategy s ∧
  global_step s ≤ global_step s' ≤ global_step s + Z.of_nat n ∧
  (r = Ok tt →
   global_step s' = global_step s + Z.of_nat n ∧
   (swa_off s = true →
    ∀ k, 1 ≤ k ≤ Z.of_nat n →
         checkpoint_due (global_step s + k) (cfg s) = Ok false)).
Proof.
  revert s. induction n as [|n IH]; intros s.
  - simpl. unfold ret. injection 1 as <- <-.
    repeat split; lia.
  - cbn [for_range]. unfold mbind at 1.
    destruct (process batch_size test_batches batch_splits s)
      as [s1 [[]|e]] eqn:E1;
      apply process_outcome in E1 as (C1 & O1 & En1 & St1 & G1 & Hok1).
    2: { injection 1 as <- <-. repeat split; (done || lia). }
    destruct (Hok1 eq_refl) as [G1' Hdue1].
    intros E2. apply IH in E2 as (C2 & O2 & En2 & St2 & G2 & Hok2).
    split_and!; try (congruence || lia).
    intros Hr. destruct (Hok2 Hr) as [G2' Hdue2]. split; [lia|].
    intros Hoff k Hk.
    { destruct (decide (k = 1)) as [->|Hk1]; [by apply Hdue1|].
      replace (global_step s + k) with (global_step s1 + (k - 1)) by lia.
      rewrite <- C1. apply Hdue2; [congruence | lia]. }
Qed.

Lemma check_virtual_batch_size_pure (batch_size : Z) (s : TFProcess) :
  (check_virtual_batch_size batch_size s).1 = s.
Proof.
  unfold check_virtual_batch_size, mbind at 1, gets at 1.
  destruct (virtual_batch_size s) as [v|]; [|done].
  destruct (v =? 0); [done|]. destruct (negb _); done.
Qed.

Lemma process_loop_outcome (batch_size test_batches batch_splits : Z)
    (s s' : TFProcess) :
  process_loop batch_size test_batches batch_splits s = (s', Ok tt) →
  total_steps (cfg s) ≠ 0 ∧
  let n := Z.to_nat (total_steps (cfg s)
                     - global_step s mod total_steps (cfg s)) in
  cfg s' = cfg s ∧ global_step s' = global_step s + Z.of_nat n ∧
  (swa_off s = true →
   ∀ k, 1 ≤ k ≤ Z.of_nat n →
        checkpoint_due (global_step s + k) (cfg s) = Ok false).
Proof.
  unfold process_loop. unfold mbind at 1, gets at 1. unfold mbind at 1.
  pose proof (check_virtual_batch_size_pure batch_size s) as Hpure.
  destruct (check_virtual_batch_size batch_size s) as [s0 [[]|e]];
    cbn [fst] in Hpure; subst s0; [|done].
  unfold mbind at 1, gets at 1. unfold mbind at 1, gets at 1.
  unfold mbind at 1, lift at 1, py_mod.
  destruct (Z.eqb_spec (total_steps (cfg s)) 0) as [|Hne]; [done|].
  intros E. apply for_range_process_outcome in E
    as (C & _ & _ & _ & _ & Hok).
  destruct (Hok eq_refl) as [G Hdue]. done.
Qed.

End LoopFacts.





(** X3. A call of [process] that returns has advanced [global_step] by
    exactly one and kept the configuration; a call that raises has
    advanced it by at most one and never moved it back. *)
Theorem process_advances_one_step `{Substrate}
    (batch_size test_batches batch_splits : Z) (s : TFProcess) :
  let out := process batch_size test_batches batch_splits s in
  cfg out.1 = cfg s ∧
  global_step s ≤ global_step out.1 ≤ global_step s + 1 ∧
  (out.2 = Ok tt → global_step out.1 = global_step s + 1).
Proof.
  intros out. unfold out.
  destruct (process batch_size test_batches batch_splits s) as [s' r] eqn:E.
  apply process_outcome in E as (C & _ & _ & _ & G & Hok). cbn [fst snd].
  split_and!; [done | lia | lia |]. intros Hr. by destruct (Hok Hr).
Qed.

Lemma process_advances_one_step_witness :
  let s := set_global_step 1 sample_training in
  global_step (@process toy_substrate 16 0 1 s).1 = 2.
Proof.
  intros s.
  destruct (@process_advances_one_step toy_substrate 16 0 1 s)
    as (_ & _ & Hok).
  apply Hok. vm_compute. reflexivity.
Defined.

(** X4. With no shadow weights ([self.swa_weights] is [None], as
    [init_net] leaves it when SWA is off), a call of [process] whose new
    step count is a checkpoint step cannot return: the checkpoint block
    iterates over [self.swa_weights] without looking at [swa_enabled]. *)
Theorem process_checkpoint_needs_shadow_weights `{Substrate}
    (batch_size test_batches batch_splits : Z) (s : TFProcess) :
  swa_weights s = None →
  checkpoint_due (global_step s + 1) (cfg s) = Ok true →
  ∃ e, (process batch_size test_batches batch_splits s).2 = Raise e.
Proof.
  intros Hnone Hdue.
  destruct (process batch_size test_batches batch_splits s) as [s' r] eqn:E.
  apply process_outcome in E as (_ & _ & _ & _ & _ & Hok). cbn [snd].
  destruct r as [[]|e]; [|by exists e].
  destruct (Hok eq_refl) as [_ Hfalse].
  rewrite Hfalse in Hdue; [discriminate Hdue|].
  unfold swa_off. by rewrite Hnone.
Qed.

Lemma process_checkpoint_needs_shadow_weights_witness :
  ∃ e, (@process toy_substrate 16 0 1
          (set_global_step 9999 sample_training)).2 = Raise e.
Proof.
  apply (@process_checkpoint_needs_shadow_weights toy_substrate 16 0 1
           (set_global_step 9999 sample_training)).
  - reflexivity.
  - reflexivity.
Defined.

(** X5. A call of [process_loop] that returns, under a positive
    [total_steps], has run the rest of the cycle: the new [global_step]
    is the old one plus [total_steps - global_step % total_steps], which
    is the next multiple of [total_steps]. *)
Theorem process_loop_completes_cycle `{Substrate}
    (batch_size test_batches batch_splits : Z) (s : TFProcess) :
  0 < total_steps (cfg s) →
  (process_loop batch_size test_batches batch_splits s).2 = Ok tt →
  let s' := (process_loop batch_size test_batches batch_splits s).1 in
  global_step s'
  = global_step s + (total_steps (cfg s)
                     - global_step s mod total_steps (cfg s)) ∧
  global_step s' mod total_steps (cfg s) = 0 ∧
  global_step s < global_step s'.
Proof.
  intros Hpos.
  destruct (process_loop batch_size test_batches batch_splits s)
    as [s' r] eqn:E. cbn [fst snd]. intros ->.
  apply process_loop_outcome in E as (_ & _ & G & _).
  pose proof (Z.mod_pos_bound (global_step s) (total_steps (cfg s)) Hpos).
  rewrite Z2Nat.id in G by lia.
  split_and!; [exact G | | lia].
  rewrite G.
  rewrite (Z.div_mod (global_step s) (total_steps (cfg s))) at 1 by lia.
  replace (_ + _ + _) with
    ((global_step s / total_steps (cfg s) + 1) * total_steps (cfg s)) by lia.
  apply Z.mod_mul. lia.
Qed.

Lemma process_loop_completes_cycle_witness :
  let out := @process_loop toy_substrate 16 0 1 sample_cycle in
  out.2 = Ok tt ∧ global_step out.1 = 2.
Proof.
  intros out.
  assert (E : out.2 = Ok tt) by (vm_compute; reflexivity).
  split; [exact E|].
  destruct (@process_loop_completes_cycle toy_substrate 16 0 1 sample_cycle)
    as (G & _); [done | exact E | exact G].
Defined.

(** X6. With no shadow weights and a positive [total_steps],
    [process_loop] never returns normally: the last step of the cycle is a
    checkpoint step, and the checkpoint block needs the shadow weights. *)
Theorem process_loop_needs_shadow_weights `{Substrate}
    (batch_size test_batches batch_splits : Z) (s : TFProcess) :
  swa_weights s = None →
  0 < total_steps (cfg s) →
  ∃ e, (process_loop batch_size test_batches batch_splits s).2 = Raise e.
Proof.
  intros Hnone Hpos.
  destruct (process_loop batch_size test_batches batch_splits s)
    as [s' r] eqn:E. cbn [snd].
  destruct r as [[]|e]; [|by exists e].
  apply process_loop_outcome in E as (_ & _ & _ & Hdue).
  pose proof (Z.mod_pos_bound (global_step s) (total_steps (cfg s)) Hpos).
  rewrite Z2Nat.id in Hdue by lia.
  specialize (Hdue ltac:(unfold swa_off; by rewrite Hnone)
                (total_steps (cfg s) - global_step s mod total_steps (cfg s))
                ltac:(lia)).
  unfold checkpoint_due, py_mod in Hdue.
  destruct (Z.eqb_spec (total_steps (cfg s)) 0) as [|_]; [lia|].
  cbn [bind] in Hdue.
  assert (Hz : (global_step s + (total_steps (cfg s)
                - global_step s mod total_steps (cfg s)))
               mod total_steps (cfg s) = 0).
  { rewrite (Z.div_mod (global_step s) (total_steps (cfg s))) at 1 by lia.
    replace (_ + _ + _) with
      ((global_step s / total_steps (cfg s) + 1) * total_steps (cfg s))
      by lia.
    apply Z.mod_mul. lia. }
  rewrite Hz in Hdue. discriminate Hdue.
Qed.

Lemma process_loop_needs_shadow_weights_witness :
  ∃ e, (@process_loop toy_substrate 16 0 1 sample_training).2 = Raise e.
Proof.
  apply (@process_loop_needs_shadow_weights toy_substrate 16 0 1
           sample_training).
  - reflexivity.
  - reflexivity.
Defined.

(** ** Loading: rejected files and partial loads *)

Lemma load_weight_fatal (h f : Z) (nw : gmap string (list Qc)) (w : Weight) :
  fatal nw w = true →
  load_weight false h f nw w = Raise (KeyError (mismatch_line nw w)).
Proof.
  unfold load_weight, fatal, mismatched, mismatch_line.
  destruct (contains "renorm" (w_name w)); simpl; [done|].
  destruct (nw !! w_name w) as [v|]; simpl; [|done].
  by destruct (shape_size (w_shape w) =? Z.of_nat (length v)).
Qed.

Lemma load_weights_stops (h f : Z) (nw : gmap string (list Qc))
    (before after : list Weight) (w : Weight) :
  Forall (λ w0, fatal nw w0 = false) before → fatal nw w = true →
  load_weights false h f nw (before ++ w :: after)
  = (map (loaded h f nw) before ++ w :: after, [],
     Some (KeyError (mismatch_line nw w))).
Proof.
  intros Hbefore Hw. induction Hbefore as [|w0 before Hw0 _ IH];
    cbn [app map load_weights].
  - by rewrite load_weight_fatal.
  - destruct (load_weight_strict h f nw w0) as [(Hf & _)|(_ & ->)];
      [congruence|].
    by rewrite IH.
Qed.

(** X7. With [ignore_errors] false, a file whose policy head or value
    head differs from the one of the process is rejected with a
    [ValueError] (the policy head is looked at first) before any tensor is
    read: weights, shadow weights and console are as before. The parsed
    file has replaced [self.net] all the same. *)
Theorem replace_weights_head_mismatch `{Substrate} (s : TFProcess)
    (proto : Net) :
  POLICY_HEAD s ≠ pb_policy proto ∨ VALUE_HEAD s ≠ pb_value proto →
  replace_weights proto false s
  = (set_net proto s,
     Raise (ValueError
              (if POLICY_HEAD s =? pb_policy proto
               then "Value head type doesn't match the network"
               else "Policy head type doesn't match the network"))).
Proof.
  intros Hheads. unfold replace_weights.
  unfold mbind at 1, modify at 1.
  unfold mbind at 1, gets at 1. unfold mbind at 1, gets at 1.
  cbn [negb POLICY_HEAD VALUE_HEAD set_net].
  unfold mbind at 1.
  destruct (Z.eqb_spec (POLICY_HEAD s) (pb_policy proto)) as [Hp|Hp];
    cbn [negb]; [|done].
  destruct (Z.eqb_spec (VALUE_HEAD s) (pb_value proto)) as [Hv|Hv];
    cbn [negb]; [|done].
  by destruct Hheads.
Qed.

Lemma replace_weights_head_mismatch_witness :
  @replace_weights toy_substrate
    (mkNet 1 0 5 (λ _, ∅) (mkTrainingParams 0%Qc 0%Qc 0%Qc 0%Qc)) false
    sample_loading
  = (set_net (mkNet 1 0 5 (λ _, ∅) (mkTrainingParams 0%Qc 0%Qc 0%Qc 0%Qc))
       sample_loading,
     Raise (ValueError "Policy head type doesn't match the network")).
Proof.
  apply (@replace_weights_head_mismatch toy_substrate sample_loading
           (mkNet 1 0 5 (λ _, ∅) (mkTrainingParams 0%Qc 0%Qc 0%Qc 0%Qc))).
  left. simpl. lia.
Defined.

(** X8. With [ignore_errors] false the load is not all-or-nothing: when
    the first tensor that cannot be loaded comes after others that can,
    the [KeyError] names that tensor, the tensors before it already hold
    the values of the file, that tensor and the ones after it keep
    theirs, and the shadow weights are not refreshed. *)
Theorem replace_weights_partial_load `{Substrate} (s : TFProcess)
    (proto : Net) (before after : list Weight) (w : Weight) :
  let new_weights := get_weights_v2 proto (map w_name (weights s)) in
  POLICY_HEAD s = pb_policy proto → VALUE_HEAD s = pb_value proto →
  weights s = before ++ w :: after →
  Forall (λ w0, fatal new_weights w0 = false) before →
  fatal new_weights w = true →
  let out := replace_weights proto false s in
  out.2 = Raise (KeyError (mismatch_line new_weights w)) ∧
  weights out.1
  = map (loaded INPUT_112_WITH_CANONICALIZATION_HECTOPLIES (pb_input proto)
           new_weights) before ++ w :: after ∧
  swa_weights out.1 = swa_weights s ∧ swa_count out.1 = swa_count s.
Proof.
  intros new_weights Hpol Hval Hws Hbefore Hw out.
  assert (E : replace_weights proto false s
              = (set_stdout (stdout s ++ [])
                   (set_weights
                      (map (loaded INPUT_112_WITH_CANONICALIZATION_HECTOPLIES
                              (pb_input proto) new_weights) before
                       ++ w :: after)
                      (set_net proto s)),
                 Raise (KeyError (mismatch_line new_weights w)))).
  { unfold replace_weights.
    unfold mbind at 1, modify at 1.
    unfold mbind at 1, gets at 1. unfold mbind at 1, gets at 1.
    cbn [negb POLICY_HEAD VALUE_HEAD set_net].
    rewrite Hpol, Hval, !Z.eqb_refl. cbn [negb].
    unfold mbind at 1, ret at 1.
    unfold mbind at 1, gets at 1. unfold mbind at 1, gets at 1.
    cbn [weights set_net]. fold new_weights.
    pose proof (load_weights_stops INPUT_112_WITH_CANONICALIZATION_HECTOPLIES
                  (pb_input proto) new_weights before after w Hbefore Hw)
      as Hload.
    rewrite <- Hws in Hload. by rewrite Hload. }
  unfold out. by rewrite E.
Qed.

Lemma replace_weights_partial_load_witness :
  let s := set_weights
             [mkWeight "dense/kernel:0" [2; 1] true [0%Qc; 0%Qc];
              mkWeight "dense/bias:0" [1] true [0%Qc]]
             (sample_process sample_cfg) in
  let out := @replace_weights toy_substrate sample_proto false s in
  out.2 = Raise (KeyError "No values for tensor dense/bias:0 in protobuf") ∧
  map w_value (weights out.1) = [[Qc_of_Z 5; Qc_of_Z 6]; [0%Qc]].
Proof.
  intros s out.
  destruct (@replace_weights_partial_load toy_substrate s sample_proto
              [mkWeight "dense/kernel:0" [2; 1] true [0%Qc; 0%Qc]] []
              (mkWeight "dense/bias:0" [1] true [0%Qc]))
    as (Hr & Hw & _).
  - reflexivity.
  - reflexivity.
  - reflexivity.
  - constructor; [reflexivity | constructor].
  - reflexivity.
  - split; [exact Hr|]. unfold out. rewrite Hw. reflexivity.
Defined.

Lemma transpose_conv_length (shape : list Z) (v : list Qc) :
  length (transpose_conv shape v) = length v.
Proof.
  unfold transpose_conv.
  destruct (map Z.to_nat shape) as [|s0 [|s1 [|s2 [|s3 [|? ?]]]]]; try done.
  by rewrite length_map, length_seq.
Qed.

Lemma transpose_dense_length (shape : list Z) (v : list Qc) :
  length (transpose_dense shape v) = length v.
Proof.
  unfold transpose_dense.
  destruct (map Z.to_nat shape) as [|s0 [|s1 [|? ?]]]; try done.
  by rewrite length_map, length_seq.
Qed.

Lemma loaded_value_length (h f : Z) (w : Weight) (v : list Qc) :
  length (loaded_value h f w v) = length v.
Proof.
  unfold loaded_value.
  destruct (length (w_shape w) =? 4)%nat.
  - rewrite transpose_conv_length.
    destruct (_ && _); [|done]. unfold rescale_rule50. by rewrite length_imap.
  - destruct (length (w_shape w) =? 2)%nat; [|done].
    apply transpose_dense_length.
Qed.

(** X9. After a load with [ignore_errors] false that returns, every
    tensor that is loaded (no "renorm" in its name) holds exactly as many
    values as its shape asks for, [reduce(operator.mul, shape, 1)], under
    the name and shape it had. *)
Theorem replace_weights_fills_shapes `{Substrate} (s : TFProcess)
    (proto : Net) :
  (swa_enabled s = true → is_Some (swa_weights s)) →
  POLICY_HEAD s = pb_policy proto → VALUE_HEAD s = pb_value proto →
  (replace_weights proto false s).2 = Ok tt →
  map w_name (weights (replace_weights proto false s).1)
  = map w_name (weights s) ∧
  map w_shape (weights (replace_weights proto false s).1)
  = map w_shape (weights s) ∧
  Forall (λ w, contains "renorm" (w_name w) = false →
               Z.of_nat (length (w_value w)) = shape_size (w_shape w))
         (weights (replace_weights proto false s).1).
Proof.
  intros Hswa Hpol Hval.
  destruct (replace_weights proto false s) as [s' r] eqn:E. cbn [fst snd].
  intros ->.
  destruct (replace_weights_strict_outcome s proto Hswa s' (Ok tt) Hpol Hval E)
    as [(_ & -> & Hall)|((msg & Hr) & _)]; [|discriminate Hr].
  set (nw := get_weights_v2 proto (map w_name (weights s))) in *.
  assert (Hkeep : ∀ w, w_name (loaded INPUT_112_WITH_CANONICALIZATION_HECTOPLIES
                                 (pb_input proto) nw w) = w_name w ∧
                       w_shape (loaded INPUT_112_WITH_CANONICALIZATION_HECTOPLIES
                                  (pb_input proto) nw w) = w_shape w).
  { intros w. unfold loaded. by destruct (_ || _). }
  split_and!.
  - rewrite <- list_fmap_compose. apply list_fmap_ext.
    intros i w _. apply Hkeep.
  - rewrite <- list_fmap_compose. apply list_fmap_ext.
    intros i w _. apply Hkeep.
  - apply Forall_fmap, Forall_forall. intros w Hw. cbn [compose].
    destruct (Hkeep w) as [-> ->]. intros Hren.
    specialize (Hall w Hw). unfold fatal in Hall. rewrite Hren in Hall.
    cbn [negb andb] in Hall.
    unfold loaded. rewrite Hren, Hall. cbn [orb].
    unfold mismatched in Hall.
    destruct (nw !! w_name w) as [v|]; [|done].
    cbn [default assign w_value]. rewrite loaded_value_length.
    apply negb_false_iff, Z.eqb_eq in Hall. by rewrite Hall.
Qed.

Lemma replace_weights_fills_shapes_witness :
  let s := set_weights [mkWeight "dense/kernel:0" [2; 1] true [0%Qc]]
             (sample_process sample_cfg) in
  Forall (λ w, contains "renorm" (w_name w) = false →
               Z.of_nat (length (w_value w)) = shape_size (w_shape w))
         (weights (@replace_weights toy_substrate sample_proto false s).1).
Proof.
  intros s.
  apply (@replace_weights_fills_shapes toy_substrate s sample_proto).
  - discriminate.
  - reflexivity.
  - reflexivity.
  - reflexivity.
Defined.

(** ** The schedule lookup *)

Lemma bisect_right_loop_bounds (fuel : nat) (a : list Z) (x : Z)
    (lo hi : nat) :
  (lo ≤ hi)%nat →
  (lo ≤ bisect_right_loop fuel a x lo hi ≤ hi)%nat.
Proof.
  revert lo hi. induction fuel as [|fuel IH]; intros lo hi Hb;
    cbn [bisect_right_loop]; [lia|].
  destruct (Nat.ltb_spec lo hi) as [Hlt|_]; [|lia].
  assert (Hmid : (lo ≤ (lo + hi) / 2 < hi)%nat).
  { split.
    - apply Nat.div_le_lower_bound; lia.
    - apply Nat.Div0.div_lt_upper_bound; lia. }
  destruct (a !! _) as [am|]; [|lia].
  destruct (x <? am).
  - specialize (IH lo ((lo + hi) / 2)%nat ltac:(lia)). lia.
  - specialize (IH ((lo + hi) / 2 + 1)%nat hi ltac:(lia)). lia.
Qed.

(** X10. With more rates than boundaries and a nonzero [total_steps], the
    schedule lookup of [process] cannot fail, in whatever order the
    boundaries are: the rate it sets is one of [lr_values], scaled by
    [(steps + 1) / warmup_steps] during warm-up, and nothing else of the
    state changes. *)
Theorem determine_lr_in_range (s : TFProcess) (steps : Z) :
  total_steps (cfg s) ≠ 0 →
  (length (lr_boundaries (cfg s)) < length (lr_values (cfg s)))%nat →
  ∃ v, v ∈ lr_values (cfg s) ∧
       determine_lr steps s
       = (set_lr (if (0 <? warmup_steps s) && (steps <? warmup_steps s)
                  then (v * Qc_of_Z (steps + 1) / Qc_of_Z (warmup_steps s))%Qc
                  else v) s, Ok tt).
Proof.
  intros Ht Hlen.
  pose proof (bisect_right_loop_bounds (length (lr_boundaries (cfg s)))
                (lr_boundaries (cfg s)) (steps mod total_steps (cfg s))
                0 (length (lr_boundaries (cfg s))) ltac:(lia)) as Hb.
  fold (bisect_right (lr_boundaries (cfg s)) (steps mod total_steps (cfg s)))
    in Hb.
  destruct (lookup_lt_is_Some_2 (lr_values (cfg s))
              (bisect_right (lr_boundaries (cfg s))
                 (steps mod total_steps (cfg s)))) as [v Hv]; [lia|].
  exists v. split; [by eapply list_elem_of_lookup_2|].
  unfold determine_lr, mbind, gets, lift, modify, py_mod, ret.
  destruct (Z.eqb_spec (total_steps (cfg s)) 0) as [|_]; [done|].
  rewrite Hv. simpl.
  by destruct ((0 <? warmup_steps s) && (steps <? warmup_steps s)).
Qed.

Lemma determine_lr_in_range_witness :
  ∃ v, v ∈ lr_values sample_cfg ∧
       determine_lr 123456 (sample_process sample_cfg)
       = (set_lr v (sample_process sample_cfg), Ok tt).
Proof.
  destruct (determine_lr_in_range (sample_process sample_cfg) 123456)
    as (v & Hv & E).
  - simpl. lia.
  - simpl. lia.
  - exists v. split; [exact Hv | exact E].
Defined.

(** ** The shadow weights after an update from count zero *)

Lemma first_average (w t : tensor Qc) :
  length w = length t →
  zip_with Qcplus (map (λ x, x * (0 / (0 + 1)))%Qc t)
                  (map (λ x, x * (1 / (0 + 1)))%Qc w) = w.
Proof.
  revert t. induction w as [|x w IH]; intros [|y t] Hlen; simpl in *;
    try done.
  rewrite IH by lia. f_equal. field. done.
Qed.

Lemma update_swa_values_first (max_n : Qc) (ws swa : list (tensor Qc)) :
  Forall2 (λ w t, length w = length t) ws swa →
  update_swa_values max_n 0%Qc ws swa
  = (ws, if Qc_ltb max_n (0 + 1)%Qc then max_n else (0 + 1)%Qc).
Proof.
  intros Hlen. unfold update_swa_values. cbn [f_div f_add f_mul f_one f_ltb Qc_arith].
  f_equal. induction Hlen as [|w t ws swa Hwt _ IH]; cbn [assign_zip]; [done|].
  by rewrite IH, first_average.
Qed.

Lemma update_swa_from_zero (s : TFProcess) (swa : list (tensor Qc)) :
  swa_count s = 0%Qc → swa_weights s = Some swa →
  same_sizes (weights s) swa →
  update_swa s
  = (set_swa_count (if Qc_ltb (swa_max_n s) 1 then swa_max_n s else 1%Qc)
       (set_swa_weights (Some (map w_value (weights s))) s), Ok tt).
Proof.
  intros Hcount Hswa Hsizes.
  unfold update_swa, mbind, gets, the_swa_weights, modify.
  rewrite Hswa, Hcount. cbv beta iota.
  rewrite update_swa_values_first.
  - replace (0 + 1)%Qc with 1%Qc by ring. reflexivity.
  - unfold same_sizes in Hsizes. by apply Forall2_fmap_l.
Qed.

(** X11. An update of the shadow weights from count zero, the count
    [init_net] and [replace_weights] set, overwrites them with the current
    weights, whatever they held; the count becomes [min(1, swa_max_n)], so
    under the default [swa_max_n] of 0 it stays zero and the next update
    copies again. The live weights are not touched. *)
Theorem update_swa_first_copies (s : TFProcess) (swa : list (tensor Qc)) :
  swa_count s = 0%Qc → swa_weights s = Some swa →
  same_sizes (weights s) swa →
  let out := update_swa s in
  out.2 = Ok tt ∧
  swa_weights out.1 = Some (map w_value (weights s)) ∧
  swa_count out.1
  = (if Qc_ltb (swa_max_n s) 1 then swa_max_n s else 1%Qc) ∧
  (swa_max_n s = 0%Qc → swa_count out.1 = 0%Qc) ∧
  weights out.1 = weights s.
Proof.
  intros Hcount Hswa Hsizes out. unfold out.
  rewrite (update_swa_from_zero s swa Hcount Hswa Hsizes).
  cbn [fst snd swa_weights swa_count weights set_swa_count set_swa_weights].
  split_and!; try done.
  intros ->. reflexivity.
Qed.

Lemma update_swa_first_copies_witness :
  let s := set_swa_count 0%Qc sample_swa in
  swa_weights (update_swa s).1 = Some [[1%Qc; Qc_of_Z 2]] ∧
  swa_count (update_swa s).1 = 1%Qc.
Proof.
  intros s.
  destruct (update_swa_first_copies s [[Qc_of_Z 3; Qc_of_Z 4]])
    as (_ & Hw & Hc & _).
  - reflexivity.
  - reflexivity.
  - repeat constructor.
  - split; [exact Hw|]. rewrite Hc. reflexivity.
Defined.

(** ** The shadow weights after a load *)

Lemma load_weights_completed (ie : bool) (h f : Z)
    (nw : gmap string (list Qc)) (ws : list Weight) :
  (load_weights ie h f nw ws).2 = None →
  (load_weights ie h f nw ws).1.1 = map (loaded h f nw) ws.
Proof.
  destruct ie.
  - by rewrite load_weights_lenient.
  - destruct (load_weights_strict h f nw ws)
      as [(_ & Hws & _)|((msg & He) & _)]; [done|].
    intros Hnone. rewrite Hnone in He. discriminate He.
Qed.

Lemma loaded_fills_shape (h f : Z) (nw : gmap string (list Qc))
    (w : Weight) :
  Z.of_nat (length (w_value w)) = shape_size (w_shape w) →
  Z.of_nat (length (w_value (loaded h f nw w))) = shape_size (w_shape w).
Proof.
  intros Hw. unfold loaded, mismatched.
  destruct (contains "renorm" (w_name w)); [done|]. cbn [orb].
  destruct (nw !! w_name w) as [v|]; [|done].
  destruct (Z.eqb_spec (shape_size (w_shape w)) (Z.of_nat (length v)))
    as [Hv|_]; [|done].
  cbn [negb default assign w_value]. by rewrite loaded_value_length.
Qed.

(** X12. A load that returns, with SWA enabled, leaves the shadow weights
    equal to the weights just loaded and the count at [min(1, swa_max_n)]:
    the accumulation is started afresh, whatever the shadow weights held
    before and in either mode of [ignore_errors]. *)
Theorem replace_weights_resets_swa `{Substrate} (s : TFProcess)
    (proto : Net) (ignore_errors : bool) (swa : list (tensor Qc)) :
  swa_enabled s = true → swa_weights s = Some swa →
  Forall2 fills_shape (weights s) swa →
  (replace_weights proto ignore_errors s).2 = Ok tt →
  let s' := (replace_weights proto ignore_errors s).1 in
  swa_weights s' = Some (map w_value (weights s')) ∧
  swa_count s' = (if Qc_ltb (swa_max_n s) 1 then swa_max_n s else 1%Qc).
Proof.
  intros Hon Hswa Hshape.
  destruct (replace_weights proto ignore_errors s) as [s' r] eqn:E.
  cbn [fst snd]. intros ->. revert E.
  unfold replace_weights.
  unfold mbind at 1, modify at 1.
  unfold mbind at 1, gets at 1. unfold mbind at 1, gets at 1.
  cbn [POLICY_HEAD VALUE_HEAD set_net].
  unfold mbind at 1.
  set (check := if negb ignore_errors then _ else _).
  assert (Hcheck : (check (set_net proto s)).1 = set_net proto s).
  { unfold check. destruct (negb ignore_errors); [|done].
    destruct (negb (_ =? _)); [done|]. by destruct (negb (_ =? _)). }
  destruct (check (set_net proto s)) as [s0 [[]|e]]; cbn [fst] in Hcheck;
    subst s0; [|done].
  unfold mbind at 1, gets at 1. unfold mbind at 1, gets at 1.
  cbn [weights set_net].
  set (nw := get_weights_v2 proto (map w_name (weights s))).
  pose proof (load_weights_completed ignore_errors
                INPUT_112_WITH_CANONICALIZATION_HECTOPLIES (pb_input proto)
                nw (weights s)) as Hload.
  destruct (load_weights ignore_errors _ _ nw (weights s))
    as [[ws' lines] e]. cbn [fst snd] in Hload.
  unfold mbind at 1, modify at 1. unfold mbind at 1, modify at 1.
  destruct e as [e|]; [done|]. specialize (Hload eq_refl). subst ws'.
  unfold mbind at 1, gets at 1.
  cbn [swa_enabled set_stdout set_weights set_net]. rewrite Hon.
  unfold mbind at 1, modify at 1.
  match goal with |- context [update_swa ?st] =>
    rewrite (update_swa_from_zero st swa) end.
  - injection 1 as <-. done.
  - reflexivity.
  - exact Hswa.
  - unfold same_sizes. cbn [weights set_swa_count set_stdout set_weights].
    apply Forall2_fmap_l.
    eapply Forall2_impl; [exact Hshape|].
    intros w t [Hw Ht]. cbn [compose].
    apply (loaded_fills_shape INPUT_112_WITH_CANONICALIZATION_HECTOPLIES
             (pb_input proto) nw) in Hw. lia.
Qed.

Lemma replace_weights_resets_swa_witness :
  let s := set_weights [mkWeight "dense/kernel:0" [2; 1] true [1%Qc; Qc_of_Z 2]]
             sample_swa in
  swa_weights (@replace_weights toy_substrate sample_proto false s).1
  = Some [[Qc_of_Z 5; Qc_of_Z 6]].
Proof.
  intros s.
  destruct (@replace_weights_resets_swa toy_substrate s sample_proto false
              [[Qc_of_Z 3; Qc_of_Z 4]]) as [Hw _].
  - reflexivity.
  - reflexivity.
  - constructor; [|constructor]. split; reflexivity.
  - reflexivity.
  - rewrite Hw. reflexivity.
Defined.

(** ** Merged metrics *)

Lemma Metric_fed (m : Metric.t) (vs : list Qc) :
  let m' := foldl Metric.accumulate (Metric.reset m) vs in
  Metric.short_name m' = Metric.short_name m ∧
  Metric.value m' = sum_Qc vs ∧
  Metric.count m' = Z.of_nat (length vs).
Proof.
  assert (Hname : ∀ vs m0, Metric.short_name (foldl Metric.accumulate m0 vs)
                           = Metric.short_name m0).
  { clear. induction vs as [|x vs IH]; intros m0; simpl; [done|].
    rewrite IH. unfold Metric.accumulate. by destruct (0 <? _). }
  destruct vs as [|v vs].
  - simpl. done.
  - destruct (Metric_accumulate_running_mean m v vs) as (Hv & Hc & _).
    intros m'. split; [|done]. unfold m'. by rewrite Hname.
Qed.

(** X13. Merging two metrics of the same short name that were each reset
    and fed a list of samples gives the metric of the two lists put
    together: the sum and the number of all samples, so that [get] is
    their mean (sums are exact here, as everywhere in [Metric]). *)
Theorem Metric_merge_concatenates (a b : Metric.t) (xs ys : list Qc) :
  Metric.short_name a = Metric.short_name b →
  xs ++ ys ≠ [] →
  ∃ m, Metric.merge (foldl Metric.accumulate (Metric.reset a) xs)
                    (foldl Metric.accumulate (Metric.reset b) ys) = Ok m ∧
       Metric.value m = sum_Qc (xs ++ ys) ∧
       Metric.count m = Z.of_nat (length (xs ++ ys)) ∧
       Metric.get m = reduce_mean (xs ++ ys).
Proof.
  intros Hname Hne.
  destruct (Metric_fed a xs) as (Na & Va & Ca).
  destruct (Metric_fed b ys) as (Nb & Vb & Cb).
  unfold Metric.merge. rewrite Na, Nb, Hname, String.eqb_refl.
  eexists. split; [reflexivity|]. cbn [Metric.value Metric.count].
  assert (Hsum : sum_Qc (xs ++ ys) = (sum_Qc xs + sum_Qc ys)%Qc).
  { clear. unfold sum_Qc. induction xs as [|x xs IH]; simpl.
    - by rewrite Qcplus_0_l.
    - rewrite IH. ring. }
  assert (Hcount : Metric.count (foldl Metric.accumulate (Metric.reset a) xs)
                   + Metric.count (foldl Metric.accumulate (Metric.reset b) ys)
                   = Z.of_nat (length (xs ++ ys))).
  { rewrite Ca, Cb, length_app. lia. }
  split_and!.
  - by rewrite Va, Vb, Hsum.
  - exact Hcount.
  - unfold Metric.get, reduce_mean. cbn [Metric.value Metric.count].
    rewrite Hcount, Va, Vb, <- Hsum.
    destruct (Z.eqb_spec (Z.of_nat (length (xs ++ ys))) 0) as [H0|_]; [|done].
    destruct (xs ++ ys); [done | simpl in H0; lia].
Qed.

Lemma Metric_merge_concatenates_witness :
  ∃ m, Metric.merge
         (foldl Metric.accumulate (Metric.init "P" "Policy Loss" "")
            [1%Qc; Qc_of_Z 2])
         (foldl Metric.accumulate (Metric.init "P" "Policy Loss" "")
            [Qc_of_Z 6]) = Ok m ∧
       Metric.get m = Qc_of_Z 3.
Proof.
  destruct (Metric_merge_concatenates (Metric.init "P" "Policy Loss" "")
              (Metric.init "P" "Policy Loss" "") [1%Qc; Qc_of_Z 2] [Qc_of_Z 6])
    as (m & Hm & _ & _ & Hget).
  - reflexivity.
  - discriminate.
  - exists m. split; [exact Hm|]. rewrite Hget.
    apply Qc_is_canon. reflexivity.
Defined.

(** ** Value buckets keep the order *)

Lemma div_cross_le (a1 a2 b1 b2 : Z) :
  0 < b1 → 0 < b2 → a1 * b2 ≤ a2 * b1 → a1 / b1 ≤ a2 / b2.
Proof.
  intros H1 H2 Hle. apply Z.div_le_lower_bound; [lia|].
  pose proof (Z.mul_div_le a1 b1 H1). nia.
Qed.

Lemma cast_int64_mono (p q : Qc) :
  (p ≤ q)%Qc → cast_int64 p ≤ cast_int64 q.
Proof.
  unfold Qcle, Qle, cast_int64.
  destruct p as [[n1 d1] c1], q as [[n2 d2] c2]. cbn [this Qnum Qden].
  intros Hle.
  destruct (Z.le_gt_cases 0 n1) as [Hn1|Hn1], (Z.le_gt_cases 0 n2) as [Hn2|Hn2].
  - rewrite !Z.quot_div_nonneg by lia. apply div_cross_le; lia.
  - nia.
  - pose proof (Z.quot_pos n2 (Z.pos d2) Hn2 ltac:(lia)).
    pose proof (Z.quot_opp_l n1 (Z.pos d1) ltac:(lia)) as Hq.
    pose proof (Z.quot_pos (- n1) (Z.pos d1) ltac:(lia) ltac:(lia)). lia.
  - pose proof (Z.quot_opp_l n1 (Z.pos d1) ltac:(lia)) as Hq1.
    pose proof (Z.quot_opp_l n2 (Z.pos d2) ltac:(lia)) as Hq2.
    rewrite !Z.quot_div_nonneg in Hq1, Hq2 by lia.
    pose proof (div_cross_le (- n2) (- n1) (Z.pos d2) (Z.pos d1)
                  ltac:(lia) ltac:(lia) ltac:(lia)). lia.
Qed.



(** ** What the evaluation passes report *)

Section Reports.

Context `{Substrate}.

Lemma test_batch_summaries (s : TFProcess) :
  (summaries (test_batch s).1, test_writer (test_batch s).1,
   length (test_metrics (test_batch s).1))
  = (summaries s, test_writer s, length (test_metrics s)).
Proof.
  unfold test_batch, mbind, next_test, run_test_inner_loop, modify.
  destruct (test_iter s) as [|feed rest]; [done|]. cbn [strategy set_test_iter].
  assert (Hlen : ∀ ms vals, length (accumulate_all ms vals) = length ms).
  { clear. unfold accumulate_all. intros ms vals. apply assign_zip_length. }
  destruct (strategy s).
  - cbn. by rewrite Hlen.
  - destruct feed as [|b [|? ?]]; try done. cbn. by rewrite Hlen.
Qed.

Lemma calculate_test_summaries_report (test_batches steps : Z)
    (s s' : TFProcess) (r : result unit) :
  calculate_test_summaries test_batches steps s = (s', r) →
  test_writer s' = test_writer s ∧
  length (test_metrics s') = length (test_metrics s) ∧
  match r with
  | Ok _ => summaries s'
            = summaries s
              ++ [(test_writer s, steps, map Metric.get (test_metrics s'))]
  | Raise _ => summaries s' = summaries s
  end.
Proof.
  unfold calculate_test_summaries. unfold mbind at 1, modify at 1.
  set (s0 := set_test_metrics _ s).
  pose proof (for_range_keeps
                (λ s, (summaries s, test_writer s, length (test_metrics s)))
                test_batch (Z.to_nat test_batches) test_batch_summaries s0)
    as Hloop.
  unfold mbind at 1.
  destruct (for_range (Z.to_nat test_batches) test_batch s0) as [s1 [[]|e]];
    cbn [fst] in Hloop.
  2: { injection 1 as <- <-. unfold s0 in Hloop. cbn in Hloop.
       rewrite length_map in Hloop. by simplify_eq. }
  assert (Hs : summaries s1 = summaries s) by (by simplify_eq).
  assert (Hw : test_writer s1 = test_writer s) by (by simplify_eq).
  assert (Hl : length (test_metrics s1) = length (test_metrics s)).
  { unfold s0 in Hloop. cbn in Hloop. rewrite length_map in Hloop.
    by simplify_eq. }
  clear Hloop.
  unfold mbind, gets, set_pb, modify, test_metric. cbn beta iota.
  cbn [test_metrics set_net].
  destruct (test_metrics s1 !! 3%nat); [|by injection 1 as <- <-].
  destruct (test_metrics s1 !! 0%nat); [|by injection 1 as <- <-].
  destruct (test_metrics s1 !! 4%nat); [|by injection 1 as <- <-].
  injection 1 as <- <-. cbn. by rewrite Hs, Hw.
Qed.

Lemma calculate_swa_summaries_report (test_batches steps : Z)
    (s s' : TFProcess) :
  calculate_swa_summaries test_batches steps s = (s', Ok tt) →
  ∃ values, summaries s' = summaries s ++ [(swa_writer s, steps, values)] ∧
            length values = length (test_metrics s).
Proof.
  unfold calculate_swa_summaries.
  unfold mbind at 1, gets at 1. unfold mbind at 1, the_swa_weights at 1.
  destruct (swa_weights s) as [swa|]; [|done].
  unfold mbind at 1, assign_weights at 1, modify at 1.
  unfold mbind at 1, gets at 1. unfold mbind at 1, modify at 1.
  unfold mbind at 1, print at 1, modify at 1.
  cbn [test_writer swa_writer set_weights set_test_writer stdout].
  set (s0 := set_stdout _ _). unfold mbind at 1.
  destruct (calculate_test_summaries test_batches steps s0)
    as [s1 [[]|e]] eqn:E; [|done].
  apply calculate_test_summaries_report in E as (_ & Hl & Hs).
  unfold mbind, modify, assign_weights. cbn beta iota.
  injection 1 as <-. cbn. rewrite Hs. unfold s0. cbn.
  eexists. split; [reflexivity|]. by rewrite length_map, Hl.
Qed.

End Reports.

Section ReportTheorems.

Context `{Substrate}.

(** X15. The evaluation [process] runs, when it returns, has written one
    summary under the test writer and, with SWA enabled, a second one
    after it under the SWA writer, both at the step count given and with
    one value per test metric; the live weights and the test writer are
    what they were. *)
Theorem test_passes_reports (test_batches steps : Z) (s : TFProcess) :
  (test_passes test_batches steps s).2 = Ok tt →
  let s' := (test_passes test_batches steps s).1 in
  weights s' = weights s ∧ test_writer s' = test_writer s ∧
  ∃ regular, length regular = length (test_metrics s) ∧
    if swa_enabled s then
      ∃ shadow, length shadow = length (test_metrics s) ∧
        summaries s' = summaries s ++ [(test_writer s, steps, regular);
                                       (swa_writer s, steps, shadow)]
    else summaries s' = summaries s ++ [(test_writer s, steps, regular)].
Proof.
  destruct (test_passes test_batches steps s) as [s' r] eqn:E.
  cbn [fst snd]. intros ->. revert E.
  unfold test_passes. unfold mbind at 1.
  pose proof (calculate_test_summaries_frame test_batches steps s) as Hframe.
  pose proof (calculate_test_summaries_keeps swa_enabled
                ltac:(by repeat split) test_batches steps s) as Hon.
  destruct (calculate_test_summaries test_batches steps s)
    as [s1 [[]|e]] eqn:E1; [|done].
  cbn [fst] in Hframe, Hon.
  apply calculate_test_summaries_report in E1 as (Hw1 & Hl1 & Hs1).
  unfold mbind at 1, gets at 1. rewrite Hon.
  assert (Hweights : weights s1 = weights s)
    by (unfold frame in Hframe; by simplify_eq).
  assert (Hswaw : swa_writer s1 = swa_writer s)
    by (unfold frame in Hframe; by simplify_eq).
  destruct (swa_enabled s).
  - intros E2.
    destruct (calculate_swa_summaries_outcome test_batches steps s1 s' (Ok tt) E2)
      as [_ Hrestored].
    destruct (Hrestored eq_refl) as [Hw2 Htw2].
    apply calculate_swa_summaries_report in E2 as (shadow & Hs2 & Hl2).
    split_and!; [congruence | congruence |].
    eexists. split; [|exists shadow; split; [congruence|]].
    + by rewrite length_map.
    + rewrite Hs2, Hs1, Hswaw, <- app_assoc. reflexivity.
  - unfold ret. injection 1 as <-.
    split_and!; [done | done |].
    eexists. split; [|exact Hs1]. by rewrite length_map.
Qed.

(** X16. An evaluation asked for no batches (as the SWA split of
    [process_loop] makes it when the caller asked for one) still reports:
    it returns, takes nothing from the test iterator, and the summary it
    writes and the losses and accuracy it stores for the weights file are
    all zero. *)
Theorem calculate_test_summaries_without_batches (test_batches steps : Z)
    (s : TFProcess) :
  test_batches ≤ 0 → (5 ≤ length (test_metrics s))%nat →
  let out := calculate_test_summaries test_batches steps s in
  out.2 = Ok tt ∧ test_iter out.1 = test_iter s ∧
  summaries out.1
  = summaries s ++ [(test_writer s, steps, map (λ _, 0%Qc) (test_metrics s))] ∧
  training_params (net out.1) = mkTrainingParams (lr s) 0%Qc 0%Qc 0%Qc.
Proof.
  intros Hnone Hm out. unfold out, calculate_test_summaries.
  replace (Z.to_nat test_batches) with 0%nat by lia. cbn [for_range].
  destruct (lookup_lt_is_Some_2 (test_metrics s) 3%nat ltac:(lia)) as [m3 E3].
  destruct (lookup_lt_is_Some_2 (test_metrics s) 0%nat ltac:(lia)) as [m0 E0].
  destruct (lookup_lt_is_Some_2 (test_metrics s) 4%nat ltac:(lia)) as [m4 E4].
  unfold mbind, gets, set_pb, modify, test_metric, ret. cbn beta iota.
  cbn [test_metrics set_test_metrics set_net].
  rewrite !list_lookup_fmap, E3, E0, E4. cbn.
  split_and!; try done.
  do 3 f_equal. rewrite <- list_fmap_compose. by apply list_fmap_ext.
Qed.

Lemma for_range_test_batch_starves (feeds : list (list batch)) :
  ∀ (n : nat) (s : TFProcess),
    test_iter s = feeds → (length feeds < n)%nat → single_tuples s feeds →
    ∃ s', for_range n test_batch s = (s', Raise StopIteration) ∧
          test_iter s' = [] ∧ summaries s' = summaries s ∧ net s' = net s.
Proof.
  induction feeds as [|feed rest IH]; intros [|n] s Hiter Hlen Hone;
    cbn [length] in Hlen; try lia; cbn [for_range].
  - exists s. split; [|done].
    unfold mbind at 1, test_batch, mbind at 1, next_test. by rewrite Hiter.
  - destruct (test_batch_consumes s feed rest Hiter) as (ms & Estep & _).
    { intros Hnone. specialize (Hone Hnone).
      by apply Forall_cons in Hone as [? _]. }
    unfold mbind at 1. rewrite Estep.
    destruct (IH n (set_test_metrics ms (set_test_iter rest s)))
      as (s' & Eloop & Hit & Hsum & Hnet); [done | lia | |].
    { intros Hnone. specialize (Hone Hnone).
      by apply Forall_cons in Hone as [_ ?]. }
    exists s'. done.
Qed.

(** X17. An evaluation asked for more batches than the test iterator has
    left raises [StopIteration] with the iterator used up; it has written
    no summary and stored nothing for the weights file. *)
Theorem calculate_test_summaries_out_of_data (test_batches steps : Z)
    (s : TFProcess) :
  (length (test_iter s) < Z.to_nat test_batches)%nat →
  single_tuples s (test_iter s) →
  let out := calculate_test_summaries test_batches steps s in
  out.2 = Raise StopIteration ∧ test_iter out.1 = [] ∧
  summaries out.1 = summaries s ∧ net out.1 = net s.
Proof.
  intros Hshort Hone out.
  set (s0 := set_test_metrics (map Metric.reset (test_metrics s)) s).
  destruct (for_range_test_batch_starves (test_iter s)
              (Z.to_nat test_batches) s0)
    as (s' & Eloop & Hit & Hsum & Hnet); [done | done | done |].
  assert (E : calculate_test_summaries test_batches steps s
              = (s', Raise StopIteration)).
  { unfold calculate_test_summaries. unfold mbind at 1, modify at 1.
    fold s0. unfold mbind at 1. by rewrite Eloop. }
  unfold out. rewrite E. cbn [fst snd].
  split_and!; [done | done | by rewrite Hsum | by rewrite Hnet].
Qed.

End ReportTheorems.

Lemma test_passes_reports_witness :
  let s := set_test_iter [[sample_batch]; [sample_batch]] sample_swa in
  let s' := (@test_passes toy_substrate 1 7 s).1 in
  weights s' = weights s ∧
  map (λ x, (x.1.1, x.1.2)) (summaries s') = [(TestWriter, 7); (SwaWriter, 7)].
Proof.
  intros s s'.
  destruct (@test_passes_reports toy_substrate 1 7 s)
    as (Hw & _ & regular & _ & shadow & _ & Hsum).
  - vm_compute. reflexivity.
  - split; [exact Hw|]. unfold s'. rewrite Hsum. reflexivity.
Defined.

Lemma calculate_test_summaries_without_batches_witness :
  split_test_batches sample_swa 1 = 0 ∧
  let out := @calculate_test_summaries toy_substrate
               (split_test_batches sample_swa 1) 7 sample_swa in
  out.2 = Ok tt ∧ test_iter out.1 = [[sample_batch]] ∧
  mse_loss (training_params (net out.1)) = 0%Qc.
Proof.
  split; [reflexivity|].
  destruct (@calculate_test_summaries_without_batches toy_substrate
              (split_test_batches sample_swa 1) 7 sample_swa)
    as (Hr & Hit & _ & Hpb).
  - vm_compute. discriminate.
  - simpl. lia.
  - split; [exact Hr|]. split; [exact Hit|]. cbv zeta. by rewrite Hpb.
Defined.

Lemma calculate_test_summaries_out_of_data_witness :
  let out := @calculate_test_summaries toy_substrate 2 7 sample_swa in
  out.2 = Raise StopIteration ∧ test_iter out.1 = [] ∧
  summaries out.1 = [].
Proof.
  destruct (@calculate_test_summaries_out_of_data toy_substrate 2 7 sample_swa)
    as (Hr & Hit & Hsum & _).
  - simpl. lia.
  - intros _. repeat constructor.
  - split; [exact Hr|]. split; [exact Hit | exact Hsum].
Defined.

(** ** The training report *)

Section TrainReport.

Context `{Substrate}.

Lemma train_split_metrics_length grads (s : TFProcess) :
  length (train_metrics (train_split grads s).1) = length (train_metrics s).
Proof.
  unfold train_split, mbind, next_train, run_inner_loop, modify, ret.
  destruct (train_iter s) as [|feed rest]; [done|].
  cbn [strategy set_train_iter weights].
  destruct (strategy s).
  - destruct (strategy_process_inner_loop _ _) as [metrics new_grads].
    cbn. apply assign_zip_length.
  - destruct feed as [|b [|? ?]]; try done.
    destruct (process_inner_loop (weights s) b) as [metrics g].
    cbn. apply assign_zip_length.
Qed.

Lemma train_splits_metrics_length (n : nat) grads (s : TFProcess) :
  length (train_metrics (train_splits n grads s).1)
  = length (train_metrics s).
Proof.
  revert grads s. induction n as [|n IH]; intros grads s; [done|].
  cbn [train_splits]. unfold mbind.
  pose proof (train_split_metrics_length grads s) as Hstep.
  destruct (train_split grads s) as [s1 [g|e]]; cbn [fst] in Hstep; [|done].
  by rewrite IH.
Qed.


End TrainReport.


(** ** Shared metric objects *)

Lemma accumulate_refs_other (refs : list nat) (vals : list Qc)
    (st : list Metric.t) (r : nat) :
  r ∉ refs → accumulate_refs refs vals st !! r = st !! r.
Proof.
  revert vals st. induction refs as [|r0 refs IH]; intros [|v vals] st Hr;
    cbn [accumulate_refs]; try done.
  apply not_elem_of_cons in Hr as [Hne Hr].
  rewrite IH by done. by apply list_lookup_alter_ne.
Qed.

Lemma accumulate_refs_at (refs : list nat) (vals : list Qc)
    (st : list Metric.t) (k r : nat) (v : Qc) :
  NoDup refs → refs !! k = Some r → vals !! k = Some v →
  accumulate_refs refs vals st !! r
  = (λ m, Metric.accumulate m v) <$> st !! r.
Proof.
  revert vals st k. induction refs as [|r0 refs IH];
    intros [|v0 vals] st [|k] Hnd Hk Hv; try done;
    apply NoDup_cons in Hnd as [Hr0 Hnd]; cbn [accumulate_refs].
  - injection Hk as ->. injection Hv as ->.
    rewrite accumulate_refs_other by done. apply list_lookup_alter_eq.
  - cbn in Hk, Hv. rewrite (IH vals _ k) by done.
    rewrite list_lookup_alter_ne; [done|].
    intros ->. apply Hr0. by eapply list_elem_of_lookup_2.
Qed.

Lemma reset_refs_other (refs : list nat) (st : list Metric.t) (r : nat) :
  r ∉ refs → reset_refs refs st !! r = st !! r.
Proof.
  revert st. induction refs as [|r0 refs IH]; intros st Hr;
    cbn [reset_refs]; [done|].
  apply not_elem_of_cons in Hr as [Hne Hr].
  rewrite IH by done. by apply list_lookup_alter_ne.
Qed.

Lemma reset_refs_at (refs : list nat) (st : list Metric.t) (r : nat) :
  NoDup refs → r ∈ refs →
  reset_refs refs st !! r = Metric.reset <$> st !! r.
Proof.
  revert st. induction refs as [|r0 refs IH]; intros st Hnd Hr;
    [by apply elem_of_nil in Hr|].
  apply NoDup_cons in Hnd as [Hr0 Hnd]. cbn [reset_refs].
  apply elem_of_cons in Hr as [->|Hr].
  - rewrite reset_refs_other by done. apply list_lookup_alter_eq.
  - rewrite IH by done. rewrite list_lookup_alter_ne; [done|].
    intros ->. by apply Hr0.
Qed.

Lemma refs_NoDup (n b k : nat) :
  (n ≤ b)%nat → NoDup (seq b k ++ seq 0 n).
Proof.
  intros Hb. apply NoDup_app. split; [apply NoDup_seq|].
  split; [|apply NoDup_seq].
  intros x Hx Hx'. apply elem_of_seq in Hx, Hx'. lia.
Qed.

(** X19. The thresholded accuracy metrics are the same objects in
    [train_metrics] and in [test_metrics]. So a test pass (the reset, then
    the accumulation of a batch) wipes what training had accumulated in
    them and leaves its own sample there for the next training report to
    read, while the fourteen metrics before them in [train_metrics] keep
    what training accumulated. *)
Theorem thresholded_metrics_are_shared (accuracy_thresholds : list Z)
    (train_vals test_vals : list Qc) (i : nat) (v : Qc) :
  (i < length accuracy_thresholds)%nat →
  test_vals !! (13 + i)%nat = Some v →
  let lists := init_metric_lists accuracy_thresholds in
  let st1 := accumulate_refs (train_refs lists) train_vals (store lists) in
  let st2 := reset_refs (test_refs lists) st1 in
  let st3 := accumulate_refs (test_refs lists) test_vals st2 in
  train_refs lists !! (14 + i)%nat = test_refs lists !! (13 + i)%nat ∧
  (∃ m, metric_at st3 (train_refs lists) (14 + i) = Some m ∧
        Metric.value m = v ∧ Metric.count m = 1) ∧
  ∀ j, (j < 14)%nat →
       metric_at st3 (train_refs lists) j = metric_at st1 (train_refs lists) j.
Proof.
  intros Hi Hv lists st1 st2 st3.
  set (n := length accuracy_thresholds).
  assert (Htrain : train_refs lists = seq n 14 ++ seq 0 n).
  { unfold lists, init_metric_lists. cbn. by rewrite length_map. }
  assert (Htest : test_refs lists = seq (n + 14) 13 ++ seq 0 n).
  { unfold lists, init_metric_lists. cbn. by rewrite length_map. }
  assert (Hstore : length (store lists) = (n + 27)%nat).
  { unfold lists, init_metric_lists. cbn.
    rewrite length_app, length_map. cbn. lia. }
  assert (Hnd : NoDup (test_refs lists)).
  { rewrite Htest. apply refs_NoDup. lia. }
  assert (Htr : train_refs lists !! (14 + i)%nat = Some i).
  { rewrite Htrain, lookup_app_r by (rewrite length_seq; lia).
    rewrite length_seq. replace (14 + i - 14)%nat with i by lia.
    by rewrite lookup_seq_lt. }
  assert (Hte : test_refs lists !! (13 + i)%nat = Some i).
  { rewrite Htest, lookup_app_r by (rewrite length_seq; lia).
    rewrite length_seq. replace (13 + i - 13)%nat with i by lia.
    by rewrite lookup_seq_lt. }
  split; [by rewrite Htr, Hte|]. split.
  - unfold metric_at. rewrite Htr. simpl.
    unfold st3. rewrite (accumulate_refs_at _ _ _ (13 + i) i v Hnd Hte Hv).
    unfold st2. rewrite reset_refs_at;
      [|done | by eapply list_elem_of_lookup_2].
    destruct (lookup_lt_is_Some_2 st1 i) as [m0 Hm0].
    { unfold st1.
      assert (Hlen : ∀ refs vals st,
                length (accumulate_refs refs vals st) = length st).
      { clear. induction refs as [|r refs IH]; intros [|v vals] st;
          cbn [accumulate_refs]; try done.
        by rewrite IH, length_alter. }
      rewrite Hlen, Hstore. lia. }
    rewrite Hm0. cbn. eexists. split; [reflexivity|]. done.
  - intros j Hj. unfold metric_at.
    assert (Hrj : train_refs lists !! j = Some (n + j)%nat).
    { rewrite Htrain, lookup_app_l by (rewrite length_seq; lia).
      by rewrite lookup_seq_lt. }
    rewrite Hrj. simpl.
    assert (Hnot : (n + j)%nat ∉ test_refs lists).
    { rewrite Htest. intros [Hx|Hx]%elem_of_app;
        apply elem_of_seq in Hx; lia. }
    unfold st3, st2.
    by rewrite accumulate_refs_other, reset_refs_other.
Qed.

Lemma thresholded_metrics_are_shared_witness :
  let lists := init_metric_lists [1; 2; 5; 10] in
  let trained := replicate 18 (Qc_of_Z 50) in
  let tested := replicate 17 (Qc_of_Z 7) in
  let st1 := accumulate_refs (train_refs lists) trained (store lists) in
  let st3 := accumulate_refs (test_refs lists) tested
               (reset_refs (test_refs lists) st1) in
  Metric.count <$> metric_at st1 (train_refs lists) 14 = Some 1 ∧
  ∃ m, metric_at st3 (train_refs lists) 14 = Some m ∧
       Metric.value m = Qc_of_Z 7 ∧ Metric.count m = 1.
Proof.
  intros lists trained tested st1 st3. split; [reflexivity|].
  destruct (thresholded_metrics_are_shared [1; 2; 5; 10] trained tested 0
              (Qc_of_Z 7)) as (_ & Hm & _).
  - simpl. lia.
  - reflexivity.
  - exact Hm.
Defined.

(** ** Sparsity patterns *)

Lemma insert_desc_perm (x : Qc) (l : list Qc) : insert_desc x l ≡ₚ x :: l.
Proof.
  induction l as [|y l IH]; cbn [insert_desc]; [done|].
  destruct (Qc_leb y x); [done|]. rewrite IH. apply Permutation_swap.
Qed.

Lemma sort_desc_perm (l : list Qc) : sort_desc l ≡ₚ l.
Proof.
  induction l as [|x l IH]; [done|]. cbn [sort_desc foldr].
  fold (sort_desc l). by rewrite insert_desc_perm, IH.
Qed.

Lemma insert_desc_descend (x : Qc) (l : list Qc) :
  heads_descend l → heads_descend (insert_desc x l).
Proof.
  destruct l as [|y l]; cbn [insert_desc]; [done|].
  destruct (Qc_leb y x) eqn:E.
  - intros _. by apply Qc_leb_le.
  - assert (Hxy : (x ≤ y)%Qc).
    { apply Qclt_le_weak, Qcnot_le_lt. intros Hle.
      apply Qc_leb_le in Hle. congruence. }
    destruct l as [|z l]; cbn [insert_desc heads_descend]; [done|].
    by destruct (Qc_leb z x).
Qed.

Lemma sort_desc_descend (l : list Qc) : heads_descend (sort_desc l).
Proof.
  induction l as [|x l IH]; [done|]. cbn [sort_desc foldr].
  by apply insert_desc_descend.
Qed.

Lemma kept_comparison (row : list Qc) :
  kept (comparison row)
  = length (filter (λ x, Qc_leb (second_largest row) x = true) row).
Proof.
  unfold kept, comparison. generalize (second_largest row). intros s.
  induction row as [|x row IH]; [done|]. cbn [map].
  rewrite !filter_cons. destruct (Qc_leb s x); cbn.
  - rewrite decide_True by done. rewrite decide_True by done.
    cbn. by rewrite IH.
  - rewrite decide_False by done. rewrite decide_False by done. exact IH.
Qed.

Lemma comparison_keeps_two (row : list Qc) :
  (2 ≤ length row)%nat → (2 ≤ kept (comparison row))%nat.
Proof.
  intros Hlen. rewrite kept_comparison.
  set (s := second_largest row).
  rewrite <- (sort_desc_perm row).
  pose proof (sort_desc_descend row) as Hdesc.
  pose proof (Permutation_length (sort_desc_perm row)) as Hl.
  unfold s, second_largest. clear s.
  destruct (sort_desc row) as [|a [|b rest]]; cbn [length] in Hl; try lia.
  cbn [nth heads_descend] in *.
  rewrite !filter_cons.
  rewrite decide_True by (by apply Qc_leb_le).
  rewrite decide_True by (apply Qc_leb_le, Qcle_refl).
  cbn [length]. lia.
Qed.

Lemma reshape_4_rows (l : list Qc) (rows : list (list Qc)) :
  reshape_4 l = Some rows →
  l = concat rows ∧ Forall (λ row, length row = 4%nat) rows.
Proof.
  revert l. induction rows as [|row rows IH];
    intros [|a [|b [|c [|d rest]]]] E; cbn [reshape_4] in E; try done.
  - destruct (reshape_4 rest); done.
  - destruct (reshape_4 rest) as [rows'|] eqn:Erest; [|done].
    cbn in E. injection E as <- <-.
    destruct (IH rest Erest) as [-> Hall]. split; [done|].
    by constructor.
Qed.

Lemma reshape_4_defined (l : list Qc) :
  is_Some (reshape_4 l) ↔ (length l mod 4 = 0)%nat.
Proof.
  assert (Hstrong : ∀ n l, (length l ≤ n)%nat →
            (is_Some (reshape_4 l) ↔ (length l mod 4 = 0)%nat)).
  { clear. induction n as [|n IH]; intros [|a [|b [|c [|d rest]]]] Hn;
      cbn [length] in Hn; try lia; cbn [reshape_4 length];
      try (split; [done | intros _; by eexists]);
      try (split; [by intros [? ?] | by intros ?]).
    specialize (IH rest ltac:(lia)).
    replace (S (S (S (S (length rest))))) with (length rest + 1 * 4)%nat
      by lia.
    rewrite Nat.Div0.mod_add, <- IH.
    destruct (reshape_4 rest); cbn; split; intros [? ?]; done || by eexists. }
  by apply (Hstrong (length l)).
Qed.

Lemma group_concat {A} (rows : list (list A)) (g : nat) (row : list A) :
  Forall (λ row, length row = 4%nat) rows → rows !! g = Some row →
  group g (concat rows) = row.
Proof.
  unfold group. intros Hall. revert g.
  induction Hall as [|r rows Hr _ IH]; intros [|g] Hg; try done;
    cbn [concat] in *.
  - injection Hg as ->. replace (4 * 0)%nat with 0%nat by lia.
    rewrite drop_0. by apply take_app_length'.
  - cbn in Hg. replace (4 * S g)%nat with (length r + 4 * g)%nat by lia.
    rewrite drop_app_add'; [|done]. by apply IH.
Qed.

Lemma ones_cast (mask : list bool) :
  ones (map cast_float32 mask) = kept mask.
Proof.
  unfold ones, kept. induction mask as [|b mask IH]; [done|].
  cbn [map]. rewrite !filter_cons. destruct b; cbn [cast_float32].
  - rewrite !decide_True by done. cbn. by rewrite IH.
  - rewrite !decide_False by done. exact IH.
Qed.

(** X20. A pattern is built exactly for kernels whose size is a multiple
    of four. It has the size of the kernel, its entries are zeros and
    ones, and every group of four consecutive entries has at least two
    ones: two of four weights are the least that is kept. *)
Theorem sparsity_pattern_keeps_two (kernel pattern : list Qc) (g : nat) :
  sparsity_pattern kernel = Some pattern →
  (4 * g < length kernel)%nat →
  (length kernel mod 4 = 0)%nat ∧
  length pattern = length kernel ∧
  Forall (λ x, x = 0%Qc ∨ x = 1%Qc) pattern ∧
  (2 ≤ ones (group g pattern))%nat.
Proof.
  unfold sparsity_pattern. intros E Hg.
  destruct (reshape_4 (map Qcabs kernel)) as [rows|] eqn:Erows; [|done].
  cbn in E. injection E as <-.
  pose proof (proj1 (reshape_4_defined (map Qcabs kernel))
                ltac:(by rewrite Erows)) as Hmod.
  rewrite length_map in Hmod.
  destruct (reshape_4_rows _ _ Erows) as [Hconcat Hall].
  assert (Hmasks : Forall (λ mask : list bool, length mask = 4%nat)
                          (map comparison rows)).
  { apply Forall_fmap. eapply Forall_impl; [exact Hall|].
    intros row Hrow. cbn. unfold comparison. by rewrite length_map. }
  assert (Hlen : length (concat (map comparison rows)) = length kernel).
  { rewrite <- (length_map Qcabs kernel), Hconcat.
    clear. induction rows as [|row rows IH]; [done|].
    cbn. rewrite !length_app, IH. unfold comparison. by rewrite length_map. }
  split_and!.
  - exact Hmod.
  - by rewrite length_map.
  - apply Forall_fmap, Forall_true. intros [|]; cbn; [by right | by left].
  - assert (Hrows : (g < length rows)%nat).
    { apply (f_equal length) in Hconcat.
      rewrite length_map in Hconcat.
      assert (Hc : length (concat rows) = (4 * length rows)%nat).
      { clear -Hall. induction Hall as [|r rows Hr _ IH]; [done|].
        cbn. rewrite length_app, IH, Hr. lia. }
      lia. }
    destruct (lookup_lt_is_Some_2 rows g Hrows) as [row Hrow].
    unfold group. rewrite <- fmap_drop, <- fmap_take.
    fold (group g (concat (map comparison rows))).
    rewrite (group_concat _ g (comparison row) Hmasks)
      by (by rewrite list_lookup_fmap, Hrow).
    rewrite ones_cast. apply comparison_keeps_two.
    eapply Forall_lookup_1 in Hall; [|exact Hrow]. cbn in Hall. lia.
Qed.

Lemma sparsity_pattern_keeps_two_witness :
  sparsity_pattern [Qc_of_Z 3; Qc_of_Z (-5); 1%Qc; Qc_of_Z 2]
  = Some [1%Qc; 1%Qc; 0%Qc; 0%Qc] ∧
  (2 ≤ ones (group 0 [1%Qc; 1%Qc; 0%Qc; 0%Qc]))%nat.
Proof.
  split; [reflexivity|].
  apply (sparsity_pattern_keeps_two
           [Qc_of_Z 3; Qc_of_Z (-5); 1%Qc; Qc_of_Z 2]
           [1%Qc; 1%Qc; 0%Qc; 0%Qc] 0).
  - reflexivity.
  - simpl. lia.
Defined.

Lemma Qc_leb_refl (x : Qc) : Qc_leb x x = true.
Proof. apply Qc_leb_le, Qcle_refl. Qed.

Lemma sparsity_pattern_constant (m : Qc) (k : nat) (kernel : list Qc) :
  length kernel = (4 * k)%nat → Forall (λ x, Qcabs x = m) kernel →
  sparsity_pattern kernel = Some (replicate (4 * k) 1%Qc).
Proof.
  revert kernel. induction k as [|k IH]; intros kernel Hlen Hall.
  - by destruct kernel.
  - destruct kernel as [|a [|b [|c [|d rest]]]]; cbn [length] in Hlen;
      try lia.
    apply Forall_cons in Hall as [Ha Hall].
    apply Forall_cons in Hall as [Hb Hall].
    apply Forall_cons in Hall as [Hc Hall].
    apply Forall_cons in Hall as [Hd Hall].
    specialize (IH rest ltac:(lia) Hall).
    unfold sparsity_pattern in *. cbn [map reshape_4].
    rewrite Ha, Hb, Hc, Hd.
    destruct (reshape_4 (map Qcabs rest)) as [rows|]; [|done].
    change (Some (map cast_float32 (concat (map comparison rows)))
            = Some (replicate (4 * k) 1%Qc)) in IH.
    injection IH as IH.
    change (Some (map cast_float32
                    (comparison [m; m; m; m] ++ concat (map comparison rows)))
            = Some (replicate (4 * S k) 1%Qc)).
    rewrite map_app, IH.
    replace (4 * S k)%nat with (4 + 4 * k)%nat by lia.
    rewrite (replicate_add 4 (4 * k)). f_equal.
    apply (f_equal2 app); [|reflexivity].
    unfold comparison, second_largest.
    cbn [sort_desc foldr insert_desc].
    repeat (rewrite Qc_leb_refl; cbn [insert_desc nth map]).
    reflexivity.
Qed.

(** X21. Ties are kept: when all the weights of a kernel have the same
    magnitude (a kernel of zeros, for one), the pattern is all ones and
    nothing is pruned, so a group of four can keep more than two. *)
Theorem sparsity_pattern_ties_keep_all (m : Qc) (kernel : list Qc) :
  (length kernel mod 4 = 0)%nat → Forall (λ x, Qcabs x = m) kernel →
  sparsity_pattern kernel = Some (replicate (length kernel) 1%Qc).
Proof.
  intros Hmod Hall.
  assert (Hlen : length kernel = (4 * (length kernel / 4))%nat).
  { pose proof (Nat.div_mod_eq (length kernel) 4). lia. }
  rewrite (sparsity_pattern_constant m (length kernel / 4) kernel Hlen Hall).
  by rewrite <- Hlen.
Qed.

Lemma sparsity_pattern_ties_keep_all_witness :
  sparsity_pattern [Qc_of_Z 2; Qc_of_Z (-2); Qc_of_Z (-2); Qc_of_Z 2]
  = Some [1%Qc; 1%Qc; 1%Qc; 1%Qc].
Proof.
  apply (sparsity_pattern_ties_keep_all (Qc_of_Z 2)
           [Qc_of_Z 2; Qc_of_Z (-2); Qc_of_Z (-2); Qc_of_Z 2]).
  - reflexivity.
  - do 4 (constructor; [apply Qc_is_canon; reflexivity|]). constructor.
Defined.

(** Entries that are zero or one. *)
Lemma sparsity_pattern_bits (kernel pattern : list Qc) :
  sparsity_pattern kernel = Some pattern →
  Forall (λ x, x = 0%Qc ∨ x = 1%Qc) pattern.
Proof.
  unfold sparsity_pattern. destruct (reshape_4 _) as [rows|]; [|done].
  cbn. injection 1 as <-.
  apply Forall_fmap, Forall_true. intros [|]; cbn; [by right | by left].
Qed.

Lemma set_sparsity_patterns_bits (layers : list Layer)
    (before after : gmap string (list Qc)) :
  map_Forall (λ _ p, Forall (λ x, x = 0%Qc ∨ x = 1%Qc) p) before →
  set_sparsity_patterns layers before = Some after →
  map_Forall (λ _ p, Forall (λ x, x = 0%Qc ∨ x = 1%Qc) p) after.
Proof.
  revert before. induction layers as [|layer layers IH]; intros before Hb E;
    cbn [set_sparsity_patterns] in E.
  - by injection E as <-.
  - destruct (sparsified layer); [|by eapply IH].
    destruct (sparsity_pattern (kernel layer)) as [p|] eqn:Ep; [|done].
    cbn in E. eapply IH; [|exact E].
    apply map_Forall_insert_2; [|done]. by eapply sparsity_pattern_bits.
Qed.

Lemma mask_twice (k p : list Qc) :
  Forall (λ x, x = 0%Qc ∨ x = 1%Qc) p →
  zip_with Qcmult (zip_with Qcmult k p) p = zip_with Qcmult k p.
Proof.
  intros Hp. revert k. induction Hp as [|b p Hb _ IH]; intros [|x k];
    cbn [zip_with]; try done.
  rewrite IH. f_equal. destruct Hb as [->| ->]; ring.
Qed.

(** X22. With the patterns [set_sparsity_patterns] builds, masking is
    idempotent: [apply_sparsity] applied a second time to any layers
    changes nothing, and it keeps the names and kinds of the layers. *)
Theorem apply_sparsity_idempotent (model_layers layers : list Layer)
    (sparsity_patterns : gmap string (list Qc)) :
  set_sparsity_patterns model_layers ∅ = Some sparsity_patterns →
  apply_sparsity sparsity_patterns (apply_sparsity sparsity_patterns layers)
  = apply_sparsity sparsity_patterns layers ∧
  map layer_name (apply_sparsity sparsity_patterns layers)
  = map layer_name layers.
Proof.
  intros E.
  pose proof (set_sparsity_patterns_bits model_layers ∅ sparsity_patterns
                (map_Forall_empty _) E) as Hbits.
  unfold apply_sparsity. split.
  - rewrite <- list_fmap_compose. apply list_fmap_ext. intros i layer _.
    cbn [compose].
    destruct (sparsity_patterns !! layer_name layer) as [p|] eqn:Ep;
      cbn [layer_name]; rewrite Ep; [|done].
    cbn [kernel is_dense layer_name]. f_equal. apply mask_twice.
    by apply (Hbits (layer_name layer)).
  - rewrite <- list_fmap_compose. apply list_fmap_ext. intros i layer _.
    cbn [compose]. by destruct (sparsity_patterns !! layer_name layer).
Qed.

Lemma apply_sparsity_idempotent_witness :
  let layers :=
    [mkLayer "encoder/dense" true [Qc_of_Z 3; Qc_of_Z (-5); 1%Qc; Qc_of_Z 2];
     mkLayer "encoder/smolgen" true [1%Qc; 1%Qc; 1%Qc; 1%Qc]] in
  ∃ patterns,
    set_sparsity_patterns layers ∅ = Some patterns ∧
    apply_sparsity patterns (apply_sparsity patterns layers)
    = apply_sparsity patterns layers.
Proof.
  intros layers.
  exists {["encoder/dense" := [1%Qc; 1%Qc; 0%Qc; 0%Qc]]}.
  assert (E : set_sparsity_patterns layers ∅
              = Some {["encoder/dense" := [1%Qc; 1%Qc; 0%Qc; 0%Qc]]})
    by reflexivity.
  split; [exact E|].
  apply (apply_sparsity_idempotent layers layers _ E).
Defined.

(** ** Thresholded accuracies *)

Lemma sum_Qc_le (f g : Qc → Qc) (ps : list Qc) :
  (∀ p, (f p ≤ g p)%Qc) → (sum_Qc (map f ps) ≤ sum_Qc (map g ps))%Qc.
Proof.
  intros Hfg. induction ps as [|p ps IH]; cbn; [apply Qcle_refl|].
  by apply Qcplus_le_compat.
Qed.

Lemma reduce_mean_le (xs ys : list Qc) :
  length xs = length ys → (sum_Qc xs ≤ sum_Qc ys)%Qc →
  (reduce_mean xs ≤ reduce_mean ys)%Qc.
Proof.
  intros Hlen Hsum. unfold reduce_mean. rewrite Hlen.
  destruct (length ys) as [|n].
  - unfold Qcdiv. change (Z.of_nat 0) with 0. rewrite Z2Qc_inj_0.
    replace (/ 0)%Qc with 0%Qc by (apply Qc_is_canon; reflexivity).
    rewrite !Qcmult_0_r. apply Qcle_refl.
  - set (c := Qc_of_Z (Z.of_nat (S n))).
    assert (Hc : (0 < c)%Qc).
    { unfold c. rewrite <- Z2Qc_inj_0. apply (proj1 (Z2Qc_inj_lt 0 _)). lia. }
    apply (Qcmult_lt_0_le_reg_r _ _ c Hc).
    assert (Hne : c ≠ 0%Qc) by (intros E; rewrite E in Hc; by apply Qclt_not_eq in Hc).
    replace (sum_Qc xs / c * c)%Qc with (sum_Qc xs) by (field; exact Hne).
    by replace (sum_Qc ys / c * c)%Qc with (sum_Qc ys) by (field; exact Hne).
Qed.

Lemma indicator_antitone (t1 t2 p : Qc) :
  (t1 ≤ t2)%Qc →
  ((if Qc_ltb t2 p then 1 else 0) ≤ (if Qc_ltb t1 p then 1 else 0))%Qc.
Proof.
  intros Hle. destruct (Qc_ltb t2 p) eqn:E2.
  - apply Qc_ltb_lt in E2.
    assert (H1 : Qc_ltb t1 p = true)
      by (apply Qc_ltb_lt; by eapply Qcle_lt_trans).
    rewrite H1. apply Qcle_refl.
  - by destruct (Qc_ltb t1 p).
Qed.

(** X23. The thresholded accuracies come one per threshold and fall as
    the threshold rises: of two thresholds of the list, the higher one
    never has the higher accuracy. *)
Theorem policy_thresholded_accuracy_antitone (softmax : tensor Qc → tensor Qc)
    (c : Cfg) (accuracy_thresholds : list Qc)
    (target output : list (tensor Qc)) (thresholds : list Qc) (i j : nat)
    (t1 t2 : Qc) :
  thresholds !! i = Some t1 → thresholds !! j = Some t2 → (t1 ≤ t2)%Qc →
  let accuracies :=
    policy_thresholded_accuracy softmax c accuracy_thresholds target output
      (Thresholds thresholds) in
  length accuracies = length thresholds ∧
  ∃ a1 a2, accuracies !! i = Some a1 ∧ accuracies !! j = Some a2 ∧
           (a2 ≤ a1)%Qc.
Proof.
  intros Hi Hj Hle. cbv zeta. unfold policy_thresholded_accuracy.
  destruct thresholds as [|t0 rest] eqn:E; [done|].
  rewrite <- E. rewrite <- E in Hi, Hj. clear E.
  split; [by rewrite !length_map|].
  rewrite !list_lookup_fmap, Hi, Hj. cbn [fmap option_fmap option_map].
  eexists _, _. split; [reflexivity|]. split; [reflexivity|].
  apply reduce_mean_le; [by rewrite !length_map|].
  apply sum_Qc_le. intros p. apply indicator_antitone.
  unfold Qcdiv. apply Qcmult_le_compat_r; [exact Hle|].
  unfold Qcle. apply Qle_bool_imp_le. reflexivity.
Qed.

Lemma policy_thresholded_accuracy_antitone_witness :
  let softmax (row : tensor Qc) := map (λ x, x / sum_Qc row)%Qc row in
  let accuracies :=
    policy_thresholded_accuracy softmax sample_cfg [] [[0%Qc; 1%Qc]]
      [[1%Qc; Qc_of_Z 3]] (Thresholds [Qc_of_Z 50; Qc_of_Z 80]) in
  ∃ a1 a2, accuracies = [a1; a2] ∧ (a2 ≤ a1)%Qc.
Proof.
  intros softmax accuracies.
  destruct (policy_thresholded_accuracy_antitone softmax sample_cfg []
              [[0%Qc; 1%Qc]] [[1%Qc; Qc_of_Z 3]]
              [Qc_of_Z 50; Qc_of_Z 80] 0 1 (Qc_of_Z 50) (Qc_of_Z 80))
    as (_ & a1 & a2 & H1 & H2 & Hle).
  - reflexivity.
  - reflexivity.
  - apply Qle_bool_imp_le. reflexivity.
  - exists a1, a2. split; [|exact Hle].
    unfold accuracies. cbn in H1, H2. injection H1 as <-. injection H2 as <-.
    reflexivity.
Defined.

(** ** Gates *)

Lemma gate_neutral (op : Qc → Qc → Qc) (e : Qc) (row : tensor Qc) :
  (∀ x, op x e = x) → zip_with op row (replicate (length row) e) = row.
Proof.
  intros He. induction row as [|x row IH]; [done|].
  cbn. by rewrite He, IH.
Qed.

(** X24. A freshly built [ma_gating] is the identity: the multiplicative
    gate starts at one and the additive gate at zero, so every row of the
    shape the gates were built for comes out as it went in. *)
Theorem ma_gating_starts_as_identity (row_size : nat)
    (inputs : list (tensor Qc)) :
  Forall (λ row, length row = row_size) inputs →
  ma_gating row_size inputs = inputs.
Proof.
  intros Hshape. unfold ma_gating, Gating.call, Gating.build, Gating.init.
  cbn [Gating.additive Gating.init_value].
  rewrite <- list_fmap_compose.
  induction Hshape as [|row inputs Hrow _ IH]; [done|].
  cbn [fmap list_fmap compose]. cbn [fmap list_fmap compose] in IH.
  rewrite IH. f_equal. subst row_size.
  rewrite (gate_neutral Qcmult 1%Qc) by (intros x; ring).
  apply (gate_neutral Qcplus 0%Qc). intros x. ring.
Qed.

Lemma ma_gating_starts_as_identity_witness :
  ma_gating 2 [[Qc_of_Z 3; Qc_of_Z (-4)]; [0%Qc; 1%Qc]]
  = [[Qc_of_Z 3; Qc_of_Z (-4)]; [0%Qc; 1%Qc]].
Proof.
  apply ma_gating_starts_as_identity. repeat constructor.
Defined.

(** ** The checkpoint *)

Section Checkpoint.

Context `{Substrate}.

Lemma process_checkpoint_outcome (batch_size test_batches batch_splits : Z)
    (s s' : TFProcess) :
  process batch_size test_batches batch_splits s = (s', Ok tt) →
  checkpoint_due (global_step s + 1) (cfg s) = Ok true →
  ∃ s5 swa,
    swa_weights s5 = Some swa ∧ swa_weights s' = Some swa ∧
    weights s' = weights s5 ∧
    saved s'
    = saved s5 ++
      [("-onnx-" +:+ pretty (global_step s + 1),
        map (λ w, (w_name w, w_value w)) (weights s5));
       ("-swa-onnx-" +:+ pretty (global_step s + 1),
        map (λ w, (w_name w, w_value w))
            (assign_zip assign swa (weights s5)))].
Proof.
  intros E Hdue. revert E.
  unfold process.
  unfold mbind at 1, gets at 1. unfold mbind at 1, gets at 1.
  unfold mbind at 1, lift at 1.
  destruct (py_mod (global_step s) (total_steps (cfg s))) as [r0|e0]; [|done].
  unfold mbind at 1.
  set (before := if r0 =? 0 then _ else _).
  assert (V1 : global_step (before s).1 = global_step s).
  { unfold before. destruct (r0 =? 0); [|done].
    apply (test_passes_keeps global_step). by repeat split. }
  destruct (before s) as [s1 [[]|e1]]; cbn [fst] in V1; [|done].
  unfold mbind at 1.
  pose proof (determine_lr_keeps global_step ltac:(by repeat split)
                (global_step s) s1) as V2.
  destruct (determine_lr (global_step s) s1) as [s2 [[]|e2]];
    cbn [fst] in V2; [|done].
  unfold mbind at 1.
  destruct (train_step (global_step s) batch_size batch_splits s2)
    as [s3 [n|e3]] eqn:Estep; [|done].
  apply train_step_outcome in Estep as [_ [-> _]].
  unfold mbind at 1, gets at 1. unfold mbind at 1.
  set (averaging := if swa_enabled s3 then _ else _).
  destruct (averaging s3) as [s4 [[]|e4]]; [|done].
  unfold mbind at 1, lift at 1.
  destruct (test_due (global_step s2 + 1) (cfg s)) as [due|e5]; [|done].
  unfold mbind at 1.
  set (after := if due then _ else _).
  destruct (after s4) as [s5 [[]|e5']]; [|done].
  unfold mbind at 1, lift at 1.
  rewrite V2, V1, Hdue.
  unfold export, assign_weights. unfold mbind, modify, gets, the_swa_weights.
  cbn beta iota. cbn [swa_weights set_saved].
  destruct (swa_weights s5) as [swa|] eqn:E5; cbn beta iota; [|done].
  injection 1 as <-. exists s5, swa. cbn.
  split_and!; [done | done | |].
  - unfold read_weights. cbn. apply assign_zip_restore.
  - rewrite <- app_assoc. reflexivity.
Qed.

(** X25. A call of [process] that returns at a checkpoint step has
    exported two models, last among the saved files: the live model under
    ["-onnx-<step>"] and, after it, the model with the shadow values in
    its weights under ["-swa-onnx-<step>"]; the live weights are back in
    place afterwards and the shadow weights are those exported. *)
Theorem process_checkpoint_exports
    (batch_size test_batches batch_splits : Z) (s : TFProcess) :
  (process batch_size test_batches batch_splits s).2 = Ok tt →
  checkpoint_due (global_step s + 1) (cfg s) = Ok true →
  let s' := (process batch_size test_batches batch_splits s).1 in
  ∃ swa earlier,
    swa_weights s' = Some swa ∧
    saved s'
    = earlier ++
      [("-onnx-" +:+ pretty (global_step s + 1),
        map (λ w, (w_name w, w_value w)) (weights s'));
       ("-swa-onnx-" +:+ pretty (global_step s + 1),
        map (λ w, (w_name w, w_value w))
            (assign_zip assign swa (weights s')))].
Proof.
  destruct (process batch_size test_batches batch_splits s) as [s' r] eqn:E.
  cbn [fst snd]. intros -> Hdue.
  destruct (process_checkpoint_outcome _ _ _ _ _ E Hdue)
    as (s5 & swa & _ & Hswa & Hw & Hsaved).
  exists swa, (saved s5). split; [exact Hswa|]. by rewrite Hw.
Qed.

End Checkpoint.

Lemma process_checkpoint_exports_witness :
  let s := set_global_step 1 sample_cycle in
  let s' := (@process toy_substrate 16 0 1 s).1 in
  ∃ swa (earlier : list (string * list (string * tensor Qc))),
    swa_weights s' = Some swa ∧
    map fst (saved s') = map fst earlier ++ ["-onnx-2"; "-swa-onnx-2"].
Proof.
  intros s s'.
  destruct (@process_checkpoint_exports toy_substrate 16 0 1 s)
    as (swa & earlier & Hswa & Hsaved).
  - vm_compute. reflexivity.
  - reflexivity.
  - exists swa, earlier. split; [exact Hswa|].
    unfold s'. rewrite Hsaved, map_app. reflexivity.
Defined.

Lemma dump_assign_zip (swa : list (tensor Qc)) (ws : list Weight) :
  length swa = length ws →
  map (λ w, (w_name w, w_value w)) (assign_zip assign swa ws)
  = zip (map w_name ws) swa.
Proof.
  revert ws. induction swa as [|t swa IH]; intros [|w ws] Hlen;
    cbn in *; try done.
  rewrite IH by lia. done.
Qed.

(** X26. [save_swa_weights], when the file can be written, writes the
    shadow values under the names of the model's tensors, in their order,
    and leaves the live weights as they were; when there are no shadow
    weights it raises before writing anything. *)
Theorem save_swa_weights_writes_shadow `{Substrate} (filename : string)
    (s : TFProcess) :
  save_proto filename = true →
  match swa_weights s with
  | Some swa =>
      length swa = length (weights s) →
      (save_swa_weights filename s).2 = Ok tt ∧
      saved (save_swa_weights filename s).1
      = saved s ++ [(filename, zip (map w_name (weights s)) swa)] ∧
      weights (save_swa_weights filename s).1 = weights s
  | None => save_swa_weights filename s = (s, Raise TypeError)
  end.
Proof.
  intros Hwrite.
  unfold save_swa_weights, save_leelaz_weights, assign_weights.
  unfold mbind, gets, the_swa_weights, modify.
  destruct (swa_weights s) as [swa|]; [|done].
  intros Hlen. cbn beta iota. rewrite Hwrite. cbn.
  split_and!; [done | |].
  - by rewrite dump_assign_zip.
  - unfold read_weights. apply assign_zip_restore.
Qed.

Lemma save_swa_weights_writes_shadow_witness :
  saved (@save_swa_weights toy_substrate "swa.pb.gz" sample_swa).1
  = [("swa.pb.gz", [("w", [Qc_of_Z 3; Qc_of_Z 4])])].
Proof.
  pose proof (@save_swa_weights_writes_shadow toy_substrate "swa.pb.gz"
                sample_swa eq_refl) as Hsave.
  cbn [swa_weights sample_swa] in Hsave.
  destruct (Hsave eq_refl) as (_ & Hsaved & _).
  rewrite Hsaved. reflexivity.
Defined.

(** ** Steps on which nothing is due *)

Section QuietSteps.

Context `{Substrate}.

Lemma train_step_quiet (steps batch_size batch_splits : Z)
    (s : TFProcess) :
  report_due (global_step s + 1) (cfg s) = Ok false →
  logs (train_step steps batch_size batch_splits s).1 = logs s.
Proof.
  intros Hquiet.
  destruct (train_step steps batch_size batch_splits s) as [s' r] eqn:E.
  cbn [fst]. revert E. unfold train_step.
  unfold mbind at 1, gets at 1. unfold mbind at 1, lift at 1.
  destruct (report_due (steps + 1) (cfg s)) as [b1|e1];
    [|by injection 1 as <- _].
  unfold mbind at 1.
  pose proof (train_splits_keeps logs (Z.to_nat batch_splits)
                ltac:(done) ltac:(done) None s) as Hl1.
  pose proof (train_splits_keeps global_step (Z.to_nat batch_splits)
                ltac:(done) ltac:(done) None s) as Hg1.
  destruct (train_splits (Z.to_nat batch_splits) None s) as [s1 [grads|e]];
    cbn [fst] in Hl1, Hg1; [|by injection 1 as <- _].
  unfold mbind at 1, gets at 1.
  set (eff := match strategy s1 with
              | Some r0 => batch_splits * r0
              | None => batch_splits
              end).
  unfold mbind at 1.
  destruct (eff =? 0); [by injection 1 as <- _|].
  unfold modify at 1. set (s2 := set_active_lr _ s1).
  unfold mbind at 1.
  pose proof (apply_grads_keeps logs grads eff ltac:(done) ltac:(done) s2)
    as Hl3.
  pose proof (apply_grads_keeps global_step grads eff ltac:(done)
                ltac:(done) s2) as Hg3.
  destruct (apply_grads grads eff s2) as [s3 [norm|e]]; cbn [fst] in Hl3, Hg3.
  2: { injection 1 as <- _. by rewrite Hl3. }
  unfold mbind at 1, modify at 1.
  set (s4 := set_global_step (global_step s3 + 1) s3).
  unfold mbind at 1, gets at 1. unfold mbind at 1, lift at 1.
  assert (Hg4 : global_step s4 = global_step s + 1)
    by (unfold s4; simpl; rewrite Hg3; unfold s2; simpl; by rewrite Hg1).
  rewrite Hg4, Hquiet.
  unfold mbind, ret. injection 1 as <- _.
  transitivity (logs s3); [done|]. by rewrite Hl3.
Qed.


End QuietSteps.

